(** * NDKC Library System: offline storage and synchronisation layer

    A shallow embedding of the storage drivers, the storage manager, the
    attendance merge engine, the sync orchestrator, the realtime ingestor
    and the attendance service, followed by the properties established
    about them.

    Conventions of the embedding.
    - A [Date] is its epoch value in milliseconds, an integer of [Z]
      (only valid dates are modelled).
    - An identifier is the string the source obtains with [id.toString()].
    - An optional JavaScript property is an [option]; [truthy] is the
      JavaScript truth value of an optional string.
    - A rejected promise and a thrown exception are the same thing, the
      [Throw] outcome of a computation. *)

From Stdlib Require Import ZArith Lia Bool Ascii String DecimalString Sorted.
From stdpp Require Import base list strings gmap.

Local Open Scope string_scope.
Local Open Scope list_scope.
Local Open Scope Z_scope.

(** ** Data model (src/types, as used by the services) *)

Inductive Direction := CheckIn | CheckOut.

Definition Direction_eqb (x y : Direction) : bool :=
  match x, y with
  | CheckIn, CheckIn | CheckOut, CheckOut => true
  | _, _ => false
  end.

(** The fields every path below reads are spelled out; the remaining
    properties of an entry (barcode, purpose, contact, userType,
    studentType, level, strand) are only ever copied and travel in
    [rest]. *)
Record AttendanceEntry := {
  id : string;
  studentDatabaseId : option string;
  studentId : string;
  studentName : string;
  timestamp : Z;
  type : Direction;
  method : string;
  library : string;
  course : option string;
  year : option string;
  rest : list (string * string)
}.

(** JavaScript truthiness of an optional string property. *)
Definition truthy (o : option string) : bool :=
  match o with
  | Some s => negb (String.eqb s "")
  | None => false
  end.

(** [value.startsWith('local_')] *)
Definition startsWithLocal (s : string) : bool := String.prefix "local_" s.

(** [isUUID]: the regular expression
    [/^[0-9a-f]{8}-[0-9a-f]{4}-[0-9a-f]{4}-[0-9a-f]{4}-[0-9a-f]{12}$/i]. *)
Definition isHexDigit (c : ascii) : bool :=
  let n := nat_of_ascii c in
  ((48 <=? n)%nat && (n <=? 57)%nat)
  || ((97 <=? n)%nat && (n <=? 102)%nat)
  || ((65 <=? n)%nat && (n <=? 70)%nat).

Fixpoint takeHex (n : nat) (s : string) : option string :=
  match n with
  | O => Some s
  | S n' =>
      match s with
      | String c s' => if isHexDigit c then takeHex n' s' else None
      | EmptyString => None
      end
  end.

Definition takeDash (s : string) : option string :=
  match s with
  | String "-"%char s' => Some s'
  | _ => None
  end.

(** The groups of hexadecimal digits, each but the first preceded by a
    dash; the match is anchored at both ends. *)
Fixpoint matchGroups (groups : list nat) (first : bool) (s : string) : bool :=
  match groups with
  | [] => match s with EmptyString => true | _ => false end
  | n :: groups' =>
      match (if first then Some s else takeDash s) with
      | Some s1 =>
          match takeHex n s1 with
          | Some s2 => matchGroups groups' false s2
          | None => false
          end
      | None => false
      end
  end.

Definition isUUID (value : string) : bool :=
  matchGroups [8; 4; 4; 4; 12]%nat true value.

(** ** Fuzzy merge (autoSyncService.ts, syncSupabaseToLocal; the realtime
    service carries the same two functions) *)

Definition pickBetter (a b : AttendanceEntry) : AttendanceEntry :=
  if truthy (course a) && negb (truthy (course b)) then a
  else if truthy (course b) && negb (truthy (course a)) then b
  else
    let aLocal := startsWithLocal (id a) in
    let bLocal := startsWithLocal (id b) in
    if aLocal && negb bLocal then b
    else if bLocal && negb aLocal then a
    else if timestamp b <=? timestamp a then a else b.

(** The predicate of [deduped.find]: same business key, same direction,
    timestamps at most 10 000 ms apart. *)
Definition sameEvent (c rec : AttendanceEntry) : bool :=
  String.eqb (studentId c) (studentId rec)
  && Direction_eqb (type c) (type rec)
  && (Z.abs (timestamp c - timestamp rec) <=? 10000).

(** [Array.prototype.findIndex]; [None] stands for -1. *)
Fixpoint findIndex {A} (p : A -> bool) (l : list A) : option nat :=
  match l with
  | [] => None
  | x :: l' => if p x then Some O else S <$> findIndex p l'
  end.

(** One turn of the loop: [find] the first stored entry that is the same
    event; push when there is none, otherwise overwrite that slot
    ([indexOf] of the entry found is the index where it was found). *)
Definition dedupeStep (out : list AttendanceEntry) (rec : AttendanceEntry)
  : list AttendanceEntry :=
  match findIndex (fun c => sameEvent c rec) out with
  | None => out ++ [rec]
  | Some idx =>
      match out !! idx with
      | Some existing => <[idx := pickBetter existing rec]> out
      | None => out
      end
  end.

Definition dedupeList (l : list AttendanceEntry) : list AttendanceEntry :=
  fold_left dedupeStep l [].

(** ** Calendar fields of a [Date]

    [tz] is the host's time zone: the offset, in milliseconds, of local
    time from UTC at a given instant.  The civil calendar is the
    proleptic Gregorian one, as in ECMAScript. *)

Definition msPerDay : Z := 86400000.

Record DateFields := {
  fullYear : Z; month : Z; date : Z;
  hours : Z; minutes : Z; seconds : Z; milliseconds : Z
}.

Definition civilFromDays (days : Z) : Z * Z * Z :=
  let z := days + 719468 in
  let era := z / 146097 in
  let doe := z mod 146097 in
  let yoe := (doe - doe / 1460 + doe / 36524 - doe / 146096) / 365 in
  let doy := doe - (365 * yoe + yoe / 4 - yoe / 100) in
  let mp := (5 * doy + 2) / 153 in
  let d := doy - (153 * mp + 2) / 5 + 1 in
  let m := if mp <? 10 then mp + 3 else mp - 9 in
  let y := yoe + era * 400 + (if m <=? 2 then 1 else 0) in
  (y, m - 1, d).

Definition fieldsOf (t : Z) : DateFields :=
  let '(y, m, d) := civilFromDays (t / msPerDay) in
  let r := t mod msPerDay in
  {| fullYear := y; month := m; date := d;
     hours := r / 3600000; minutes := (r / 60000) mod 60;
     seconds := (r / 1000) mod 60; milliseconds := r mod 1000 |}.

Definition localFields (tz : Z -> Z) (t : Z) : DateFields := fieldsOf (t + tz t).

(** Decimal rendering of an integer, as a template literal does. *)
Definition showZ (z : Z) : string := NilZero.string_of_int (Z.to_int z).

Fixpoint zeros (n : nat) : string :=
  match n with O => "" | S n' => String "0"%char (zeros n') end.

Definition padStart (width : nat) (s : string) : string :=
  zeros (width - String.length s) +:+ s.

(** [Date.prototype.toISOString] *)
Definition toISOString (t : Z) : string :=
  let f := fieldsOf t in
  let y := fullYear f in
  let ys :=
    if (0 <=? y) && (y <=? 9999) then padStart 4 (showZ y)
    else (if y <? 0 then "-" else "+") +:+ padStart 6 (showZ (Z.abs y)) in
  ys +:+ "-" +:+ padStart 2 (showZ (month f + 1)) +:+ "-" +:+ padStart 2 (showZ (date f))
  +:+ "T" +:+ padStart 2 (showZ (hours f)) +:+ ":" +:+ padStart 2 (showZ (minutes f))
  +:+ ":" +:+ padStart 2 (showZ (seconds f)) +:+ "." +:+ padStart 3 (showZ (milliseconds f))
  +:+ "Z".

Definition typeString (d : Direction) : string :=
  match d with CheckIn => "check-in" | CheckOut => "check-out" end.

(** ** Exact-key deduplication (utils/deduplicateAttendance.ts) *)

(** [Array.prototype.sort] with the comparator
    [(a, b) => b.timestamp - a.timestamp]: the sort is stable, so its
    result is the one of a stable insertion sort, newest first. *)
Fixpoint insertDesc (x : AttendanceEntry) (l : list AttendanceEntry)
  : list AttendanceEntry :=
  match l with
  | [] => [x]
  | y :: l' =>
      if timestamp y <=? timestamp x then x :: y :: l' else y :: insertDesc x l'
  end.

Definition sortDesc (l : list AttendanceEntry) : list AttendanceEntry :=
  foldr insertDesc [] l.

Definition timestampKey (tz : Z -> Z) (t : Z) : string :=
  let f := localFields tz t in
  showZ (fullYear f) +:+ "-" +:+ showZ (month f) +:+ "-" +:+ showZ (date f)
  +:+ "-" +:+ showZ (hours f) +:+ "-" +:+ showZ (minutes f) +:+ "-" +:+ showZ (seconds f).

Definition dedupKey (tz : Z -> Z) (record : AttendanceEntry) : string :=
  studentId record +:+ "|" +:+ typeString (type record) +:+ "|"
  +:+ timestampKey tz (timestamp record).

(** The loop over [sorted], with the [seen] set threaded through. *)
Fixpoint dedupLoop (tz : Z -> Z) (seen : gset string) (sorted : list AttendanceEntry)
  : list AttendanceEntry :=
  match sorted with
  | [] => []
  | record :: sorted' =>
      let key := dedupKey tz record in
      if decide (key ∈ seen) then dedupLoop tz seen sorted'
      else record :: dedupLoop tz ({[key]} ∪ seen) sorted'
  end.

Definition deduplicateAttendance (tz : Z -> Z) (records : list AttendanceEntry)
  : list AttendanceEntry :=
  sortDesc (dedupLoop tz ∅ (sortDesc records)).

(** ** The envelope (utils/storage/types.ts) *)

Module Student.
(** The properties of a student record that the code reads. *)
Inductive key :=
| Id | Name | StudentId | Email | Department | BiometricData | Rfid | Library | Dirty.

Definition key_eqb (x y : key) : bool :=
  match x, y with
  | Id, Id | Name, Name | StudentId, StudentId | Email, Email
  | Department, Department | BiometricData, BiometricData | Rfid, Rfid
  | Library, Library | Dirty, Dirty => true
  | _, _ => false
  end.

(** [dirty] is the [_dirty] mark of a record edited offline.  A student
    object need not have every property: [absent] lists those it lacks,
    and the field of a lacking property holds what the code reads in its
    place (the empty string, [None], [false]). *)
Record t := {
  id : string;
  name : string;
  studentId : string;
  email : string;
  department : option string;
  biometricData : string;
  rfid : string;
  library : string;
  dirty : bool;
  absent : list key
}.

Definition has (k : key) (s : t) : bool := negb (existsb (key_eqb k) (absent s)).

(** The object spread [{...s, ...local}]: a property of [local]
    overrides that of [s]; a property [local] lacks is taken from [s]. *)
Definition spread (s local : t) : t :=
  {| id := if has Id local then id local else id s;
     name := if has Name local then name local else name s;
     studentId := if has StudentId local then studentId local else studentId s;
     email := if has Email local then email local else email s;
     department := if has Department local then department local else department s;
     biometricData :=
       if has BiometricData local then biometricData local else biometricData s;
     rfid := if has Rfid local then rfid local else rfid s;
     library := if has Library local then library local else library s;
     dirty := if has Dirty local then dirty local else dirty s;
     absent := List.filter (fun k => negb (has k local)) (absent s) |}.
End Student.

Definition Document := string.

(** [lastSync] holds the instant whose ISO rendering the source stores.
    A missing [documents] array is read by every consumer through
    [|| []] and is modelled as the empty list. *)
Record OfflineData := {
  students : list Student.t;
  attendanceRecords : list AttendanceEntry;
  documents : list Document;
  lastSync : option Z;
  fullSyncCompleted : option bool
}.

(** [Partial<OfflineData>]; also the shape of a parsed JSON blob, where
    any key may be missing. *)
Record PartialData := {
  p_students : option (list Student.t);
  p_attendanceRecords : option (list AttendanceEntry);
  p_documents : option (list Document);
  p_lastSync : option Z;
  p_fullSyncCompleted : option bool
}.

(** The object literal returned when nothing can be loaded; it has no
    [fullSyncCompleted] key. *)
Definition emptyEnvelope : OfflineData :=
  {| students := []; attendanceRecords := []; documents := [];
     lastSync := None; fullSyncCompleted := None |}.

(** ** Computations that may throw *)

Inductive Outcome (A : Type) :=
| Ok (a : A)
| Throw (e : string).
Arguments Ok {A} a.
Arguments Throw {A} e.

Global Instance Outcome_fmap : FMap Outcome := fun A B f o =>
  match o with Ok a => Ok (f a) | Throw e => Throw e end.

(** A computation over a state [S]; the state reached is kept also when
    the computation throws. *)
Definition Comp (S A : Type) : Type := S -> Outcome A * S.

Definition ret {S A} (a : A) : Comp S A := fun s => (Ok a, s).
Definition throw {S A} (e : string) : Comp S A := fun s => (Throw e, s).
Definition bind {S A B} (m : Comp S A) (k : A -> Comp S B) : Comp S B :=
  fun s => match m s with
           | (Ok a, s') => k a s'
           | (Throw e, s') => (Throw e, s')
           end.
Definition tryCatch {S A} (m : Comp S A) (handler : string -> Comp S A) : Comp S A :=
  fun s => match m s with
           | (Ok a, s') => (Ok a, s')
           | (Throw e, s') => handler e s'
           end.
Definition gets {S A} (f : S -> A) : Comp S A := fun s => (Ok (f s), s).
Definition modify {S} (f : S -> S) : Comp S unit := fun s => (Ok tt, f s).

Notation "x <- m ;; k" := (bind m (fun x => k))
  (at level 100, m at next level, right associativity).
Notation "m ;;; k" := (bind m (fun _ => k))
  (at level 100, right associativity).

(** ** Driver contract (utils/storage/types.ts, StorageDriver) *)

Inductive DriverName := ElectronSqlite | IndexedDb | LocalStorageName.

Module Driver.
Record t (W : Type) := {
  name : DriverName;
  isAvailable : W -> bool;
  load : Comp W OfflineData;
  save : PartialData -> Comp W unit;
  clear : Comp W unit
}.
Arguments name {W} _.
Arguments isAvailable {W} _ _.
Arguments load {W} _ _.
Arguments save {W} _ _ _.
Arguments clear {W} _ _.
End Driver.

(** ** Flat fallback driver (LocalStorageDriver) *)

Module LocalStorageDriver.

(** What [localStorage.getItem(STORAGE_KEY)] holds: nothing, text that
    [JSON.parse] rejects, or a JSON object. *)
Inductive Item := Absent | Corrupt | Blob (parsed : PartialData).

(** [present]: the [localStorage] global exists.  [writable]: [setItem]
    and [removeItem] succeed (they throw when the quota is exceeded or
    access is denied). *)
Record Store := { present : bool; writable : bool; item : Item }.

Definition isAvailable (st : Store) : bool := present st.

Definition load : Comp Store OfflineData := fun st =>
  match item st with
  | Blob parsed =>
      (Ok {| students := default [] (p_students parsed);
             attendanceRecords := default [] (p_attendanceRecords parsed);
             documents := default [] (p_documents parsed);
             lastSync := p_lastSync parsed;
             fullSyncCompleted := p_fullSyncCompleted parsed |}, st)
  | _ => (Ok emptyEnvelope, st)
  end.

(** [new Map(entries)]: a later entry with a key already present
    replaces the value and keeps the position of the first one. *)
Fixpoint mapSet {V} (k : string) (v : V) (m : list (string * V)) : list (string * V) :=
  match m with
  | [] => [(k, v)]
  | (k', v') :: m' =>
      if String.eqb k' k then (k', v) :: m' else (k', v') :: mapSet k v m'
  end.

Definition uniqueBy {V} (key : V -> string) (l : list V) : list V :=
  (fold_left (fun m v => mapSet (key v) v m) l []).*2.

Definition attendanceKey (r : AttendanceEntry) : string :=
  studentId r +:+ "-" +:+ toISOString (timestamp r) +:+ "-" +:+ typeString (type r).

Definition orElse {A} (x y : option A) : option A :=
  match x with Some _ => x | None => y end.

Definition save (data : PartialData) : Comp Store unit :=
  existing <- load ;;
  let allAttendance :=
    attendanceRecords existing ++ default [] (p_attendanceRecords data) in
  let allStudents := students existing ++ default [] (p_students data) in
  let uniqueAttendance := uniqueBy attendanceKey allAttendance in
  let uniqueStudents := uniqueBy Student.studentId allStudents in
  let updated :=
    {| p_students := Some uniqueStudents;
       p_attendanceRecords := Some uniqueAttendance;
       p_documents := Some (default (documents existing) (p_documents data));
       p_lastSync := orElse (p_lastSync data) (lastSync existing);
       p_fullSyncCompleted := None |} in
  fun st =>
    if writable st
    then (Ok tt, {| present := present st; writable := writable st; item := Blob updated |})
    else (Throw "QuotaExceededError", st).

Definition clear : Comp Store unit := fun st =>
  if writable st
  then (Ok tt, {| present := present st; writable := writable st; item := Absent |})
  else (Throw "SecurityError", st).

End LocalStorageDriver.

(** The driver as a [StorageDriver], acting on the part of the world
    [W] that holds its store. *)
Definition liftComp {W S A} (get : W -> S) (set : S -> W -> W) (m : Comp S A) : Comp W A :=
  fun w => let '(r, st) := m (get w) in (r, set st w).

Definition localStorageDriver {W} (get : W -> LocalStorageDriver.Store)
    (set : LocalStorageDriver.Store -> W -> W) : Driver.t W :=
  {| Driver.name := LocalStorageName;
     Driver.isAvailable := fun w => LocalStorageDriver.isAvailable (get w);
     Driver.load := liftComp get set LocalStorageDriver.load;
     Driver.save := fun data => liftComp get set (LocalStorageDriver.save data);
     Driver.clear := liftComp get set LocalStorageDriver.clear |}.

(** ** Storage manager (utils/storage/manager.ts) *)

(** [currentDriver] is the position in [drivers] of the driver object the
    source holds a reference to ([drivers.indexOf(currentDriver)]). *)
Record Manager := { currentDriver : option nat; initialized : bool }.

(** What the services do to the outside, in the order they do it: calls
    of [saveToLocalStorage] and requests to the remote backend.  The
    source keeps no such record; it is kept here so that a statement can
    say what a service called, and with which arguments. *)
Inductive Event :=
| EvSave (data : PartialData)
| EvSelectStudents
| EvSelectAttendance (since : option Z)
| EvSelectLast (byDatabaseId : bool) (studentIdentifier : string) (actionType : Direction)
| EvInsertAttendance (record : AttendanceEntry).

(** The running application: the manager singleton, the stores [W] of
    the drivers, what [localStorage] holds under the key
    ['current-storage-engine'], the orchestrator's [lastSyncTime], and
    the record of events so far (oldest first). *)
Record Sys (W : Type) := {
  manager : Manager;
  world : W;
  engineKey : option DriverName;
  lastSyncTime : Z;
  trace : list Event
}.
Arguments manager {W} _.
Arguments world {W} _.
Arguments engineKey {W} _.
Arguments lastSyncTime {W} _.
Arguments trace {W} _.

Definition withManager {W} (m : Manager) (s : Sys W) : Sys W :=
  {| manager := m; world := world s; engineKey := engineKey s;
     lastSyncTime := lastSyncTime s; trace := trace s |}.
Definition withWorld {W} (w : W) (s : Sys W) : Sys W :=
  {| manager := manager s; world := w; engineKey := engineKey s;
     lastSyncTime := lastSyncTime s; trace := trace s |}.
Definition withEngineKey {W} (name : DriverName) (s : Sys W) : Sys W :=
  {| manager := manager s; world := world s; engineKey := Some name;
     lastSyncTime := lastSyncTime s; trace := trace s |}.
Definition withLastSyncTime {W} (t : Z) (s : Sys W) : Sys W :=
  {| manager := manager s; world := world s; engineKey := engineKey s;
     lastSyncTime := t; trace := trace s |}.
Definition record {W} (e : Event) : Comp (Sys W) unit :=
  fun s => (Ok tt, {| manager := manager s; world := world s;
                      engineKey := engineKey s;
                      lastSyncTime := lastSyncTime s; trace := trace s ++ [e] |}).

(** [init] notes the name of the driver it adopts with
    [localStorage.setItem('current-storage-engine', driver.name)], when
    the host has a [localStorage] at all.  What becomes of that call is
    the host's matter and is read off the stores: there is no
    [localStorage], or [setItem] throws (quota exceeded, access denied),
    or it goes through. *)
Inductive KeyAccess := NoLocalStorage | SetItemThrows (e : string) | SetItemWorks.

Class Host (W : Type) := engineKeyAccess : W -> KeyAccess.

Module StorageManager.
Section WithDrivers.
Context {W : Type} `{!Host W} (drivers : list (Driver.t W)).

(** Run an operation of one driver on the stores. *)
Definition onDriver {A} (op : Comp W A) : Comp (Sys W) A :=
  fun s => let '(r, w) := op (world s) in (r, withWorld w s).

(** The loop of [init] from position [i] on.  The [try] block holds the
    test load, the two assignments and the note of the driver's name:
    when [setItem] throws, the driver has been adopted already and the
    loop goes on to the next one all the same. *)
Fixpoint initLoop (i : nat) (ds : list (Driver.t W)) : Comp (Sys W) unit :=
  match ds with
  | [] => throw "No storage driver available"
  | driver :: ds' => fun s =>
    if Driver.isAvailable driver (world s) then
      match onDriver (Driver.load driver) s with
      | (Ok _, s') =>
          let adopted :=
            withManager {| currentDriver := Some i; initialized := true |} s' in
          match engineKeyAccess (world adopted) with
          | NoLocalStorage => (Ok tt, adopted)
          | SetItemWorks => (Ok tt, withEngineKey (Driver.name driver) adopted)
          | SetItemThrows _ => initLoop (S i) ds' adopted
          end
      | (Throw _, s') => initLoop (S i) ds' s'
      end
    else initLoop (S i) ds' s
  end.

Definition init : Comp (Sys W) unit := fun s =>
  if initialized (manager s) then (Ok tt, s) else initLoop 0 drivers s.

(** The two guards that open [load], [save] and [clear]; the result is
  the active driver and its position. *)
Definition activeDriver : Comp (Sys W) (nat * Driver.t W) :=
  (fun s => match currentDriver (manager s) with
          | None => init s
          | Some _ => (Ok tt, s)
          end) ;;;
  fun s =>
  match currentDriver (manager s) with
  | None => (Throw "No storage driver initialized", s)
  | Some i =>
      match drivers !! i with
      | Some d => (Ok (i, d), s)
      | None => (Throw "No storage driver initialized", s)
      end
  end.

(** The [for] loop of the [catch] block of [load] and [save]: try the
  drivers after the active one; the first that succeeds becomes the
  active driver; when none does, the first error is thrown again. *)
Fixpoint fallback {A} (op : Driver.t W -> Comp W A) (error : string)
  (i : nat) (ds : list (Driver.t W)) : Comp (Sys W) A :=
  match ds with
  | [] => throw error
  | fallbackDriver :: ds' => fun s =>
    if Driver.isAvailable fallbackDriver (world s) then
      match onDriver (op fallbackDriver) s with
      | (Ok data, s') =>
          (Ok data,
           withManager {| currentDriver := Some i;
                          initialized := initialized (manager s') |} s')
      | (Throw _, s') => fallback op error (S i) ds' s'
      end
    else fallback op error (S i) ds' s
  end.

Definition load : Comp (Sys W) OfflineData :=
  cur <- activeDriver ;;
  let '(currentIndex, d) := cur in
  tryCatch (onDriver (Driver.load d))
  (fun error => fallback Driver.load error (S currentIndex) (drop (S currentIndex) drivers)).

Definition save (data : PartialData) : Comp (Sys W) unit :=
  cur <- activeDriver ;;
  let '(currentIndex, d) := cur in
  tryCatch (onDriver (Driver.save d data))
  (fun error =>
     fallback (fun fd => Driver.save fd data) error
       (S currentIndex) (drop (S currentIndex) drivers)).

Definition clear : Comp (Sys W) unit :=
  cur <- activeDriver ;;
  let '(_, d) := cur in
  onDriver (Driver.clear d).

(** [None] stands for the string ['unknown']. *)
Definition getCurrentDriverName (s : Sys W) : option DriverName :=
  i ← currentDriver (manager s); Driver.name <$> drivers !! i.

(** [migrate]: the envelope loaded is handed to the target's [save] as
    it is, every key present. *)
Definition asPartial (data : OfflineData) : PartialData :=
  {| p_students := Some (students data);
     p_attendanceRecords := Some (attendanceRecords data);
     p_documents := Some (documents data);
     p_lastSync := lastSync data;
     p_fullSyncCompleted := fullSyncCompleted data |}.

Definition DriverName_eqb (x y : DriverName) : bool :=
  match x, y with
  | ElectronSqlite, ElectronSqlite | IndexedDb, IndexedDb
  | LocalStorageName, LocalStorageName => true
  | _, _ => false
  end.

(** The [name] of a driver, as the source spells it. *)
Definition driverNameString (n : DriverName) : string :=
  match n with
  | ElectronSqlite => "electron-sqlite"
  | IndexedDb => "indexeddb"
  | LocalStorageName => "localstorage"
  end.

Definition migrate (toDriverName : DriverName) : Comp (Sys W) unit :=
  (fun s => match currentDriver (manager s) with
            | None => init s
            | Some _ => (Ok tt, s)
            end) ;;;
  match findIndex (fun d => DriverName_eqb (Driver.name d) toDriverName) drivers with
  | None => throw ("Driver " +:+ driverNameString toDriverName +:+ " not found")
  | Some target =>
      match drivers !! target with
      | None => throw ("Driver " +:+ driverNameString toDriverName +:+ " not found")
      | Some targetDriver => fun s =>
          if Driver.isAvailable targetDriver (world s) then
            (data <- load ;;
             onDriver (Driver.save targetDriver (asPartial data)) ;;;
             fun s' =>
               (Ok tt,
                withManager {| currentDriver := Some target;
                               initialized := initialized (manager s') |} s')) s
          else (Throw ("Driver " +:+ driverNameString toDriverName +:+ " is not available"), s)
      end
  end.

End WithDrivers.
End StorageManager.

(** ** utils/offlineStorage.ts *)

Section OfflineStorage.
Context {W : Type} `{!Host W} (drivers : list (Driver.t W)).

Definition saveToLocalStorage (data : PartialData) : Comp (Sys W) unit :=
  record (EvSave data) ;;;
  tryCatch (StorageManager.save drivers data) (fun error => throw error).

Definition getFromLocalStorage : Comp (Sys W) OfflineData :=
  tryCatch (StorageManager.load drivers) (fun _ => ret emptyEnvelope).

Definition clearLocalStorage : Comp (Sys W) unit :=
  tryCatch (StorageManager.clear drivers) (fun error => throw error).

End OfflineStorage.

(** ** Remote backend *)

(** The result of awaiting a query: the promise rejects (no network), or
    it resolves to an object with an [error] and a [data] property. *)
Inductive Response (A : Type) :=
| Rejected (e : string)
| Resolved (error : option string) (data : option A).
Arguments Rejected {A} e.
Arguments Resolved {A} error data.

(** Rows of the two remote tables, with their column names. *)
Record StudentRow := {
  row_id : string;
  row_name : string;
  row_student_id : string;
  row_email : option string;
  row_course : option string;
  row_biometric_data : option string;
  row_rfid : option string;
  row_library : option string
}.

Record AttendanceRow := {
  att_id : string;
  att_student_database_id : option string;
  att_student_id : string;
  att_student_name : string;
  att_timestamp : Z;
  att_type : option Direction;
  att_method : string;
  att_library : option string;
  att_course : option string;
  att_year : option string;
  att_rest : list (string * string)
}.

(** [x || fallbackValue] on an optional string. *)
Definition orString (x : option string) (fallbackValue : string) : string :=
  match x with
  | Some s => if String.eqb s "" then fallbackValue else s
  | None => fallbackValue
  end.

Definition studentOfRow (s : StudentRow) : Student.t :=
  {| Student.id := row_id s;
     Student.name := row_name s;
     Student.studentId := row_student_id s;
     Student.email := orString (row_email s) "";
     Student.department := row_course s;
     Student.biometricData := orString (row_biometric_data s) "";
     Student.rfid := orString (row_rfid s) "";
     Student.library := orString (row_library s) "notre-dame";
     Student.dirty := false;
     Student.absent := [] |}.

Definition entryOfRow (r : AttendanceRow) : AttendanceEntry :=
  {| id := att_id r;
     studentDatabaseId := att_student_database_id r;
     studentId := att_student_id r;
     studentName := att_student_name r;
     timestamp := att_timestamp r;
     type := default CheckIn (att_type r);
     method := att_method r;
     library := orString (att_library r) "notre-dame";
     course := att_course r;
     year := att_year r;
     rest := att_rest r |}.

(** [d.setDate(d.getDate() - n)] on the current date.  The date is taken
    apart in local time, [n] days are taken off the day of the month,
    and the local time so obtained is turned into an instant again.
    [tz t] is the offset of local time from UTC at the instant [t];
    [utc l] is the instant the host assigns to the local wall-clock time
    [l] (where the offset changes a local time occurs twice or not at
    all, and the choice is the host's). *)
Definition daysAgo (tz utc : Z -> Z) (n : Z) (now : Z) : Z :=
  utc (now + tz now - n * msPerDay).

(** ** Sync orchestrator (services/autoSyncService.ts) *)

Definition MIN_SYNC_INTERVAL : Z := 30000.
Definition REGULAR_SYNC_INTERVAL : Z := 60000.

(** What the backend answers to the two queries of the pull pass; the
    attendance answer depends on the lower bound asked for. *)
Record PullRemote := {
  selectStudents : Response (list StudentRow);
  selectAttendance : option Z -> Response (list AttendanceRow)
}.

(** [Promise.all] of two queries already issued: it rejects when one of
    them does. *)
Definition promiseAll {S A B} (x : Response A) (y : Response B)
  : Comp S ((option string * option A) * (option string * option B)) :=
  match x, y with
  | Rejected e, _ => throw e
  | _, Rejected e => throw e
  | Resolved e1 d1, Resolved e2 d2 => ret ((e1, d1), (e2, d2))
  end.

Definition isLocalCandidate (recordId : string) : bool :=
  negb (isUUID recordId) || startsWithLocal recordId.

(** [dirtyMap[s.id]]: [Object.fromEntries] keeps the last entry of a key. *)
Definition dirtyLookup (dirtyStudents : list Student.t) (key : string) : option Student.t :=
  last (List.filter (fun d => String.eqb (Student.id d) key) dirtyStudents).

(** [dirtyMap[s.id] ? { ...s, ...dirtyMap[s.id] } : s] *)
Definition overlay (dirtyStudents : list Student.t) (s : Student.t) : Student.t :=
  match dirtyLookup dirtyStudents (Student.id s) with
  | Some local => Student.spread s local
  | None => s
  end.

Section AutoSyncService.
Context {W : Type} `{!Host W} (drivers : list (Driver.t W)).
(** The host's time zone. *)
Context (tz utc : Z -> Z).

Definition syncSupabaseToLocal (remote : PullRemote) (now : Z) : Comp (Sys W) unit :=
  tryCatch
    (localData <- getFromLocalStorage drivers ;;
     let localOnlyStudents :=
       List.filter (fun s => startsWithLocal (Student.id s)) (students localData) in
     let needsFullDownload :=
       negb (default false (fullSyncCompleted localData)) in
     let thirtyDaysAgo := daysAgo tz utc 30 now in
     let localOnlyRecords :=
       List.filter
         (fun r => isLocalCandidate (id r) && (thirtyDaysAgo <=? timestamp r))
         (attendanceRecords localData) in
     let since := if needsFullDownload then None else Some thirtyDaysAgo in
     record EvSelectStudents ;;;
     record (EvSelectAttendance since) ;;;
     responses <- promiseAll (selectStudents remote) (selectAttendance remote since) ;;
     let '((studentsError, studentsData), (attendanceError, attendanceData)) := responses in
     match studentsError, attendanceError with
     | None, None =>
         (* [students] and [attendanceRecords] of the source *)
         let fetchedStudents := default [] (map studentOfRow <$> studentsData) in
         let fetchedAttendance := default [] (map entryOfRow <$> attendanceData) in
         let dirtyStudents :=
           List.filter
             (fun s => negb (startsWithLocal (Student.id s)) && Student.dirty s)
             (students localData) in
         let overlayedStudents := map (overlay dirtyStudents) fetchedStudents in
         let combinedRecords := fetchedAttendance ++ localOnlyRecords in
         let deduped := dedupeList combinedRecords in
         let finalStudents :=
           match fetchedStudents with
           | [] => localOnlyStudents
           | _ => overlayedStudents ++ localOnlyStudents
           end in
         let finalAttendance :=
           match fetchedAttendance with
           | [] => localOnlyRecords
           | _ => deduped
           end in
         saveToLocalStorage drivers
           {| p_students := Some finalStudents;
              p_attendanceRecords := Some finalAttendance;
              p_documents := None;
              p_lastSync := Some now;
              p_fullSyncCompleted := Some true |}
     | _, _ => ret tt
     end)
    (fun _ => ret tt).

(** [performSync] is modelled around any push pass: it is a parameter
    here, and what is proved of a cycle holds whatever it does.  The
    push pass of the source, [syncLocalToSupabase], is modelled further
    down. *)
Context (syncLocalToSupabase : Z -> Comp (Sys W) unit).

Definition performSync (remote : PullRemote) (now : Z) (forceSync : bool)
  : Comp (Sys W) unit :=
  fun s =>
    if negb forceSync && (now - lastSyncTime s <? MIN_SYNC_INTERVAL)
    then (Ok tt, s)
    else
      tryCatch
        (_ <- getFromLocalStorage drivers ;;
         syncLocalToSupabase now ;;;
         syncSupabaseToLocal remote now)
        (fun _ => ret tt)
        (withLastSyncTime now s).

Definition forceSync (remote : PullRemote) (now : Z) : Comp (Sys W) unit :=
  performSync remote now false.

End AutoSyncService.

(** ** Realtime ingestor (RealtimeService.processAttendanceChange) *)

(** A change notification for the attendance table, with the record the
    source builds from [payload.new] (a field-by-field renaming), or the
    identifier in [payload.old]. *)
Inductive Payload :=
| INSERT (newRecord : AttendanceEntry)
| UPDATE (updatedRecord : AttendanceEntry)
| DELETE (deletedId : string).

Definition sameId (x : AttendanceEntry) (r : AttendanceEntry) : bool :=
  String.eqb (id r) (id x).

(** The method mutates [localData.attendanceRecords]; here it takes the
    list and returns the flag together with the list it leaves behind. *)
Definition processAttendanceChange (payload : Payload) (records : list AttendanceEntry)
  : bool * list AttendanceEntry :=
  match payload with
  | INSERT newRecord =>
      match findIndex (sameId newRecord) records with
      | Some byIdIdx => (true, <[byIdIdx := newRecord]> records)
      | None =>
          let replaced :=
            match findIndex (fun r => sameEvent r newRecord) records with
            | Some dupIdx =>
                match records !! dupIdx with
                | Some existing => <[dupIdx := pickBetter existing newRecord]> records
                | None => records
                end
            | None => newRecord :: records
            end in
          (true, dedupeList replaced)
      end
  | UPDATE updatedRecord =>
      match findIndex (sameId updatedRecord) records with
      | Some existingIndex =>
          (true, dedupeList (<[existingIndex := updatedRecord]> records))
      | None => (false, records)
      end
  | DELETE deletedId =>
      match findIndex (fun r => String.eqb (id r) deletedId) records with
      | Some existingIndex => (true, delete existingIndex records)
      | None => (false, records)
      end
  end.

(** ** Attendance service (services/attendanceService.ts) *)

Definition COOLDOWN_SECONDS : Z := 300.

(** The backend as the attendance service meets it: [navigator.onLine],
    the answer to the latest-record query (by [student_database_id] when
    the flag is set, by [student_id] otherwise), and the answer to an
    insert. *)
Record AttendanceRemote := {
  onLine : bool;
  selectLast : bool -> string -> Direction -> Response (list AttendanceRow);
  insertRecord : AttendanceEntry -> Response AttendanceRow
}.

(** A promise that is not awaited: its effects happen, its rejection
    reaches nobody. *)
Definition notAwaited {S} (m : Comp S unit) : Comp S unit :=
  fun s => let '(_, s') := m s in (Ok tt, s').

(** Stable sort of instants, newest first, and its first element. *)
Fixpoint insertNewest (x : Z) (l : list Z) : list Z :=
  match l with
  | [] => [x]
  | y :: l' => if y <=? x then x :: y :: l' else y :: insertNewest x l'
  end.

Definition newestFirst (l : list Z) : list Z := foldr insertNewest [] l.

Section AttendanceService.
Context {W : Type} `{!Host W} (drivers : list (Driver.t W)).

Definition getLastAttendanceTimestamp (remote : AttendanceRemote)
    (studentIdentifier : string) (actionType : Direction) : Comp (Sys W) (option Z) :=
  localData <- getFromLocalStorage drivers ;;
  let localRecords :=
    List.filter
      (fun r =>
         (bool_decide (studentDatabaseId r = Some studentIdentifier)
          || String.eqb (studentId r) studentIdentifier)
         && Direction_eqb (type r) actionType)
      (attendanceRecords localData) in
  let localTimes := map timestamp localRecords in
  allTimes <-
    tryCatch
      (if onLine remote then
         let byDatabaseId := isUUID studentIdentifier in
         record (EvSelectLast byDatabaseId studentIdentifier actionType) ;;;
         match selectLast remote byDatabaseId studentIdentifier actionType with
         | Rejected e => throw e
         | Resolved None (Some (row :: _)) => ret (localTimes ++ [att_timestamp row])
         | Resolved _ _ => ret localTimes
         end
       else ret localTimes)
      (fun _ => ret localTimes) ;;
  ret (head (newestFirst allTimes)).

(** [generateId]: the clock, then nine characters drawn at random. *)
Definition generateId (now : Z) (suffix : string) : string :=
  "local_" +:+ showZ now +:+ "_" +:+ suffix.

Definition withId (record : AttendanceEntry) (newId : string) : AttendanceEntry :=
  {| id := newId;
     studentDatabaseId := studentDatabaseId record;
     studentId := studentId record;
     studentName := studentName record;
     timestamp := timestamp record;
     type := type record;
     method := method record;
     library := library record;
     course := course record;
     year := year record;
     rest := rest record |}.

Definition cooldownMessage (now lastTimestamp : Z) : string :=
  (* Math.ceil(COOLDOWN_SECONDS - (now - last) / 1000) *)
  let remainingSeconds := - ((now - lastTimestamp - COOLDOWN_SECONDS * 1000) / 1000) in
  let remainingMinutes := remainingSeconds / 60 in
  let remainingSecs := remainingSeconds mod 60 in
  "COOLDOWN:" +:+ showZ remainingMinutes +:+ ":" +:+ showZ remainingSecs.

(** [record] is the argument, of type [Omit<AttendanceEntry, 'id'>]:
    its [id] field is not read. *)
Definition addAttendanceRecord (remote : AttendanceRemote) (now : Z) (suffix : string)
    (newEntry : AttendanceEntry) : Comp (Sys W) AttendanceEntry :=
  lastTimestamp <-
    getLastAttendanceTimestamp remote
      (if truthy (studentDatabaseId newEntry)
       then default "" (studentDatabaseId newEntry)
       else studentId newEntry)
      (type newEntry) ;;
  (match lastTimestamp with
   | Some lastT =>
       if now - lastT <? COOLDOWN_SECONDS * 1000
       then throw (cooldownMessage now lastT)
       else ret tt
   | None => ret tt
   end) ;;;
  let newRecord := withId newEntry (generateId now suffix) in
  localData <- getFromLocalStorage drivers ;;
  let updatedRecords := attendanceRecords localData ++ [newRecord] in
  notAwaited
    (saveToLocalStorage drivers
       {| p_students := None; p_attendanceRecords := Some updatedRecords;
          p_documents := None; p_lastSync := None; p_fullSyncCompleted := None |}) ;;;
  tryCatch
    (if onLine remote then
       record (EvInsertAttendance newEntry) ;;;
       match insertRecord remote newEntry with
       | Rejected e => throw e
       | Resolved None (Some data) =>
           let serverRecord := entryOfRow data in
           let updatedWithServerId :=
             map (fun r => if String.eqb (id r) (id newRecord) then serverRecord else r)
               updatedRecords in
           notAwaited
             (saveToLocalStorage drivers
                {| p_students := None;
                   p_attendanceRecords := Some updatedWithServerId;
                   p_documents := None; p_lastSync := None;
                   p_fullSyncCompleted := None |}) ;;;
           ret serverRecord
       | Resolved _ _ => ret newRecord
       end
     else ret newRecord)
    (fun _ => ret newRecord).

End AttendanceService.

(** ** Realtime ingestor: students, queueing and flushing *)

(** A change notification for the students table, with the record the
    source builds from [payload.new], or the identifier in
    [payload.old]. *)
Inductive StudentPayload :=
| StudentINSERT (newStudent : Student.t)
| StudentUPDATE (updatedStudent : Student.t)
| StudentDELETE (deletedId : string).

Definition processStudentChange (payload : StudentPayload) (studentList : list Student.t)
  : bool * list Student.t :=
  match payload with
  | StudentINSERT newStudent =>
      match findIndex (fun s => String.eqb (Student.id s) (Student.id newStudent))
              studentList with
      | None => (true, newStudent :: studentList)
      | Some _ => (false, studentList)
      end
  | StudentUPDATE updatedStudent =>
      match findIndex (fun s => String.eqb (Student.id s) (Student.id updatedStudent))
              studentList with
      | Some existingIndex => (true, <[existingIndex := updatedStudent]> studentList)
      | None => (false, studentList)
      end
  | StudentDELETE deletedId =>
      match findIndex (fun s => String.eqb (Student.id s) deletedId) studentList with
      | Some existingIndex => (true, delete existingIndex studentList)
      | None => (false, studentList)
      end
  end.

(** [payload.new?.id || payload.old?.id] (identifiers are not empty). *)
Definition studentPayloadId (payload : StudentPayload) : string :=
  match payload with
  | StudentINSERT s | StudentUPDATE s => Student.id s
  | StudentDELETE i => i
  end.

Definition payloadId (payload : Payload) : string :=
  match payload with
  | INSERT r | UPDATE r => id r
  | DELETE i => i
  end.

(** The fields of the service: the two pending [Map]s, in insertion
    order, whether the flush timer is running, and the lists handed to
    the data-update callback so far. *)
Record RealtimeService := {
  pendingStudentUpdates : list (string * StudentPayload);
  pendingAttendanceUpdates : list (string * Payload);
  flushTimeout : bool;
  notified : list (list Student.t * list AttendanceEntry)
}.

Definition scheduleFlush (rt : RealtimeService) : RealtimeService :=
  if flushTimeout rt then rt
  else {| pendingStudentUpdates := pendingStudentUpdates rt;
          pendingAttendanceUpdates := pendingAttendanceUpdates rt;
          flushTimeout := true;
          notified := notified rt |}.

Definition queueStudentChange (payload : StudentPayload) (rt : RealtimeService)
  : RealtimeService :=
  scheduleFlush
    {| pendingStudentUpdates :=
         LocalStorageDriver.mapSet (studentPayloadId payload) payload
           (pendingStudentUpdates rt);
       pendingAttendanceUpdates := pendingAttendanceUpdates rt;
       flushTimeout := flushTimeout rt;
       notified := notified rt |}.

Definition queueAttendanceChange (payload : Payload) (rt : RealtimeService)
  : RealtimeService :=
  scheduleFlush
    {| pendingStudentUpdates := pendingStudentUpdates rt;
       pendingAttendanceUpdates :=
         LocalStorageDriver.mapSet (payloadId payload) payload
           (pendingAttendanceUpdates rt);
       flushTimeout := flushTimeout rt;
       notified := notified rt |}.

(** The two [for] loops of [flushUpdates]: each pending payload is
    processed in turn on the list the previous one left; the flag is set
    as soon as one of them reports a change. *)
Definition applyStudentChanges (pending : list (string * StudentPayload))
    (studentList : list Student.t) : bool * list Student.t :=
  fold_left
    (fun acc payload =>
       let '(changed, l) := processStudentChange payload acc.2 in
       (acc.1 || changed, l))
    pending.*2 (false, studentList).

Definition applyAttendanceChanges (pending : list (string * Payload))
    (records : list AttendanceEntry) : bool * list AttendanceEntry :=
  fold_left
    (fun acc payload =>
       let '(changed, l) := processAttendanceChange payload acc.2 in
       (acc.1 || changed, l))
    pending.*2 (false, records).

Section RealtimeFlush.
Context {W : Type} `{!Host W} (drivers : list (Driver.t W)).

Definition inSys {A} (m : Comp (Sys W) A) : Comp (RealtimeService * Sys W) A :=
  liftComp snd (fun s x => (x.1, s)) m.

Definition clearPending (rt : RealtimeService) : RealtimeService :=
  {| pendingStudentUpdates := []; pendingAttendanceUpdates := [];
     flushTimeout := flushTimeout rt; notified := notified rt |}.

(** [notifyDataUpdate], with a callback registered: it loads again and
    hands the two lists to the callback. *)
Definition notifyDataUpdate : Comp (RealtimeService * Sys W) unit :=
  localData <- inSys (getFromLocalStorage drivers) ;;
  modify (fun x =>
            ({| pendingStudentUpdates := pendingStudentUpdates x.1;
                pendingAttendanceUpdates := pendingAttendanceUpdates x.1;
                flushTimeout := flushTimeout x.1;
                notified := notified x.1
                            ++ [(students localData, attendanceRecords localData)] |},
             x.2)).

(** [flushUpdates].  The envelope loaded is mutated by the two loops and
    saved whole; [notifyDataUpdate] is not awaited. *)
Definition flushUpdates : Comp (RealtimeService * Sys W) unit :=
  fun x =>
    match pendingStudentUpdates x.1, pendingAttendanceUpdates x.1 with
    | [], [] => (Ok tt, x)
    | _, _ =>
        (localData <- inSys (getFromLocalStorage drivers) ;;
         rt <- gets fst ;;
         let '(changedStudents, newStudents) :=
           applyStudentChanges (pendingStudentUpdates rt) (students localData) in
         let '(changedAttendance, newRecords) :=
           applyAttendanceChanges (pendingAttendanceUpdates rt)
             (attendanceRecords localData) in
         modify (fun y => (clearPending y.1, y.2)) ;;;
         if changedStudents || changedAttendance then
           inSys (saveToLocalStorage drivers
                    {| p_students := Some newStudents;
                       p_attendanceRecords := Some newRecords;
                       p_documents := Some (documents localData);
                       p_lastSync := lastSync localData;
                       p_fullSyncCompleted := fullSyncCompleted localData |}) ;;;
           notAwaited notifyDataUpdate
         else ret tt) x
    end.

(** The timer callback: [flushUpdates] is started (and not awaited),
    then the timer handle is dropped. *)
Definition flushTimerFires : Comp (RealtimeService * Sys W) unit :=
  notAwaited flushUpdates ;;;
  modify (fun x =>
            ({| pendingStudentUpdates := pendingStudentUpdates x.1;
                pendingAttendanceUpdates := pendingAttendanceUpdates x.1;
                flushTimeout := false;
                notified := notified x.1 |}, x.2)).

End RealtimeFlush.

(** ** Attendance service: reading *)

(** The [pickBetter] of [getAttendanceRecords]: course first, then a UUID
    over any other identifier, then the later timestamp. *)
Definition pickBetterByUUID (a b : AttendanceEntry) : AttendanceEntry :=
  if truthy (course a) && negb (truthy (course b)) then a
  else if truthy (course b) && negb (truthy (course a)) then b
  else
    let aIsUUID := isUUID (id a) in
    let bIsUUID := isUUID (id b) in
    if aIsUUID && negb bIsUUID then a
    else if bIsUUID && negb aIsUUID then b
    else if timestamp b <=? timestamp a then a else b.

(** The same loop as [dedupeStep], around the [pickBetter] at hand. *)
Definition dedupeStepWith (pick : AttendanceEntry -> AttendanceEntry -> AttendanceEntry)
    (out : list AttendanceEntry) (rec : AttendanceEntry) : list AttendanceEntry :=
  match findIndex (fun c => sameEvent c rec) out with
  | None => out ++ [rec]
  | Some idx =>
      match out !! idx with
      | Some existing => <[idx := pick existing rec]> out
      | None => out
      end
  end.

Definition dedupeListWith (pick : AttendanceEntry -> AttendanceEntry -> AttendanceEntry)
    (l : list AttendanceEntry) : list AttendanceEntry :=
  fold_left (dedupeStepWith pick) l [].

Inductive Status := CheckedIn | CheckedOut | Unknown.

(** Stable sort, newest first, of records of which only the timestamp
    and the type are read. *)
Fixpoint insertStamped (x : Z * option Direction) (l : list (Z * option Direction))
  : list (Z * option Direction) :=
  match l with
  | [] => [x]
  | y :: l' => if y.1 <=? x.1 then x :: y :: l' else y :: insertStamped x l'
  end.

Definition sortStamped (l : list (Z * option Direction)) : list (Z * option Direction) :=
  foldr insertStamped [] l.

Section AttendanceReading.
Context {W : Type} `{!Host W} (drivers : list (Driver.t W)).

(** [online] is [navigator.onLine]; [answer] is what the backend answers
    to the query for all attendance rows, newest first. *)
Definition getAttendanceRecords (online : bool)
    (answer : Response (list AttendanceRow)) : Comp (Sys W) (list AttendanceEntry) :=
  localData <- getFromLocalStorage drivers ;;
  merged <-
    tryCatch
      (if online then
         record (EvSelectAttendance None) ;;;
         match answer with
         | Rejected e => throw e
         | Resolved None (Some data) =>
             let serverRecords := map entryOfRow data in
             let combined := serverRecords ++ attendanceRecords localData in
             let deduped := dedupeListWith pickBetterByUUID combined in
             saveToLocalStorage drivers
               {| p_students := None; p_attendanceRecords := Some deduped;
                  p_documents := None; p_lastSync := None;
                  p_fullSyncCompleted := None |} ;;;
             ret (Some deduped)
         | Resolved _ _ => ret None
         end
       else ret None)
      (fun _ => ret None) ;;
  match merged with
  | Some deduped => ret deduped
  | None => ret (attendanceRecords localData)
  end.

(** [answer] is what the backend answers to the query for the student's
    rows (by [student_database_id] when the identifier is a UUID, by
    [student_id] otherwise); the events on record have none for this
    query, which leaves no mark in the trace.  Of a server row the type
    is read as it is, without a default. *)
Definition getStudentCurrentStatus (online : bool)
    (answer : Response (list AttendanceRow)) (studentIdentifier : string)
  : Comp (Sys W) Status :=
  localData <- getFromLocalStorage drivers ;;
  let localRecords :=
    List.filter
      (fun r => bool_decide (studentDatabaseId r = Some studentIdentifier)
                || String.eqb (studentId r) studentIdentifier)
      (attendanceRecords localData) in
  let localStamped := map (fun r => (timestamp r, Some (type r))) localRecords in
  allRecords <-
    tryCatch
      (if online then
         match answer with
         | Rejected e => throw e
         | Resolved None (Some data) =>
             ret (map (fun row => (att_timestamp row, att_type row)) data ++ localStamped)
         | Resolved _ _ => ret localStamped
         end
       else ret localStamped)
      (fun _ => ret localStamped) ;;
  match sortStamped allRecords with
  | lastRecord :: _ =>
      ret (match lastRecord.2 with Some CheckIn => CheckedIn | _ => CheckedOut end)
  | [] => ret Unknown
  end.

End AttendanceReading.

(** ** Sync orchestrator: the push pass (syncLocalToSupabase) *)

(** The requests of the push pass.  A duplicate query carries the column
    it filters on ([student_database_id] when the flag is set,
    [student_id] otherwise), the value, the type and the two bounds on
    the timestamp; an insert or update carries the local record the row
    is built from. *)
Inductive PushRequest :=
| ReqInsertStudent (student : Student.t)
| ReqFindDuplicate (byDatabaseId : bool) (identifier : string) (actionType : Direction)
    (from to : Z)
| ReqInsertAttendance (record : AttendanceEntry)
| ReqUpdateStudent (student : Student.t).

(** The backend as the push pass meets it.  What it answers to a request
    may depend on everything asked before: each answer is a function of
    the requests so far, the one being answered last. *)
Record PushRemote := {
  answerInsertStudent : list PushRequest -> Response StudentRow;
  answerFindDuplicate : list PushRequest -> Response (list AttendanceRow);
  answerInsertAttendance : list PushRequest -> Response AttendanceRow;
  answerUpdateStudent : list PushRequest -> Response StudentRow
}.

(** The variables of one pass: the two lists of [localData], the two
    counters, and the requests made so far. *)
Record PushState := {
  ps_students : list Student.t;
  ps_attendanceRecords : list AttendanceEntry;
  syncCount : nat;
  replacedAny : bool;
  requests : list PushRequest
}.

(** The duplicate query for a record: ten seconds either side. *)
Definition duplicateQuery (record : AttendanceEntry) : PushRequest :=
  let byDatabaseId :=
    truthy (studentDatabaseId record) && isUUID (default "" (studentDatabaseId record)) in
  ReqFindDuplicate byDatabaseId
    (if byDatabaseId then default "" (studentDatabaseId record) else studentId record)
    (type record) (timestamp record - 10000) (timestamp record + 10000).

Section PushPass.
Context {W : Type} `{!Host W} (drivers : list (Driver.t W)).
(** The host: its time zone, and whether it is the desktop shell. *)
Context (tz utc : Z -> Z) (isElectron : bool).
(** The local records the pass builds from a row it gets back, field by
    field and without defaults. *)
Context (studentFromInsert : StudentRow -> Student.t).
Context (entryFromRow : AttendanceRow -> AttendanceEntry).

Definition pushStudent (remote : PushRemote) (st : PushState) (student : Student.t)
  : PushState :=
  let asked := requests st ++ [ReqInsertStudent student] in
  match answerInsertStudent remote asked with
  | Resolved None (Some data) =>
      {| ps_students :=
           map (fun s => if String.eqb (Student.id s) (Student.id student)
                         then studentFromInsert data else s) (ps_students st);
         ps_attendanceRecords := ps_attendanceRecords st;
         syncCount := S (syncCount st);
         replacedAny := replacedAny st;
         requests := asked |}
  | _ =>
      {| ps_students := ps_students st;
         ps_attendanceRecords := ps_attendanceRecords st;
         syncCount := syncCount st;
         replacedAny := replacedAny st;
         requests := asked |}
  end.

Definition replaceRecord (record : AttendanceEntry) (row : AttendanceRow)
    (l : list AttendanceEntry) : list AttendanceEntry :=
  map (fun r => if String.eqb (id r) (id record) then entryFromRow row else r) l.

Definition pushRecord (remote : PushRemote) (st : PushState) (record : AttendanceEntry)
  : PushState :=
  let asked := requests st ++ [duplicateQuery record] in
  let unchanged reqs :=
    {| ps_students := ps_students st;
       ps_attendanceRecords := ps_attendanceRecords st;
       syncCount := syncCount st;
       replacedAny := replacedAny st;
       requests := reqs |} in
  match answerFindDuplicate remote asked with
  | Rejected _ => unchanged asked
  | Resolved None (Some (server :: _)) =>
      {| ps_students := ps_students st;
         ps_attendanceRecords := replaceRecord record server (ps_attendanceRecords st);
         syncCount := syncCount st;
         replacedAny := true;
         requests := asked |}
  | Resolved _ _ =>
      let asked' := asked ++ [ReqInsertAttendance record] in
      match answerInsertAttendance remote asked' with
      | Resolved None (Some data) =>
          {| ps_students := ps_students st;
             ps_attendanceRecords := replaceRecord record data (ps_attendanceRecords st);
             syncCount := S (syncCount st);
             replacedAny := replacedAny st;
             requests := asked' |}
      | _ => unchanged asked'
      end
  end.

Definition pushDirtyStudent (remote : PushRemote) (st : PushState) (s : Student.t)
  : PushState :=
  let asked := requests st ++ [ReqUpdateStudent s] in
  match answerUpdateStudent remote asked with
  | Resolved None (Some data) =>
      {| ps_students :=
           map (fun it => if String.eqb (Student.id it) (Student.id s)
                          then studentOfRow data else it) (ps_students st);
         ps_attendanceRecords := ps_attendanceRecords st;
         syncCount := S (syncCount st);
         replacedAny := replacedAny st;
         requests := asked |}
  | _ =>
      {| ps_students := ps_students st;
         ps_attendanceRecords := ps_attendanceRecords st;
         syncCount := syncCount st;
         replacedAny := replacedAny st;
         requests := asked |}
  end.

(** The records ready to be pushed: not yet under a UUID, of the last
    seven days, and, in a browser, older than fifteen seconds.  The
    source reads the clock three times in one pass (for the seven-day
    bound, for the fifteen-second guard and for [lastSync]); [now]
    stands for the three readings. *)
Definition readyToPush (now : Z) (r : AttendanceEntry) : bool :=
  isLocalCandidate (id r)
  && (daysAgo tz utc 7 now <=? timestamp r)
  && (isElectron || (15000 <? now - timestamp r)).

(** The three loops, each over a list fixed before it starts. *)
Definition pushAll (remote : PushRemote) (now : Z) (localData : OfflineData)
  : PushState :=
  let st0 :=
    {| ps_students := students localData;
       ps_attendanceRecords := attendanceRecords localData;
       syncCount := 0; replacedAny := false; requests := [] |} in
  let localStudents :=
    List.filter (fun s => startsWithLocal (Student.id s)) (students localData) in
  let st1 := fold_left (pushStudent remote) localStudents st0 in
  let localRecords := List.filter (readyToPush now) (attendanceRecords localData) in
  let st2 := fold_left (pushRecord remote) localRecords st1 in
  let dirtyStudents :=
    List.filter (fun s => negb (startsWithLocal (Student.id s)) && Student.dirty s)
      (ps_students st2) in
  fold_left (pushDirtyStudent remote) dirtyStudents st2.

(** The pass; its value is the list of the requests it made. *)
Definition syncLocalToSupabaseLogged (remote : PushRemote) (now : Z)
  : Comp (Sys W) (list PushRequest) :=
  localData <- getFromLocalStorage drivers ;;
  let st := pushAll remote now localData in
  (if (0 <? syncCount st)%nat || replacedAny st then
     saveToLocalStorage drivers
       {| p_students := Some (ps_students st);
          p_attendanceRecords := Some (ps_attendanceRecords st);
          p_documents := None;
          p_lastSync := Some now;
          p_fullSyncCompleted := None |}
   else ret tt) ;;;
  ret (requests st).

Definition syncLocalToSupabase (remote : PushRemote) (now : Z) : Comp (Sys W) unit :=
  syncLocalToSupabaseLogged remote now ;;; ret tt.

End PushPass.

(** ** Vocabulary of the statements *)

(** Newest first. *)
Definition newerFirst (x y : AttendanceEntry) : Prop := timestamp y <= timestamp x.

(** The keys of a list are pairwise distinct and none is in [seen]. *)
Definition freshKeys (tz : Z -> Z) (seen : gset string) (l : list AttendanceEntry) : Prop :=
  NoDup (map (dedupKey tz) l) /\ Forall (fun r => dedupKey tz r ∉ seen) l.

(** The manager touches its own state and the stores, nothing else. *)
Definition sameService {W} (s s' : Sys W) : Prop :=
  trace s' = trace s /\ lastSyncTime s' = lastSyncTime s.

(** The fetch of the pull pass failed: a promise was rejected, or one of
    the two answers carries an error. *)
Definition fetchFailed {A B} (x : Response A) (y : Response B) : bool :=
  match x, y with
  | Resolved None _, Resolved None _ => false
  | _, _ => true
  end.

(** The lower bound the pull pass puts on attendance timestamps. *)
Definition attendanceWindow (tz utc : Z -> Z) (now : Z) (localData : OfflineData) : option Z :=
  if default false (fullSyncCompleted localData) then Some (daysAgo tz utc 30 now) else None.

Definition isSave (e : Event) : bool :=
  match e with EvSave _ => true | _ => false end.

(** Loading does not alter the stores. *)
Definition loadsReadOnly {W} (drivers : list (Driver.t W)) : Prop :=
  Forall (fun d => forall w, (Driver.load d w).2 = w) drivers.







(** The business key and direction of an entry. *)
Definition eventKey (r : AttendanceEntry) : string * Direction := (studentId r, type r).

(** No entry is the same event as a later one. *)
Fixpoint noFuzzyPair (l : list AttendanceEntry) : bool :=
  match l with
  | [] => true
  | x :: l' => forallb (fun r => negb (sameEvent x r)) l' && noFuzzyPair l'
  end.

(** The value a [Map] built by [mapSet] holds under a key. *)
Definition mapGet {V} (k : string) (m : list (string * V)) : option V :=
  snd <$> List.find (fun kv => String.eqb kv.1 k) m.

(** The [Map] that [uniqueBy] builds from a list, starting from [m]. *)
Definition mapFrom {V} (key : V -> string) (l : list V) (m : list (string * V))
  : list (string * V) :=
  fold_left (fun m v => LocalStorageDriver.mapSet (key v) v m) l m.

(** An identifier as a browser client meets them: a backend UUID or a
    [local_] placeholder. *)
Definition webId (s : string) : bool := isUUID s || startsWithLocal s.

(** The records [getStudentCurrentStatus] decides on: the rows of the
    backend, when the client is online and the query succeeded, then
    the local records of the student. *)
Definition statusRecords (online : bool) (answer : Response (list AttendanceRow))
    (studentIdentifier : string) (localData : OfflineData) : list (Z * option Direction) :=
  (if online then
     match answer with
     | Resolved None (Some data) => map (fun row => (att_timestamp row, att_type row)) data
     | _ => []
     end
   else [])
  ++ map (fun r => (timestamp r, Some (type r)))
       (List.filter
          (fun r => bool_decide (studentDatabaseId r = Some studentIdentifier)
                    || String.eqb (studentId r) studentIdentifier)
          (attendanceRecords localData)).

Definition statusOf (d : option Direction) : Status :=
  match d with Some CheckIn => CheckedIn | _ => CheckedOut end.

(** A duplicate query that found a row; a write that came back with its
    row. *)
Definition foundRow (x : Response (list AttendanceRow)) : bool :=
  match x with Resolved None (Some (_ :: _)) => true | _ => false end.

Definition accepted {A} (x : Response A) : bool :=
  match x with Resolved None (Some _) => true | _ => false end.

(** A backend that lets nothing through: every request is rejected,
    answered with an error, or answered without a row. *)
Definition refusesAll (remote : PushRemote) : Prop :=
  forall asked,
    accepted (answerInsertStudent remote asked) = false
    /\ foundRow (answerFindDuplicate remote asked) = false
    /\ accepted (answerInsertAttendance remote asked) = false
    /\ accepted (answerUpdateStudent remote asked) = false.

(** The payload the push pass saves. *)
Definition pushed (newStudents : list Student.t) (newRecords : list AttendanceEntry)
    (now : Z) : PartialData :=
  {| p_students := Some newStudents;
     p_attendanceRecords := Some newRecords;
     p_documents := None;
     p_lastSync := Some now;
     p_fullSyncCompleted := None |}.

(** Every pair of the map is a value under its own key. *)
Definition wellKeyed {V} (key : V -> string) (m : list (string * V)) : Prop :=
  Forall (fun kv => kv.1 = key kv.2) m.

(** In a log, every attendance insert comes right after the duplicate
    query of the same record, ready to be pushed, and that query, as it
    was asked, found no row. *)
Definition guarded (remote : PushRemote) (ready : AttendanceEntry -> Prop)
    (log : list PushRequest) : Prop :=
  forall i r, log !! i = Some (ReqInsertAttendance r) ->
    ready r
    /\ exists j, i = S j /\ log !! j = Some (duplicateQuery r)
                 /\ foundRow (answerFindDuplicate remote (take i log)) = false.


(** Nothing gets through: the lists and the counters stay as they are,
    and each step only adds its requests. *)
Definition untouched (st0 st : PushState) : Prop :=
  ps_students st = ps_students st0
  /\ ps_attendanceRecords st = ps_attendanceRecords st0
  /\ syncCount st = syncCount st0
  /\ replacedAny st = replacedAny st0.

(** ** Inputs used in examples *)

(** Asia/Manila: UTC+8, no daylight saving. *)
Definition manila : Z -> Z := fun _ => 28800000.
Definition manilaUTC : Z -> Z := fun l => l - 28800000.

Definition entry (i sid : string) (t : Z) (d : Direction) (c : option string)
  : AttendanceEntry :=
  {| id := i; studentDatabaseId := None; studentId := sid; studentName := "Ana Cruz";
     timestamp := t; type := d; method := "rfid"; library := "notre-dame";
     course := c; year := None; rest := [] |}.

(** Two scans of one student, five seconds apart: the first stored under
    a numeric identifier of the desktop database, the second under a
    fresh placeholder. *)
Definition scanNumeric : AttendanceEntry := entry "17" "S123" 1730505600000 CheckIn None.
Definition scanPlaceholder : AttendanceEntry :=
  entry "local_1730505605000_k3j9x0q2a" "S123" 1730505605000 CheckIn None.
Definition scanRemote : AttendanceEntry :=
  entry "123e4567-e89b-12d3-a456-426614174000" "S123" 1730505601000 CheckIn (Some "BSIT").

(** The precedence as the specification words it: a permanent
    identifier is one in the backend's UUID form, a placeholder one that
    starts with [local_]; on equal timestamps the first entry is taken. *)
Definition statedPrecedence (a b : AttendanceEntry) : AttendanceEntry :=
  if truthy (course a) && negb (truthy (course b)) then a
  else if truthy (course b) && negb (truthy (course a)) then b
  else if isUUID (id a) && startsWithLocal (id b) then a
  else if isUUID (id b) && startsWithLocal (id a) then b
  else if timestamp b <=? timestamp a then a else b.

(** A system over a world [W], before the manager's first use. *)
Definition freshSys {W} (w : W) : Sys W :=
  {| manager := {| currentDriver := None; initialized := false |};
     world := w; engineKey := None; lastSyncTime := 0; trace := [] |}.

(** One store, seen by the flat driver alone. *)
Definition flatOnly : list (Driver.t LocalStorageDriver.Store) :=
  [localStorageDriver (fun st => st) (fun st _ => st)].

(** A stand-in for a higher-preference driver, in the manner of a test
    double: it answers to the name of the embedded driver and keeps its
    data in a cell of its own; its operations throw when the cell is not
    writable. *)
Definition cellDriver {W} (get : W -> LocalStorageDriver.Store)
    (set : LocalStorageDriver.Store -> W -> W) : Driver.t W :=
  {| Driver.name := IndexedDb;
     Driver.isAvailable := fun w => LocalStorageDriver.isAvailable (get w);
     Driver.load := liftComp get set LocalStorageDriver.load;
     Driver.save := fun data => liftComp get set (LocalStorageDriver.save data);
     Driver.clear := liftComp get set LocalStorageDriver.clear |}.

Definition TwoStores : Type := LocalStorageDriver.Store * LocalStorageDriver.Store.

(** The [localStorage] of the flat driver is the one [init] writes the
    engine name to; of two stores it is the second. *)
Global Instance Store_Host : Host LocalStorageDriver.Store := fun st =>
  if LocalStorageDriver.present st
  then if LocalStorageDriver.writable st then SetItemWorks
       else SetItemThrows "QuotaExceededError"
  else NoLocalStorage.

Global Instance TwoStores_Host : Host TwoStores := fun w => engineKeyAccess (snd w).

Definition twoDrivers : list (Driver.t TwoStores) :=
  [cellDriver fst (fun st w => (st, snd w));
   localStorageDriver snd (fun st w => (fst w, st))].

(** A store written by an earlier, completed pull pass of a client that
    recorded the bootstrap flag. *)
Definition bootstrappedBlob : PartialData :=
  {| p_students := Some [];
     p_attendanceRecords := Some [scanRemote];
     p_documents := Some [];
     p_lastSync := Some 1730505660000;
     p_fullSyncCompleted := Some true |}.

Definition bootstrappedStore : LocalStorageDriver.Store :=
  {| LocalStorageDriver.present := true; LocalStorageDriver.writable := true;
     LocalStorageDriver.item := LocalStorageDriver.Blob bootstrappedBlob |}.

Definition onlyAttendance (X : list AttendanceEntry) : PartialData :=
  {| p_students := None; p_attendanceRecords := Some X; p_documents := None;
     p_lastSync := None; p_fullSyncCompleted := None |}.

(** The first store refuses writes, the second is in order. *)
Definition brokenFirst : TwoStores :=
  ({| LocalStorageDriver.present := true; LocalStorageDriver.writable := false;
      LocalStorageDriver.item := LocalStorageDriver.Blob bootstrappedBlob |},
   {| LocalStorageDriver.present := true; LocalStorageDriver.writable := true;
      LocalStorageDriver.item := LocalStorageDriver.Blob bootstrappedBlob |}).

Definition brokenFirstSys : Sys TwoStores :=
  {| manager := {| currentDriver := Some 0%nat; initialized := true |};
     world := brokenFirst; engineKey := None; lastSyncTime := 0; trace := [] |}.

(** A backend out of reach, and one that answers with one student and
    one attendance row. *)
Definition unreachable : PullRemote :=
  {| selectStudents := Rejected "TypeError: Failed to fetch";
     selectAttendance := fun _ => Rejected "TypeError: Failed to fetch" |}.

Definition remoteRow : AttendanceRow :=
  {| att_id := "123e4567-e89b-12d3-a456-426614174000";
     att_student_database_id := None; att_student_id := "S123";
     att_student_name := "Ana Cruz"; att_timestamp := 1730505601000;
     att_type := Some CheckIn; att_method := "rfid"; att_library := None;
     att_course := Some "BSIT"; att_year := None; att_rest := [] |}.

Definition reachable : PullRemote :=
  {| selectStudents :=
       Resolved None
         (Some [{| row_id := "9b2e4567-e89b-12d3-a456-426614174999";
                   row_name := "Ana Cruz"; row_student_id := "S123";
                   row_email := None; row_course := Some "BSIT";
                   row_biometric_data := None; row_rfid := None;
                   row_library := None |}]);
     selectAttendance := fun _ => Resolved None (Some [remoteRow]) |}.

(** The orchestrator ten seconds after a cycle began at
    [1730505600000], its store already bootstrapped. *)
Definition tenSecondsAfter : Sys LocalStorageDriver.Store :=
  {| manager := {| currentDriver := Some 0%nat; initialized := true |};
     world := bootstrappedStore; engineKey := None; lastSyncTime := 1730505600000; trace := [] |}.

(** A push pass with nothing to push. *)
Definition nothingToPush {W} : Z -> Comp (Sys W) unit := fun _ => ret tt.

(** The attendance service without a connection. *)
Definition offline : AttendanceRemote :=
  {| onLine := false;
     selectLast := fun _ _ _ => Rejected "TypeError: Failed to fetch";
     insertRecord := fun _ => Rejected "TypeError: Failed to fetch" |}.

(** A scan of the student of [scanRemote], in the same direction. *)
Definition nextScan (t : Z) : AttendanceEntry := entry "" "S123" t CheckIn (Some "BSIT").

(** The same student an hour later. *)
Definition scanLater : AttendanceEntry :=
  entry "local_1730509200000_a1b2c3d4e" "S123" 1730509200000 CheckIn None.

(** A corrected copy of the stored check-in: same student, instant and
    direction, with the year filled in. *)
Definition scanRemoteWithYear : AttendanceEntry :=
  {| id := id scanRemote; studentDatabaseId := studentDatabaseId scanRemote;
     studentId := studentId scanRemote; studentName := studentName scanRemote;
     timestamp := timestamp scanRemote; type := type scanRemote;
     method := method scanRemote; library := library scanRemote;
     course := course scanRemote; year := Some "3"; rest := rest scanRemote |}.

(** Two stores in order, the first one active; and two stores that both
    refuse writes. *)
Definition healthyBoth : TwoStores := (bootstrappedStore, bootstrappedStore).

Definition healthyBothSys : Sys TwoStores :=
  {| manager := {| currentDriver := Some 0%nat; initialized := true |};
     world := healthyBoth; engineKey := None; lastSyncTime := 0; trace := [] |}.

Definition brokenBoth : TwoStores := (fst brokenFirst, fst brokenFirst).

Definition brokenBothSys : Sys TwoStores :=
  {| manager := {| currentDriver := Some 0%nat; initialized := true |};
     world := brokenBoth; engineKey := None; lastSyncTime := 0; trace := [] |}.

(** A service with nothing pending and no timer running. *)
Definition idleService : RealtimeService :=
  {| pendingStudentUpdates := []; pendingAttendanceUpdates := [];
     flushTimeout := false; notified := [] |}.

(** A student registered offline and a store that holds it together
    with a scan not yet pushed. *)
Definition offlineStudent : Student.t :=
  {| Student.id := "local_1730505500000_q1w2e3r4t"; Student.name := "Ben Reyes";
     Student.studentId := "S456"; Student.email := ""; Student.department := None;
     Student.biometricData := ""; Student.rfid := ""; Student.library := "notre-dame";
     Student.dirty := false;
     Student.absent := [] |}.

Definition pendingStore : LocalStorageDriver.Store :=
  {| LocalStorageDriver.present := true; LocalStorageDriver.writable := true;
     LocalStorageDriver.item :=
       LocalStorageDriver.Blob
         {| p_students := Some [offlineStudent];
            p_attendanceRecords := Some [scanPlaceholder];
            p_documents := Some [];
            p_lastSync := None;
            p_fullSyncCompleted := None |} |}.

(** A push pass that fails. *)
Definition failingPush {W} : Z -> Comp (Sys W) unit := fun _ => throw "push failed".

(** What [pendingStore] holds, as an envelope; a backend that is out of
    reach for the push pass, and one that knows none of the records and
    stores what it is sent. *)
Definition pendingData : OfflineData :=
  {| students := [offlineStudent]; attendanceRecords := [scanPlaceholder];
     documents := []; lastSync := None; fullSyncCompleted := None |}.

Definition pushUnreachable : PushRemote :=
  {| answerInsertStudent := fun _ => Rejected "TypeError: Failed to fetch";
     answerFindDuplicate := fun _ => Rejected "TypeError: Failed to fetch";
     answerInsertAttendance := fun _ => Rejected "TypeError: Failed to fetch";
     answerUpdateStudent := fun _ => Rejected "TypeError: Failed to fetch" |}.

Definition pushReachable : PushRemote :=
  {| answerInsertStudent := fun _ =>
       Resolved None
         (Some {| row_id := "9b2e4567-e89b-12d3-a456-426614174999";
                  row_name := "Ben Reyes"; row_student_id := "S456";
                  row_email := None; row_course := None;
                  row_biometric_data := None; row_rfid := None;
                  row_library := Some "notre-dame" |});
     answerFindDuplicate := fun _ => Resolved None (Some []);
     answerInsertAttendance := fun _ => Resolved None (Some remoteRow);
     answerUpdateStudent := fun _ => Resolved (Some "PGRST116") None |}.



(** A browser in which the flat driver is the active one, before
    anything has been stored. *)
Definition startedOnFlat : Sys LocalStorageDriver.Store :=
  {| manager := {| currentDriver := Some 0%nat; initialized := true |};
     world := {| LocalStorageDriver.present := true; LocalStorageDriver.writable := true;
                 LocalStorageDriver.item := LocalStorageDriver.Absent |};
     engineKey := Some LocalStorageName; lastSyncTime := 0; trace := [] |}.




(** * Properties *)

(** ** Fuzzy merge *)

Lemma isUUID_not_local s : isUUID s = true -> startsWithLocal s = false.
Proof.
  destruct s as [|c s]; [discriminate|].
  unfold startsWithLocal.
  change (String.prefix "local_" (String c s))
    with (if ascii_dec "l" c then String.prefix "ocal_" s else false).
  destruct (ascii_dec "l" c) as [<-|_]; [discriminate | reflexivity].
Qed.

Lemma dedupeList_pair a b :
  sameEvent a b = true -> dedupeList [a; b] = [pickBetter a b].
Proof.
  intros H. unfold dedupeList; simpl. unfold dedupeStep at 1; simpl.
  unfold dedupeStep; simpl. now rewrite H.
Qed.


(** The precedence of the sync paths, for any pair: two entries that are
    the same event merge into exactly one.  The entry kept is the one with a non-empty course
    when exactly one has it; otherwise the one whose identifier does not
    start with [local_] when exactly one does (so a UUID wins over a
    placeholder, and so does any other identifier); otherwise the one
    with the later timestamp, the first on a tie. *)
Theorem fuzzy_merge_pair_precedence (a b : AttendanceEntry) :
  sameEvent a b = true ->
  exists kept,
    dedupeList [a; b] = [kept]
    /\ (truthy (course a) = true -> truthy (course b) = false -> kept = a)
    /\ (truthy (course b) = true -> truthy (course a) = false -> kept = b)
    /\ (truthy (course a) = truthy (course b) ->
        (startsWithLocal (id a) = false -> startsWithLocal (id b) = true -> kept = a)
        /\ (startsWithLocal (id b) = false -> startsWithLocal (id a) = true -> kept = b)
        /\ (isUUID (id a) = true -> startsWithLocal (id b) = true -> kept = a)
        /\ (isUUID (id b) = true -> startsWithLocal (id a) = true -> kept = b)
        /\ (startsWithLocal (id a) = startsWithLocal (id b) ->
            (timestamp b < timestamp a -> kept = a)
            /\ (timestamp a < timestamp b -> kept = b)
            /\ (timestamp a = timestamp b -> kept = a))).
Proof.
  intros H. exists (pickBetter a b). split; [now apply dedupeList_pair|].
  unfold pickBetter.
  destruct (truthy (course a)) eqn:Ca, (truthy (course b)) eqn:Cb,
    (startsWithLocal (id a)) eqn:La, (startsWithLocal (id b)) eqn:Lb; simpl;
    repeat split; intros;
    repeat match goal with
           | U : isUUID _ = true |- _ => apply isUUID_not_local in U
           end;
    try congruence;
    destruct (Z.leb_spec (timestamp b) (timestamp a)); try reflexivity; lia.
Qed.

Lemma fuzzy_merge_pair_precedence_witness :
  exists kept, dedupeList [scanNumeric; scanRemote] = [kept] /\ kept = scanRemote.
Proof.
  destruct (fuzzy_merge_pair_precedence scanNumeric scanRemote eq_refl)
    as (kept & Hk & _ & Hb & _).
  exists kept. split; [exact Hk | now apply Hb].
Defined.

(** C1 at a failing input: two scans of one student, five seconds
    apart, neither with a course; the earlier is filed under a numeric
    identifier of the desktop database, the later under a fresh
    placeholder.  Neither identifier is a permanent one, so the stated
    precedence falls through to the timestamps and keeps the later
    scan.  The merge of the pull pass and of the realtime ingestor keeps
    the earlier one, in whichever order the two are met:
    their [pickBetter] asks only whether an identifier starts with
    [local_] and takes every other identifier for a permanent one.  The
    [pickBetter] of [getAttendanceRecords] asks whether the identifier
    is a UUID, and on the same two scans keeps the later one. *)
Theorem fuzzy_merge_keeps_older_numeric_entry :
  sameEvent scanNumeric scanPlaceholder = true
  /\ truthy (course scanNumeric) = false
  /\ truthy (course scanPlaceholder) = false
  /\ isUUID (id scanNumeric) = false
  /\ isUUID (id scanPlaceholder) = false
  /\ timestamp scanNumeric < timestamp scanPlaceholder
  /\ statedPrecedence scanNumeric scanPlaceholder = scanPlaceholder
  /\ dedupeList [scanNumeric; scanPlaceholder] = [scanNumeric]
  /\ dedupeList [scanPlaceholder; scanNumeric] = [scanNumeric]
  /\ dedupeList [scanNumeric; scanPlaceholder]
     <> [statedPrecedence scanNumeric scanPlaceholder]
  /\ dedupeListWith pickBetterByUUID [scanNumeric; scanPlaceholder] = [scanPlaceholder].
Proof. repeat split; try reflexivity; discriminate. Qed.

(** ** Exact-key deduplication *)

Lemma insertDesc_elem x y l : y ∈ insertDesc x l <-> y = x \/ y ∈ l.
Proof.
  induction l as [|z l IH]; simpl.
  - rewrite list_elem_of_singleton, elem_of_nil. tauto.
  - destruct (timestamp z <=? timestamp x).
    + rewrite elem_of_cons. reflexivity.
    + rewrite !elem_of_cons, IH. tauto.
Qed.

Lemma sortDesc_elem y l : y ∈ sortDesc l <-> y ∈ l.
Proof.
  induction l as [|x l IH]; simpl; [reflexivity|].
  rewrite insertDesc_elem, elem_of_cons, IH. reflexivity.
Qed.

Lemma insertDesc_sorted x l :
  StronglySorted newerFirst l -> StronglySorted newerFirst (insertDesc x l).
Proof.
  induction 1 as [|z l Hl IH Hz]; simpl.
  - repeat constructor.
  - destruct (Z.leb_spec (timestamp z) (timestamp x)).
    + constructor; [now constructor|].
      constructor; [assumption|].
      eapply Forall_impl; [exact Hz|]. unfold newerFirst; intros; lia.
    + constructor; [assumption|].
      apply Forall_forall. intros y Hy. apply insertDesc_elem in Hy as [->|Hy].
      * unfold newerFirst; lia.
      * rewrite Forall_forall in Hz. now apply Hz.
Qed.

Lemma sortDesc_sorted l : StronglySorted newerFirst (sortDesc l).
Proof.
  induction l; simpl; [constructor | now apply insertDesc_sorted].
Qed.

(** Sorting a list that is already in order changes nothing: the sort is
    stable. *)
Lemma sortDesc_fixed l : StronglySorted newerFirst l -> sortDesc l = l.
Proof.
  induction 1 as [|x l Hl IH Hx]; simpl; [reflexivity|].
  rewrite IH. destruct l as [|y l]; simpl; [reflexivity|].
  apply Forall_cons in Hx as [Hy _]. unfold newerFirst in Hy.
  destruct (Z.leb_spec (timestamp y) (timestamp x)); [reflexivity | lia].
Qed.

Section DedupLoop.
Variable tz : Z -> Z.

Lemma dedupLoop_elem seen l r : r ∈ dedupLoop tz seen l -> r ∈ l.
Proof.
  revert seen; induction l as [|x l IH]; intros seen; simpl; [trivial|].
  destruct (decide (dedupKey tz x ∈ seen)).
  - intros H. right. eauto.
  - rewrite !elem_of_cons. intros [->|H]; [now left | right; eauto].
Qed.

Lemma dedupLoop_sorted seen l :
  StronglySorted newerFirst l -> StronglySorted newerFirst (dedupLoop tz seen l).
Proof.
  intros H; revert seen; induction H as [|x l Hl IH Hx]; intros seen; simpl.
  - constructor.
  - destruct (decide (dedupKey tz x ∈ seen)); [apply IH|].
    constructor; [apply IH|].
    apply Forall_forall. intros y Hy. apply dedupLoop_elem in Hy.
    rewrite Forall_forall in Hx. now apply Hx.
Qed.

Lemma dedupLoop_fresh seen l : freshKeys tz seen (dedupLoop tz seen l).
Proof.
  revert seen; induction l as [|x l IH]; intros seen; simpl.
  - split; constructor.
  - destruct (decide (dedupKey tz x ∈ seen)) as [|Hx]; [apply IH|].
    destruct (IH ({[dedupKey tz x]} ∪ seen)) as [Hnd Hall].
    rewrite Forall_forall in Hall.
    split.
    + simpl. constructor; [|assumption].
      rewrite list_elem_of_fmap. intros (y & Hy & Hin).
      apply Hall in Hin. set_solver.
    + constructor; [assumption|].
      apply Forall_forall. intros y Hy. apply Hall in Hy. set_solver.
Qed.

Lemma dedupLoop_fixed seen l : freshKeys tz seen l -> dedupLoop tz seen l = l.
Proof.
  revert seen; induction l as [|x l IH]; intros seen [Hnd Hall]; simpl; [reflexivity|].
  apply Forall_cons in Hall as [Hx Hall]. simpl in Hnd. apply NoDup_cons in Hnd as [Hx' Hnd].
  destruct (decide (dedupKey tz x ∈ seen)); [contradiction|].
  f_equal. apply IH. split; [assumption|].
  rewrite Forall_forall in *. intros y Hy.
  assert (dedupKey tz y <> dedupKey tz x).
  { intros E. apply Hx'. rewrite <- E. apply list_elem_of_fmap. eauto. }
  specialize (Hall y Hy). rewrite elem_of_union, elem_of_singleton. tauto.
Qed.

(** Every entry of a sorted list either has its key in [seen] or is
    represented in the output by an entry of the same key that is at
    least as recent. *)
Lemma dedupLoop_latest seen l r :
  StronglySorted newerFirst l -> r ∈ l ->
  dedupKey tz r ∈ seen
  \/ exists k, k ∈ dedupLoop tz seen l
               /\ dedupKey tz k = dedupKey tz r /\ timestamp r <= timestamp k.
Proof.
  intros H; revert seen; induction H as [|x l Hl IH Hx]; intros seen Hr; simpl.
  - inversion Hr.
  - rewrite Forall_forall in Hx.
    destruct (decide (dedupKey tz x ∈ seen)) as [Hs|Hs].
    + apply elem_of_cons in Hr as [->|Hr]; [now left | now apply IH].
    + apply elem_of_cons in Hr as [->|Hr].
      * right. exists x. rewrite elem_of_cons. split; [now left | split; [reflexivity | lia]].
      * destruct (IH ({[dedupKey tz x]} ∪ seen) Hr) as [Hk | (k & Hk & Hkey & Ht)].
        -- apply elem_of_union in Hk as [Hk|Hk]; [|now left].
           apply elem_of_singleton in Hk. right. exists x.
           rewrite elem_of_cons. split; [now left|]. split; [now symmetry|].
           apply (Hx r Hr).
        -- right. exists k. rewrite elem_of_cons. auto.
Qed.

Lemma deduplicateAttendance_unfold l :
  deduplicateAttendance tz l = dedupLoop tz ∅ (sortDesc l).
Proof.
  unfold deduplicateAttendance.
  apply sortDesc_fixed, dedupLoop_sorted, sortDesc_sorted.
Qed.

End DedupLoop.

(** C2: [deduplicateAttendance] is idempotent, in every time zone of the
    host.  Its output is in descending order of timestamp, holds each
    key (studentId, type, local time to the second) once, and represents
    every input entry by an entry of the same key that is at least as
    recent. *)
Theorem deduplicateAttendance_idempotent (tz : Z -> Z) (L : list AttendanceEntry) :
  deduplicateAttendance tz (deduplicateAttendance tz L) = deduplicateAttendance tz L
  /\ StronglySorted newerFirst (deduplicateAttendance tz L)
  /\ NoDup (map (dedupKey tz) (deduplicateAttendance tz L))
  /\ Forall (fun r => exists k, k ∈ deduplicateAttendance tz L
                                /\ dedupKey tz k = dedupKey tz r
                                /\ timestamp r <= timestamp k) L.
Proof.
  rewrite !deduplicateAttendance_unfold.
  assert (Hs : StronglySorted newerFirst (dedupLoop tz ∅ (sortDesc L)))
    by apply dedupLoop_sorted, sortDesc_sorted.
  repeat split.
  - rewrite (sortDesc_fixed _ Hs). apply dedupLoop_fixed, dedupLoop_fresh.
  - exact Hs.
  - apply dedupLoop_fresh.
  - apply Forall_forall. intros r Hr.
    destruct (dedupLoop_latest tz ∅ (sortDesc L) r (sortDesc_sorted L)) as [Hk|Hk].
    + now apply sortDesc_elem.
    + set_solver.
    + exact Hk.
Qed.

Example deduplicateAttendance_run :
  map id (deduplicateAttendance manila
            [entry "a" "S1" 1730505600123 CheckIn None;
             entry "b" "S1" 1730505600999 CheckIn None;
             entry "c" "S1" 1730505600999 CheckIn None;
             entry "d" "S2" 1730505600999 CheckOut None;
             entry "e" "S2" 1730505609999 CheckOut None])
  = ["e"; "b"; "d"].
Proof. vm_compute. reflexivity. Qed.

(** ** Flat fallback driver *)

Lemma LocalStorageDriver_load_pure st :
  exists env, LocalStorageDriver.load st = (Ok env, st).
Proof. unfold LocalStorageDriver.load. destruct (LocalStorageDriver.item st); eauto. Qed.

(** Whatever is saved, the blob written has no [fullSyncCompleted] key:
    the next [load] finds the flag absent. *)
Lemma LocalStorageDriver_save_forgets_flag data st st' :
  LocalStorageDriver.save data st = (Ok tt, st') ->
  exists env, LocalStorageDriver.load st' = (Ok env, st')
              /\ fullSyncCompleted env = None.
Proof.
  unfold LocalStorageDriver.save, bind.
  destruct (LocalStorageDriver_load_pure st) as [env ->].
  destruct (LocalStorageDriver.writable st); [|discriminate].
  intros [= <-]. eexists; split; reflexivity.
Qed.

(** C6 at a failing input: a store whose blob says
    [fullSyncCompleted = true] is saved an attendance list; the save
    succeeds, the stored students, attendance entries, documents and
    [lastSync] are still there, and the flag is gone. *)
Theorem localStorage_save_loses_fullSyncCompleted :
  exists before st' after,
    LocalStorageDriver.load bootstrappedStore = (Ok before, bootstrappedStore)
    /\ fullSyncCompleted before = Some true
    /\ LocalStorageDriver.save (onlyAttendance [scanPlaceholder]) bootstrappedStore
       = (Ok tt, st')
    /\ LocalStorageDriver.load st' = (Ok after, st')
    /\ students after = students before
    /\ attendanceRecords after = attendanceRecords before ++ [scanPlaceholder]
    /\ documents after = documents before
    /\ lastSync after = lastSync before
    /\ fullSyncCompleted after = None.
Proof. do 3 eexists. vm_compute. repeat split; reflexivity. Qed.

(** ** Storage manager *)

Lemma sameService_refl {W} (s : Sys W) : sameService s s.
Proof. split; reflexivity. Qed.

Lemma sameService_trans {W} (s1 s2 s3 : Sys W) :
  sameService s1 s2 -> sameService s2 s3 -> sameService s1 s3.
Proof. intros [? ?] [? ?]; split; congruence. Qed.

Section ManagerFrame.
Context {W : Type} `{!Host W} (drivers : list (Driver.t W)).

Lemma onDriver_frame {A} (op : Comp W A) (s : Sys W) :
  sameService s (StorageManager.onDriver op s).2.
Proof. unfold StorageManager.onDriver. destruct (op (world s)); split; reflexivity. Qed.

Lemma initLoop_frame ds i (s : Sys W) :
  sameService s (StorageManager.initLoop i ds s).2.
Proof.
  revert i s; induction ds as [|d ds IH]; intros i s; simpl.
  - apply sameService_refl.
  - destruct (Driver.isAvailable d (world s)); [|apply IH].
    pose proof (onDriver_frame (Driver.load d) s) as F.
    destruct (StorageManager.onDriver (Driver.load d) s) as [[env|e] s1]; simpl in *.
    + destruct (engineKeyAccess (world s1)); simpl; try exact F.
      eapply sameService_trans; [|apply IH]. exact F.
    + eapply sameService_trans; [exact F | apply IH].
Qed.

Lemma fallback_frame {A} (op : Driver.t W -> Comp W A) error ds i (s : Sys W) :
  sameService s (StorageManager.fallback op error i ds s).2.
Proof.
  revert i s; induction ds as [|d ds IH]; intros i s; simpl.
  - apply sameService_refl.
  - destruct (Driver.isAvailable d (world s)); [|apply IH].
    pose proof (onDriver_frame (op d) s) as F.
    destruct (StorageManager.onDriver (op d) s) as [[a|e] s1]; simpl in *.
    + exact F.
    + eapply sameService_trans; [exact F | apply IH].
Qed.

Lemma activeDriver_frame (s : Sys W) :
  sameService s (StorageManager.activeDriver drivers s).2.
Proof.
  unfold StorageManager.activeDriver, bind.
  assert (F : sameService s
                (match currentDriver (manager s) with
                 | Some _ => (Ok tt, s)
                 | None => StorageManager.init drivers s
                 end).2).
  { destruct (currentDriver (manager s)); [apply sameService_refl|].
    unfold StorageManager.init. destruct (initialized (manager s));
      [apply sameService_refl | apply initLoop_frame]. }
  destruct (match currentDriver (manager s) with
            | Some _ => _ | None => _ end) as [[[]|e] s1]; simpl in *; [|exact F].
  destruct (currentDriver (manager s1)) as [i|]; [|exact F].
  destruct (drivers !! i); exact F.
Qed.

Lemma load_frame (s : Sys W) : sameService s (StorageManager.load drivers s).2.
Proof.
  unfold StorageManager.load, bind, tryCatch.
  pose proof (activeDriver_frame s) as F.
  destruct (StorageManager.activeDriver drivers s) as [[[i d]|e] s1]; simpl in *; [|exact F].
  pose proof (onDriver_frame (Driver.load d) s1) as F1.
  destruct (StorageManager.onDriver (Driver.load d) s1) as [[env|e] s2]; simpl in *.
  - eapply sameService_trans; eassumption.
  - eapply sameService_trans; [exact F|].
    eapply sameService_trans; [exact F1 | apply fallback_frame].
Qed.

Lemma save_frame data (s : Sys W) :
  sameService s (StorageManager.save drivers data s).2.
Proof.
  unfold StorageManager.save, bind, tryCatch.
  pose proof (activeDriver_frame s) as F.
  destruct (StorageManager.activeDriver drivers s) as [[[i d]|e] s1]; simpl in *; [|exact F].
  pose proof (onDriver_frame (Driver.save d data) s1) as F1.
  destruct (StorageManager.onDriver (Driver.save d data) s1) as [[[]|e] s2]; simpl in *.
  - eapply sameService_trans; eassumption.
  - eapply sameService_trans; [exact F|].
    eapply sameService_trans; [exact F1 | apply fallback_frame].
Qed.

(** [getFromLocalStorage] always returns an envelope. *)
Lemma getFromLocalStorage_returns (s : Sys W) :
  exists env s', getFromLocalStorage drivers s = (Ok env, s') /\ sameService s s'.
Proof.
  unfold getFromLocalStorage, tryCatch.
  pose proof (load_frame s) as F.
  destruct (StorageManager.load drivers s) as [[env|e] s']; simpl in *; eauto.
Qed.

(** Once a driver is active, [clear] leaves it active, whatever the
    driver's own [clear] does. *)
Lemma clear_keeps_driver (s : Sys W) i :
  currentDriver (manager s) = Some i ->
  currentDriver (manager (StorageManager.clear drivers s).2) = Some i.
Proof.
  intros H. unfold StorageManager.clear, StorageManager.activeDriver, bind.
  rewrite H; simpl. rewrite H.
  destruct (drivers !! i) as [d|]; simpl; [|exact H].
  unfold StorageManager.onDriver. destruct (Driver.clear d (world s)); simpl. exact H.
Qed.

(** And an error of the active driver's [clear] is the manager's. *)
Lemma clear_propagates (s : Sys W) i d e w :
  currentDriver (manager s) = Some i -> drivers !! i = Some d ->
  Driver.clear d (world s) = (Throw e, w) ->
  StorageManager.clear drivers s = (Throw e, withWorld w s).
Proof.
  intros H Hd Hc. unfold StorageManager.clear, StorageManager.activeDriver, bind.
  rewrite H; simpl. rewrite H, Hd; simpl.
  unfold StorageManager.onDriver. now rewrite Hc.
Qed.

End ManagerFrame.

(** C7 at a failing input: the active driver's [clear] throws while the
    next driver is available and its [clear] would succeed.  The manager
    throws, keeps the failing driver active and leaves the second store
    as it was; [save], on the same system, walks on to the second driver
    and makes it the active one. *)
Theorem manager_clear_does_not_fall_back :
  StorageManager.getCurrentDriverName twoDrivers brokenFirstSys = Some IndexedDb
  /\ (exists d w, twoDrivers !! 1%nat = Some d
                  /\ Driver.isAvailable d brokenFirst = true
                  /\ Driver.clear d brokenFirst = (Ok tt, w))
  /\ StorageManager.clear twoDrivers brokenFirstSys
     = (Throw "SecurityError", brokenFirstSys)
  /\ (exists s', StorageManager.save twoDrivers (onlyAttendance [scanPlaceholder])
                   brokenFirstSys = (Ok tt, s')
                 /\ StorageManager.getCurrentDriverName twoDrivers s'
                    = Some LocalStorageName).
Proof.
  split; [reflexivity|]. split; [do 2 eexists; repeat split; reflexivity|].
  split; [reflexivity|]. eexists. split; reflexivity.
Qed.

(** C10: [getFromLocalStorage] never throws.  It returns what the
    manager's [load] returns; when that throws, it returns the empty
    envelope, in which [fullSyncCompleted] is absent. *)
Theorem getFromLocalStorage_total {W : Type} `{!Host W} (drivers : list (Driver.t W)) (s : Sys W) :
  (exists env s', getFromLocalStorage drivers s = (Ok env, s'))
  /\ match StorageManager.load drivers s with
     | (Ok env, s') => getFromLocalStorage drivers s = (Ok env, s')
     | (Throw _, s') =>
         getFromLocalStorage drivers s = (Ok emptyEnvelope, s')
         /\ students emptyEnvelope = [] /\ attendanceRecords emptyEnvelope = []
         /\ documents emptyEnvelope = [] /\ lastSync emptyEnvelope = None
         /\ fullSyncCompleted emptyEnvelope = None
     end.
Proof.
  split.
  - destruct (getFromLocalStorage_returns drivers s) as (env & s' & H & _); eauto.
  - unfold getFromLocalStorage, tryCatch.
    destruct (StorageManager.load drivers s) as [[env|e] s']; repeat split; reflexivity.
Qed.

(** A load that does throw: no driver is available. *)
Example getFromLocalStorage_no_driver :
  let s := freshSys {| LocalStorageDriver.present := false;
                       LocalStorageDriver.writable := true;
                       LocalStorageDriver.item := LocalStorageDriver.Blob bootstrappedBlob |} in
  StorageManager.load flatOnly s = (Throw "No storage driver available", s)
  /\ getFromLocalStorage flatOnly s = (Ok emptyEnvelope, s).
Proof. split; reflexivity. Qed.

(** ** Sync orchestrator *)

Section PullPass.
Context {W : Type} `{!Host W} (drivers : list (Driver.t W)) (tz utc : Z -> Z).

Lemma record_run (e : Event) (s : Sys W) :
  record e s = (Ok tt, {| manager := manager s; world := world s;
                          engineKey := engineKey s;
                          lastSyncTime := lastSyncTime s; trace := trace s ++ [e] |}).
Proof. reflexivity. Qed.

Lemma saveToLocalStorage_run data (s : Sys W) :
  exists r s', saveToLocalStorage drivers data s = (r, s')
               /\ trace s' = trace s ++ [EvSave data]
               /\ lastSyncTime s' = lastSyncTime s.
Proof.
  unfold saveToLocalStorage, bind, tryCatch, throw. rewrite record_run.
  match goal with |- context [StorageManager.save drivers data ?x] =>
    pose proof (save_frame drivers data x) as [Ft Fl];
    destruct (StorageManager.save drivers data x) as [[[]|e] s'] end;
    simpl in *; do 2 eexists; eauto.
Qed.

(** What one pull pass does, from the envelope it loads first. *)
Lemma syncSupabaseToLocal_run remote now (s : Sys W) localData s0 :
  getFromLocalStorage drivers s = (Ok localData, s0) ->
  let since := attendanceWindow tz utc now localData in
  exists s',
    syncSupabaseToLocal drivers tz utc remote now s = (Ok tt, s')
    /\ lastSyncTime s' = lastSyncTime s0
    /\ if fetchFailed (selectStudents remote) (selectAttendance remote since)
       then trace s' = trace s0 ++ [EvSelectStudents; EvSelectAttendance since]
            /\ world s' = world s0 /\ manager s' = manager s0
       else exists p,
           trace s' = trace s0 ++ [EvSelectStudents; EvSelectAttendance since; EvSave p]
           /\ p_fullSyncCompleted p = Some true
           /\ p_lastSync p = Some now.
Proof.
  intros H since. subst since. unfold attendanceWindow.
  unfold syncSupabaseToLocal, tryCatch, bind at 1. rewrite H.
  unfold bind at 1. rewrite record_run. unfold bind at 1. rewrite record_run. simpl.
  rewrite <- app_assoc. simpl.
  destruct (default false (fullSyncCompleted localData)); simpl;
    unfold bind, promiseAll;
    match goal with |- context [selectAttendance remote ?b] =>
      destruct (selectStudents remote) as [e1|[e1|] d1];
      destruct (selectAttendance remote b) as [e2|[e2|] d2] end;
    simpl; try (eexists; repeat split; reflexivity);
    match goal with |- context [saveToLocalStorage drivers ?p ?x] =>
      destruct (saveToLocalStorage_run p x) as ([[]|e] & s' & -> & Ht & Hl) end;
    simpl in *; eexists; (split; [reflexivity|]); (split; [exact Hl|]);
    eexists; (split; [rewrite Ht, <- app_assoc; reflexivity|]); split; reflexivity.
Qed.

(** When the fetch succeeds, the pass ends with its one save: the state
    it leaves is the one [saveToLocalStorage] leaves, whether the save
    throws or not. *)
Lemma syncSupabaseToLocal_store remote now (s : Sys W) localData s0 :
  getFromLocalStorage drivers s = (Ok localData, s0) ->
  let since := attendanceWindow tz utc now localData in
  fetchFailed (selectStudents remote) (selectAttendance remote since) = false ->
  exists p,
    p_fullSyncCompleted p = Some true
    /\ p_lastSync p = Some now
    /\ (syncSupabaseToLocal drivers tz utc remote now s).2
       = (saveToLocalStorage drivers p
            (record (EvSelectAttendance since) (record EvSelectStudents s0).2).2).2.
Proof.
  intros H since. subst since. unfold attendanceWindow.
  assert (G : forall m : Outcome unit * Sys W,
             (let '(o, s') := m in
              match o with
              | Ok a => (Ok a, s')
              | Throw _ => (Ok tt, s')
              end).2 = m.2)
    by (intros [[[]|?] ?]; reflexivity).
  unfold syncSupabaseToLocal, tryCatch, bind at 1. rewrite H.
  unfold bind at 1. rewrite record_run. unfold bind at 1. rewrite record_run.
  destruct (default false (fullSyncCompleted localData)); simpl;
    unfold bind, promiseAll;
    match goal with |- context [selectAttendance remote ?b] =>
      destruct (selectStudents remote) as [e1|[e1|] d1];
      destruct (selectAttendance remote b) as [e2|[e2|] d2] end;
    simpl; try discriminate; intros _;
    eexists; (split; [|split]); cycle 2;
    try (match goal with |- context [saveToLocalStorage drivers ?p ?x] =>
           exact (G (saveToLocalStorage drivers p x)) end);
    reflexivity.
Qed.

(** With drivers whose [load] is read-only, loading through the
    manager leaves the stores as they are. *)
Section ReadOnly.
Hypothesis RO : loadsReadOnly drivers.

Lemma onDriver_load_world d (s : Sys W) :
  d ∈ drivers -> world (StorageManager.onDriver (Driver.load d) s).2 = world s.
Proof.
  intros Hd. unfold loadsReadOnly in RO. rewrite Forall_forall in RO.
  specialize (RO d Hd (world s)). unfold StorageManager.onDriver.
  destruct (Driver.load d (world s)); simpl in *. exact RO.
Qed.

Lemma initLoop_world ds i (s : Sys W) :
  ds ⊆ drivers -> world (StorageManager.initLoop i ds s).2 = world s.
Proof.
  revert i s; induction ds as [|d ds IH]; intros i s Hsub; simpl; [reflexivity|].
  assert (Hd : d ∈ drivers) by (apply Hsub; left).
  assert (Hds : ds ⊆ drivers) by (intros x Hx; apply Hsub; now right).
  destruct (Driver.isAvailable d (world s)); [|now apply IH].
  pose proof (onDriver_load_world d s Hd) as F.
  destruct (StorageManager.onDriver (Driver.load d) s) as [[env|e] s1]; simpl in *.
  - destruct (engineKeyAccess (world s1)); simpl; try exact F.
    rewrite IH; assumption.
  - rewrite IH; assumption.
Qed.

Lemma fallback_load_world error ds i (s : Sys W) :
  ds ⊆ drivers ->
  world (StorageManager.fallback Driver.load error i ds s).2 = world s.
Proof.
  revert i s; induction ds as [|d ds IH]; intros i s Hsub; simpl; [reflexivity|].
  assert (Hd : d ∈ drivers) by (apply Hsub; left).
  assert (Hds : ds ⊆ drivers) by (intros x Hx; apply Hsub; now right).
  destruct (Driver.isAvailable d (world s)); [|now apply IH].
  pose proof (onDriver_load_world d s Hd) as F.
  destruct (StorageManager.onDriver (Driver.load d) s) as [[env|e] s1]; simpl in *.
  - exact F.
  - rewrite IH; assumption.
Qed.

Lemma activeDriver_world (s : Sys W) :
  world (StorageManager.activeDriver drivers s).2 = world s
  /\ forall i d s1, StorageManager.activeDriver drivers s = (Ok (i, d), s1) ->
                    drivers !! i = Some d.
Proof.
  unfold StorageManager.activeDriver, bind.
  assert (F : world (match currentDriver (manager s) with
                     | Some _ => (Ok tt, s)
                     | None => StorageManager.init drivers s
                     end).2 = world s).
  { destruct (currentDriver (manager s)); [reflexivity|].
    unfold StorageManager.init. destruct (initialized (manager s)); [reflexivity|].
    now apply initLoop_world. }
  destruct (match currentDriver (manager s) with
            | Some _ => _ | None => _ end) as [[[]|e] s1]; simpl in *;
    [|split; [exact F | discriminate]].
  destruct (currentDriver (manager s1)) as [i|]; [|split; [exact F | discriminate]].
  destruct (drivers !! i) as [d|] eqn:Hd; (split; [exact F|]); [|discriminate].
  now intros ? ? ? [= <- <- <-].
Qed.

Lemma load_world (s : Sys W) : world (StorageManager.load drivers s).2 = world s.
Proof.
  unfold StorageManager.load, bind, tryCatch.
  destruct (activeDriver_world s) as [F Hi].
  destruct (StorageManager.activeDriver drivers s) as [[[i d]|e] s1]; simpl in *;
    [|exact F].
  specialize (Hi i d s1 eq_refl).
  assert (Hd : d ∈ drivers) by (eapply list_elem_of_lookup_2; exact Hi).
  pose proof (onDriver_load_world d s1 Hd) as F1.
  destruct (StorageManager.onDriver (Driver.load d) s1) as [[env|e] s2]; simpl in *.
  - congruence.
  - rewrite fallback_load_world; [congruence|].
    intros x Hx. eapply subseteq_drop; exact Hx.
Qed.

Lemma getFromLocalStorage_world (s : Sys W) :
  world (getFromLocalStorage drivers s).2 = world s.
Proof.
  unfold getFromLocalStorage, tryCatch. pose proof (load_world s) as F.
  destruct (StorageManager.load drivers s) as [[env|e] s']; exact F.
Qed.
End ReadOnly.

End PullPass.

(** C3: when the fetch of a pull pass fails, the pass returns without
    throwing, calls [saveToLocalStorage] not once, and leaves
    [lastSyncTime] alone; with drivers whose [load] only reads, the
    stores, and with them the persisted envelope, are those from before
    the pass. *)
Theorem pull_pass_failure_is_silent {W : Type} `{!Host W} (drivers : list (Driver.t W))
    (tz utc : Z -> Z) (remote : PullRemote) (now : Z) (s s0 : Sys W)
    (localData : OfflineData) :
  getFromLocalStorage drivers s = (Ok localData, s0) ->
  fetchFailed (selectStudents remote)
    (selectAttendance remote (attendanceWindow tz utc now localData)) = true ->
  loadsReadOnly drivers ->
  exists s',
    syncSupabaseToLocal drivers tz utc remote now s = (Ok tt, s')
    /\ world s' = world s
    /\ List.filter isSave (trace s') = List.filter isSave (trace s)
    /\ lastSyncTime s' = lastSyncTime s.
Proof.
  intros H Hf RO.
  destruct (syncSupabaseToLocal_run drivers tz utc remote now s localData s0 H)
    as (s' & Hrun & Hl & Hcase).
  rewrite Hf in Hcase. destruct Hcase as (Ht & Hw & _).
  destruct (getFromLocalStorage_returns drivers s) as (env & s1 & H1 & Ftr & Fl).
  rewrite H in H1. injection H1 as <- <-.
  pose proof (getFromLocalStorage_world drivers RO s) as Hw0. rewrite H in Hw0. simpl in Hw0.
  exists s'. split; [exact Hrun|]. split; [congruence|]. split; [|congruence].
  rewrite Ht, Ftr, List.filter_app. simpl. now rewrite app_nil_r.
Qed.

Lemma flatOnly_loadsReadOnly : loadsReadOnly flatOnly.
Proof.
  repeat constructor. intros w. simpl. unfold liftComp.
  destruct (LocalStorageDriver_load_pure w) as [env ->]. reflexivity.
Defined.

Lemma pull_pass_failure_is_silent_witness :
  exists s',
    syncSupabaseToLocal flatOnly manila manilaUTC unreachable 1730505700000
      (freshSys bootstrappedStore) = (Ok tt, s')
    /\ world s' = bootstrappedStore
    /\ trace s' = [EvSelectStudents; EvSelectAttendance (Some 1727913700000)].
Proof.
  destruct (@pull_pass_failure_is_silent _ Store_Host flatOnly manila manilaUTC unreachable
              1730505700000 (freshSys bootstrappedStore) _ _ eq_refl eq_refl
              flatOnly_loadsReadOnly)
    as (s' & H & Hw & _).
  exists s'. split; [exact H|]. split; [exact Hw|].
  vm_compute in H. now injection H as <-.
Defined.

(** The requests of a pull pass, on any drivers: it asks the backend for
    the whole student table and for
    attendance; the attendance query has no lower bound on the timestamp
    when the envelope loaded has [fullSyncCompleted] unset (absent or
    false), and the bound "30 days ago" when it is set.  When the fetch
    succeeds the pass calls [saveToLocalStorage] once, with
    [fullSyncCompleted: true] and the time of the pass as [lastSync];
    when it fails it saves nothing. *)
Theorem pull_pass_window {W : Type} `{!Host W} (drivers : list (Driver.t W))
    (tz utc : Z -> Z) (remote : PullRemote) (now : Z) (s : Sys W) :
  exists localData s0 s' since saves,
    getFromLocalStorage drivers s = (Ok localData, s0)
    /\ syncSupabaseToLocal drivers tz utc remote now s = (Ok tt, s')
    /\ trace s' = trace s ++ [EvSelectStudents; EvSelectAttendance since] ++ saves
    /\ match fullSyncCompleted localData with
       | Some true => since = Some (daysAgo tz utc 30 now)
       | Some false | None => since = None
       end
    /\ if fetchFailed (selectStudents remote) (selectAttendance remote since)
       then saves = []
       else exists p, saves = [EvSave p]
                      /\ p_fullSyncCompleted p = Some true
                      /\ p_lastSync p = Some now.
Proof.
  destruct (getFromLocalStorage_returns drivers s) as (localData & s0 & H & Ftr & _).
  destruct (syncSupabaseToLocal_run drivers tz utc remote now s localData s0 H)
    as (s' & Hrun & _ & Hcase).
  exists localData, s0, s', (attendanceWindow tz utc now localData).
  destruct (fetchFailed _ _).
  - exists []. destruct Hcase as (Ht & _). rewrite Ftr in Ht.
    repeat split; try assumption.
    unfold attendanceWindow; now destruct (fullSyncCompleted localData) as [[]|].
  - destruct Hcase as (p & Ht & Hp). rewrite Ftr in Ht. exists [EvSave p].
    repeat split; try assumption; [|eauto].
    unfold attendanceWindow; now destruct (fullSyncCompleted localData) as [[]|].
Qed.

(** After a load that threw, the envelope is the empty one and the pull
    pass asks for the whole attendance history. *)
Lemma failed_load_full_download {W : Type} `{!Host W} (drivers : list (Driver.t W))
    (tz utc : Z -> Z) (remote : PullRemote) (now : Z) (s s0 : Sys W) (e : string) :
  StorageManager.load drivers s = (Throw e, s0) ->
  exists s' saves,
    syncSupabaseToLocal drivers tz utc remote now s = (Ok tt, s')
    /\ trace s' = trace s ++ [EvSelectStudents; EvSelectAttendance None] ++ saves.
Proof.
  intros H.
  assert (H0 : getFromLocalStorage drivers s = (Ok emptyEnvelope, s0))
    by (unfold getFromLocalStorage, tryCatch; now rewrite H).
  destruct (getFromLocalStorage_returns drivers s) as (env & s1 & H1 & Ftr & _).
  rewrite H0 in H1. injection H1 as <- <-.
  destruct (syncSupabaseToLocal_run drivers tz utc remote now s emptyEnvelope s0 H0)
    as (s' & Hrun & _ & Hcase).
  assert (Hw : attendanceWindow tz utc now emptyEnvelope = None) by reflexivity.
  rewrite Hw in Hcase. exists s'.
  destruct (fetchFailed (selectStudents remote) (selectAttendance remote None)).
  - exists []. destruct Hcase as (Ht & _). rewrite Ftr in Ht. split; [exact Hrun | exact Ht].
  - destruct Hcase as (p0 & Ht & _). exists [EvSave p0]. rewrite Ftr in Ht.
    split; [exact Hrun | exact Ht].
Qed.

(** In a zone without daylight saving the bound is 30 times 24 hours
    before the pass. *)
Lemma daysAgo_manila now : daysAgo manila manilaUTC 30 now = now - 30 * 86400000.
Proof. unfold daysAgo, manila, manilaUTC, msPerDay. lia. Qed.

Example pull_pass_first_sync :
  (syncSupabaseToLocal flatOnly manila manilaUTC unreachable 1730505700000
     (freshSys {| LocalStorageDriver.present := true;
                  LocalStorageDriver.writable := true;
                  LocalStorageDriver.item := LocalStorageDriver.Absent |})).2.(trace)
  = [EvSelectStudents; EvSelectAttendance None].
Proof. reflexivity. Qed.

(** The flat driver under the manager, once it is the active driver. *)
Lemma flat_getFromLocalStorage (s : Sys LocalStorageDriver.Store) localData :
  currentDriver (manager s) = Some 0%nat ->
  LocalStorageDriver.load (world s) = (Ok localData, world s) ->
  getFromLocalStorage flatOnly s = (Ok localData, s).
Proof.
  intros Hc Hl.
  unfold getFromLocalStorage, tryCatch, StorageManager.load, StorageManager.activeDriver,
    bind.
  rewrite Hc. simpl. rewrite Hc. simpl.
  unfold tryCatch, StorageManager.onDriver, liftComp. rewrite Hl. now destruct s.
Qed.

Lemma flat_saveToLocalStorage data (s : Sys LocalStorageDriver.Store) st' :
  currentDriver (manager s) = Some 0%nat ->
  LocalStorageDriver.save data (world s) = (Ok tt, st') ->
  saveToLocalStorage flatOnly data s
  = (Ok tt, withWorld st' (record (EvSave data) s).2).
Proof.
  intros Hc Hs.
  unfold saveToLocalStorage, tryCatch, StorageManager.save, StorageManager.activeDriver,
    bind.
  simpl. rewrite Hc. simpl. rewrite Hc. simpl.
  unfold tryCatch, StorageManager.onDriver, liftComp.
  cbn [world]. rewrite Hs. reflexivity.
Qed.

(** C4 at the failing configuration: the flat driver is the active one
    (a browser without IndexedDB).  A pull pass whose fetch succeeds
    asks for what the claim says and hands [save] an envelope with
    [fullSyncCompleted: true]; the save succeeds and stores the time of
    the pass as [lastSync]; yet the envelope then in the store has no
    [fullSyncCompleted], so that every later pull pass asks for the
    whole attendance history again and the 30-day window is never
    used. *)
Theorem pull_pass_flag_not_persisted (tz utc : Z -> Z) (remote : PullRemote) (now : Z)
    (s : Sys LocalStorageDriver.Store) (localData : OfflineData) :
  currentDriver (manager s) = Some 0%nat ->
  LocalStorageDriver.writable (world s) = true ->
  LocalStorageDriver.load (world s) = (Ok localData, world s) ->
  fetchFailed (selectStudents remote)
    (selectAttendance remote (attendanceWindow tz utc now localData)) = false ->
  exists s' p after,
    syncSupabaseToLocal flatOnly tz utc remote now s = (Ok tt, s')
    /\ trace s'
       = trace s ++ [EvSelectStudents;
                     EvSelectAttendance (attendanceWindow tz utc now localData);
                     EvSave p]
    /\ p_fullSyncCompleted p = Some true
    /\ LocalStorageDriver.save p (world s) = (Ok tt, world s')
    /\ LocalStorageDriver.load (world s') = (Ok after, world s')
    /\ lastSync after = Some now
    /\ fullSyncCompleted after = None
    /\ forall remote' now', exists s'' saves,
         syncSupabaseToLocal flatOnly tz utc remote' now' s' = (Ok tt, s'')
         /\ trace s''
            = trace s' ++ [EvSelectStudents; EvSelectAttendance None] ++ saves.
Proof.
  intros Hc Hw Hl Hf.
  pose proof (flat_getFromLocalStorage s localData Hc Hl) as Hload.
  destruct (syncSupabaseToLocal_run flatOnly tz utc remote now s localData s Hload)
    as (s' & Hrun & _ & Hcase).
  rewrite Hf in Hcase. destruct Hcase as (p' & Ht' & _).
  destruct (syncSupabaseToLocal_store flatOnly tz utc remote now s localData s Hload Hf)
    as (p & Hp1 & Hp2 & Hst).
  rewrite Hrun in Hst. simpl in Hst.
  assert (Hsave : exists st',
             LocalStorageDriver.save p (world s) = (Ok tt, st')
             /\ exists after,
                 LocalStorageDriver.load st' = (Ok after, st')
                 /\ lastSync after
                    = LocalStorageDriver.orElse (p_lastSync p) (lastSync localData)
                 /\ fullSyncCompleted after = None).
  { unfold LocalStorageDriver.save, bind. rewrite Hl, Hw.
    eexists; split; [reflexivity|]. eexists; split; [reflexivity|]. split; reflexivity. }
  destruct Hsave as (st' & Hsave & after & Hafter & Hlast & Hflag).
  match type of Hst with context [saveToLocalStorage flatOnly p ?x] =>
    rewrite (flat_saveToLocalStorage p x st' Hc Hsave) in Hst end.
  simpl in Hst.
  assert (Hw' : world s' = st') by (now rewrite Hst).
  exists s', p, after.
  split; [exact Hrun|].
  split; [rewrite Hst; simpl; now rewrite <- !app_assoc|].
  split; [exact Hp1|].
  split; [rewrite Hw'; exact Hsave|].
  split; [rewrite Hw'; exact Hafter|].
  split; [rewrite Hlast, Hp2; reflexivity|].
  split; [exact Hflag|].
  intros remote' now'.
  assert (Hc' : currentDriver (manager s') = Some 0%nat) by (rewrite Hst; exact Hc).
  assert (Hl' : LocalStorageDriver.load (world s') = (Ok after, world s'))
    by (rewrite Hw'; exact Hafter).
  pose proof (flat_getFromLocalStorage s' after Hc' Hl') as Hload'.
  destruct (syncSupabaseToLocal_run flatOnly tz utc remote' now' s' after s' Hload')
    as (s'' & Hrun' & _ & Hcase').
  assert (Hwin : attendanceWindow tz utc now' after = None)
    by (unfold attendanceWindow; now rewrite Hflag).
  rewrite Hwin in Hcase'. exists s''.
  destruct (fetchFailed (selectStudents remote') (selectAttendance remote' None)).
  - exists []. destruct Hcase' as (Ht & _). split; [exact Hrun' | exact Ht].
  - destruct Hcase' as (q & Ht & _). exists [EvSave q]. split; [exact Hrun' | exact Ht].
Qed.

Lemma pull_pass_flag_not_persisted_witness :
  let first := syncSupabaseToLocal flatOnly manila manilaUTC reachable 1730505700000
                 startedOnFlat in
  let second := syncSupabaseToLocal flatOnly manila manilaUTC reachable 1730505760000
                  first.2 in
  fullSyncCompleted <$> (getFromLocalStorage flatOnly first.2).1 = Ok None
  /\ lastSync <$> (getFromLocalStorage flatOnly first.2).1 = Ok (Some 1730505700000)
  /\ take 2 (drop 3 (trace second.2)) = [EvSelectStudents; EvSelectAttendance None].
Proof.
  destruct (pull_pass_flag_not_persisted manila manilaUTC reachable 1730505700000
              startedOnFlat emptyEnvelope eq_refl eq_refl eq_refl eq_refl)
    as (s' & p & after & H1 & H2 & _ & _ & H5 & H6 & H7 & H8).
  destruct (H8 reachable 1730505760000) as (s'' & saves & H9 & H10).
  cbv zeta. rewrite H1. simpl snd. rewrite H9. simpl snd.
  assert (Hc : currentDriver (manager s') = Some 0%nat)
    by (vm_compute in H1; now injection H1 as <-).
  rewrite (flat_getFromLocalStorage s' after Hc H5). simpl.
  rewrite H6, H7, H10, H2. repeat split; reflexivity.
Defined.

Section Throttle.
Context {W : Type} `{!Host W} (drivers : list (Driver.t W)) (tz utc : Z -> Z).
Context (syncLocalToSupabase : Z -> Comp (Sys W) unit).

(** A call without the force flag inside the spacing does nothing. *)
Lemma performSync_throttled remote now (s : Sys W) :
  now - lastSyncTime s < MIN_SYNC_INTERVAL ->
  performSync drivers tz utc syncLocalToSupabase remote now false s = (Ok tt, s).
Proof.
  intros H. unfold performSync. simpl.
  destruct (Z.ltb_spec (now - lastSyncTime s) MIN_SYNC_INTERVAL); [reflexivity | lia].
Qed.

(** [forceSync] is such a call. *)
Lemma forceSync_throttled remote now (s : Sys W) :
  now - lastSyncTime s < MIN_SYNC_INTERVAL ->
  forceSync drivers tz utc syncLocalToSupabase remote now s = (Ok tt, s).
Proof. apply performSync_throttled. Qed.

(** A call with the force flag starts a cycle at any time, and so does
    any call once the spacing has passed; a cycle never throws. *)
Lemma performSync_runs remote now force (s : Sys W) :
  force = true \/ MIN_SYNC_INTERVAL <= now - lastSyncTime s ->
  performSync drivers tz utc syncLocalToSupabase remote now force s
  = ((Ok tt),
     (tryCatch
        (_ <- getFromLocalStorage drivers ;;
         syncLocalToSupabase now ;;;
         syncSupabaseToLocal drivers tz utc remote now)
        (fun _ => ret tt) (withLastSyncTime now s)).2).
Proof.
  intros H. unfold performSync.
  assert (negb force && (now - lastSyncTime s <? MIN_SYNC_INTERVAL) = false) as ->.
  { destruct H as [->|H]; [reflexivity|].
    destruct (Z.ltb_spec (now - lastSyncTime s) MIN_SYNC_INTERVAL); [lia|].
    apply andb_false_r. }
  unfold tryCatch.
  destruct (bind _ _ _) as [[[]|e] s']; reflexivity.
Qed.

End Throttle.

(** C5 at a failing input: ten seconds after the last cycle began,
    [forceSync] returns with the system untouched: no load, no request,
    no new [lastSyncTime].  The forced call the timer makes on an online
    transition, [performSync(true)], runs a cycle from the same state:
    it sets [lastSyncTime] and queries the backend. *)
Theorem forceSync_is_throttled :
  1730505610000 - lastSyncTime tenSecondsAfter < MIN_SYNC_INTERVAL
  /\ forceSync flatOnly manila manilaUTC nothingToPush reachable 1730505610000 tenSecondsAfter
     = (Ok tt, tenSecondsAfter)
  /\ exists s',
       performSync flatOnly manila manilaUTC nothingToPush reachable 1730505610000 true
         tenSecondsAfter = (Ok tt, s')
       /\ lastSyncTime s' = 1730505610000
       /\ take 2 (trace s')
          = [EvSelectStudents; EvSelectAttendance (Some (1730505610000 - 30 * 86400000))].
Proof.
  split; [reflexivity|]. split; [reflexivity|].
  eexists. split; [reflexivity|]. split; reflexivity.
Qed.

(** ** Realtime ingestor *)

Lemma findIndex_Some {A} (p : A -> bool) l i :
  findIndex p l = Some i ->
  exists x, l !! i = Some x /\ p x = true
            /\ forall j y, (j < i)%nat -> l !! j = Some y -> p y = false.
Proof.
  revert i; induction l as [|a l IH]; intros i; simpl; [discriminate|].
  destruct (p a) eqn:Pa.
  - intros [= <-]. exists a. repeat split; trivial. intros j y Hj; lia.
  - destruct (findIndex p l) as [k|]; [|discriminate]. intros [= <-].
    destruct (IH k eq_refl) as (x & Hx & Px & Hlt).
    exists x. repeat split; trivial.
    intros [|j] y Hj; simpl; [now intros [= <-] | apply Hlt; lia].
Qed.

Lemma findIndex_None {A} (p : A -> bool) l :
  findIndex p l = None -> Forall (fun x => p x = false) l.
Proof.
  induction l as [|a l IH]; simpl; [constructor|].
  destruct (p a) eqn:Pa; [discriminate|].
  destruct (findIndex p l); [discriminate|]. intros _. constructor; auto.
Qed.


Lemma dedupeStep_length out rec :
  (length (dedupeStep out rec) <= S (length out))%nat.
Proof.
  unfold dedupeStep. destruct (findIndex _ out) as [idx|].
  - destruct (out !! idx); [rewrite length_insert|]; lia.
  - rewrite length_app; simpl; lia.
Qed.

Lemma dedupe_fold_length l out :
  (length (fold_left dedupeStep l out) <= length out + length l)%nat.
Proof.
  revert out; induction l as [|r l IH]; intros out; simpl; [lia|].
  specialize (IH (dedupeStep out r)). pose proof (dedupeStep_length out r). lia.
Qed.

(** The safety net never lengthens a list. *)
Lemma dedupeList_length l : (length (dedupeList l) <= length l)%nat.
Proof. unfold dedupeList. pose proof (dedupe_fold_length l []). simpl in *. lia. Qed.






Example realtime_insert_run :
  (processAttendanceChange (INSERT scanRemote) [scanPlaceholder]).2 = [scanRemote]
  /\ (processAttendanceChange (INSERT scanRemote) [scanRemote]).2 = [scanRemote]
  /\ (processAttendanceChange (INSERT scanRemote) []).2 = [scanRemote].
Proof. repeat split; reflexivity. Qed.

(** ** Attendance service *)






Section Cooldown.
Context {W : Type} `{!Host W} (drivers : list (Driver.t W)).





End Cooldown.




(** Ten seconds after the stored check-in the scan is refused, with 4
    minutes 50 seconds to wait, and the store is untouched; 300 seconds
    after it the scan is accepted and a later load finds it. *)
Example addAttendanceRecord_run :
  addAttendanceRecord flatOnly offline 1730505611000 "k3j9x0q2a"
    (nextScan 1730505611000) (freshSys bootstrappedStore)
  = (Throw "COOLDOWN:4:50",
     {| manager := {| currentDriver := Some 0%nat; initialized := true |};
        world := bootstrappedStore; engineKey := Some LocalStorageName;
        lastSyncTime := 0; trace := [] |})
  /\ let stored := withId (nextScan 1730505901000) "local_1730505901000_k3j9x0q2a" in
     let run := addAttendanceRecord flatOnly offline 1730505901000 "k3j9x0q2a"
                  (nextScan 1730505901000) (freshSys bootstrappedStore) in
     run.1 = Ok stored
     /\ trace run.2 = [EvSave (onlyAttendance [scanRemote; stored])]
     /\ attendanceRecords <$> (getFromLocalStorage flatOnly run.2).1
        = Ok [scanRemote; stored].
Proof. vm_compute. repeat split; reflexivity. Qed.

(** * Further properties *)

(** ** Merge engine *)

Lemma sameEvent_eventKey c rec : sameEvent c rec = true -> eventKey c = eventKey rec.
Proof.
  unfold sameEvent, eventKey. intros H.
  apply andb_true_iff in H as [H _]. apply andb_true_iff in H as [Hs Hd].
  apply String.eqb_eq in Hs. f_equal; [exact Hs|].
  now destruct (type c), (type rec).
Qed.

Lemma pickBetter_cases a b : pickBetter a b = a \/ pickBetter a b = b.
Proof.
  unfold pickBetter.
  repeat match goal with |- context [if ?c then _ else _] => destruct c end; auto.
Qed.

(** X1: [pickBetter] returns one of its two arguments, and the one it
    returns has a non-empty course whenever either of them has: merging
    never loses the enrichment. *)
Theorem pickBetter_keeps_course (a b : AttendanceEntry) :
  (pickBetter a b = a \/ pickBetter a b = b)
  /\ truthy (course (pickBetter a b)) = truthy (course a) || truthy (course b).
Proof.
  split; [apply pickBetter_cases|].
  unfold pickBetter.
  destruct (truthy (course a)) eqn:Ca, (truthy (course b)) eqn:Cb; simpl;
    repeat match goal with |- context [if ?c then _ else _] => destruct c end;
    congruence.
Qed.

Lemma dedupeStep_elem out rec x :
  x ∈ dedupeStep out rec -> x ∈ out \/ x = rec.
Proof.
  unfold dedupeStep. destruct (findIndex _ out) as [idx|] eqn:Hi.
  - destruct (out !! idx) as [existing|] eqn:He; [|auto].
    intros Hx. apply list_elem_of_lookup in Hx as [j Hj].
    destruct (decide (idx = j)) as [<-|Hne].
    + rewrite list_lookup_insert_eq in Hj by (eapply lookup_lt_Some; exact He).
      injection Hj as <-.
      destruct (pickBetter_cases existing rec) as [-> | ->]; [left | now right].
      eapply list_elem_of_lookup_2; exact He.
    + rewrite list_lookup_insert_ne in Hj by exact Hne.
      left. eapply list_elem_of_lookup_2; exact Hj.
  - rewrite elem_of_app, list_elem_of_singleton. tauto.
Qed.

Lemma dedupeStep_key_kept out rec :
  eventKey rec ∈ map eventKey (dedupeStep out rec)
  /\ forall k, k ∈ map eventKey out -> k ∈ map eventKey (dedupeStep out rec).
Proof.
  unfold dedupeStep. destruct (findIndex _ out) as [idx|] eqn:Hi.
  - destruct (findIndex_Some _ _ _ Hi) as (existing & He & Hs & _). rewrite He.
    simpl in Hs.
    assert (E : map eventKey (<[idx := pickBetter existing rec]> out) = map eventKey out).
    { rewrite list_fmap_insert.
      apply list_insert_id. rewrite list_lookup_fmap, He. simpl. f_equal.
      destruct (pickBetter_cases existing rec) as [-> | ->]; [reflexivity|].
      now apply sameEvent_eventKey. }
    rewrite E. split; [|auto].
    rewrite <- (sameEvent_eventKey _ _ Hs).
    apply list_elem_of_fmap. exists existing. split; [reflexivity|].
    eapply list_elem_of_lookup_2; exact He.
  - rewrite map_app. split.
    + apply elem_of_app. right. simpl. apply list_elem_of_singleton. reflexivity.
    + intros k Hk. apply elem_of_app. now left.
Qed.

Lemma dedupe_fold_elem l out x :
  x ∈ fold_left dedupeStep l out -> x ∈ out \/ x ∈ l.
Proof.
  revert out; induction l as [|r l IH]; intros out; simpl; [auto|].
  intros Hx. apply IH in Hx as [Hx|Hx].
  - apply dedupeStep_elem in Hx as [Hx| ->]; [now left | right; left].
  - right. now right.
Qed.

Lemma dedupe_fold_keys l out k :
  k ∈ map eventKey out \/ k ∈ map eventKey l ->
  k ∈ map eventKey (fold_left dedupeStep l out).
Proof.
  revert out; induction l as [|r l IH]; intros out; simpl.
  - intros [H|H]; [exact H | inversion H].
  - intros H. apply IH.
    destruct (dedupeStep_key_kept out r) as [Hr Hout].
    destruct H as [H|H]; [left; now apply Hout|].
    apply elem_of_cons in H as [-> | H]; [now left | now right].
Qed.

(** X2: the fuzzy merge invents nothing and loses nobody: every entry of
    its output is an entry of its input, and every student and direction
    present in the input is still present in the output. *)
Theorem dedupeList_provenance (l : list AttendanceEntry) :
  Forall (fun x => x ∈ l) (dedupeList l)
  /\ Forall (fun x => exists y, y ∈ dedupeList l
                                /\ studentId y = studentId x /\ type y = type x) l.
Proof.
  split.
  - apply Forall_forall. intros x Hx. unfold dedupeList in Hx.
    apply dedupe_fold_elem in Hx as [Hx|Hx]; [inversion Hx | exact Hx].
  - apply Forall_forall. intros x Hx.
    assert (Hk : eventKey x ∈ map eventKey (dedupeList l)).
    { apply dedupe_fold_keys. right. apply list_elem_of_fmap. eauto. }
    apply list_elem_of_fmap in Hk as (y & Hy & Hin).
    exists y. split; [exact Hin|]. unfold eventKey in Hy.
    injection Hy as Hs Ht. auto.
Qed.

Lemma dedupe_fold_disjoint l out :
  Forall (fun c => Forall (fun r => sameEvent c r = false) l) out ->
  noFuzzyPair l = true ->
  fold_left dedupeStep l out = out ++ l.
Proof.
  revert out; induction l as [|r l IH]; intros out Hout Hl; simpl.
  - now rewrite app_nil_r.
  - simpl in Hl. apply andb_true_iff in Hl as [Hr Hl].
    assert (Hstep : dedupeStep out r = out ++ [r]).
    { unfold dedupeStep.
      destruct (findIndex (fun c => sameEvent c r) out) as [idx|] eqn:Hi; [|reflexivity].
      destruct (findIndex_Some _ _ _ Hi) as (c & Hc & Hs & _).
      rewrite Forall_forall in Hout.
      assert (Hin : c ∈ out) by (eapply list_elem_of_lookup_2; exact Hc).
      specialize (Hout c Hin). apply Forall_cons in Hout as [Hcr _]. congruence. }
    rewrite Hstep, IH, <- app_assoc; [reflexivity| |exact Hl].
    apply Forall_app. split.
    + eapply Forall_impl; [exact Hout|]. intros c Hc. simpl in Hc.
      now apply Forall_cons in Hc as [_ Hc].
    + constructor; [|constructor].
      apply Forall_forall. intros x Hx.
      rewrite forallb_forall in Hr. apply list_elem_of_In in Hx.
      apply negb_true_iff. now apply Hr.
Qed.

(** X3: a list in which no entry is the same event as a later one (same
    student, same direction, at most ten seconds apart) passes through
    the fuzzy merge unchanged, in content and in order. *)
Theorem dedupeList_fixed_point (l : list AttendanceEntry) :
  noFuzzyPair l = true -> dedupeList l = l.
Proof.
  intros H. unfold dedupeList. now rewrite dedupe_fold_disjoint.
Qed.

Lemma dedupeList_fixed_point_witness :
  dedupeList [scanRemote; scanLater] = [scanRemote; scanLater].
Proof. apply (dedupeList_fixed_point [scanRemote; scanLater]). reflexivity. Defined.

(** ** Exact-key deduplication *)

Lemma insertDesc_perm x l : insertDesc x l ≡ₚ x :: l.
Proof.
  induction l as [|y l IH]; simpl; [reflexivity|].
  destruct (timestamp y <=? timestamp x); [reflexivity|].
  rewrite IH. apply Permutation_swap.
Qed.

Lemma sortDesc_perm l : sortDesc l ≡ₚ l.
Proof.
  induction l as [|x l IH]; simpl; [reflexivity|].
  rewrite insertDesc_perm. now rewrite IH.
Qed.

Lemma dedupLoop_sublist tz seen l : dedupLoop tz seen l `sublist_of` l.
Proof.
  revert seen; induction l as [|x l IH]; intros seen; simpl; [constructor|].
  destruct (decide (dedupKey tz x ∈ seen)).
  - apply sublist_cons, IH.
  - apply sublist_skip, IH.
Qed.

(** X4: exact-key deduplication only removes: its output is, up to the
    order, a sub-list of its input, so every entry returned was given
    and the output is no longer than the input. *)
Theorem deduplicateAttendance_only_removes (tz : Z -> Z) (L : list AttendanceEntry) :
  deduplicateAttendance tz L ⊆+ L
  /\ Forall (fun x => x ∈ L) (deduplicateAttendance tz L)
  /\ (length (deduplicateAttendance tz L) <= length L)%nat.
Proof.
  assert (H : deduplicateAttendance tz L ⊆+ L).
  { rewrite deduplicateAttendance_unfold.
    rewrite <- (sortDesc_perm L) at 2.
    apply sublist_submseteq, dedupLoop_sublist. }
  split; [exact H|]. split.
  - apply Forall_forall. intros x Hx. eapply elem_of_submseteq; eassumption.
  - now apply submseteq_length.
Qed.

(** X5: when no two entries share a key (student, direction, local time
    to the second) nothing is removed: the output is the input sorted by
    descending timestamp, entries of equal timestamp in their original
    order. *)
Theorem deduplicateAttendance_distinct_keys (tz : Z -> Z) (L : list AttendanceEntry) :
  NoDup (map (dedupKey tz) L) ->
  deduplicateAttendance tz L = sortDesc L /\ deduplicateAttendance tz L ≡ₚ L.
Proof.
  intros H.
  assert (E : deduplicateAttendance tz L = sortDesc L).
  { rewrite deduplicateAttendance_unfold. apply dedupLoop_fixed. split.
    - assert (P : map (dedupKey tz) (sortDesc L) ≡ₚ map (dedupKey tz) L)
        by (apply fmap_Permutation, sortDesc_perm).
      rewrite P. exact H.
    - apply Forall_forall. intros r _. apply not_elem_of_empty. }
  split; [exact E|]. rewrite E. apply sortDesc_perm.
Qed.

Lemma deduplicateAttendance_distinct_keys_witness :
  deduplicateAttendance manila [scanRemote; scanLater] = [scanLater; scanRemote].
Proof.
  destruct (deduplicateAttendance_distinct_keys manila [scanRemote; scanLater]) as [E _].
  - vm_compute. repeat constructor; intros H; inversion H; subst;
      match goal with H : _ ∈ _ |- _ => inversion H end.
  - rewrite E. reflexivity.
Defined.

(** ** Flat fallback driver: the merge of [save] *)

Section MapSet.
Context {V : Type} (key : V -> string).

Lemma mapSet_in_keys k (v : V) m :
  k ∈ m.*1 -> (LocalStorageDriver.mapSet k v m).*1 = m.*1.
Proof.
  induction m as [|[k' v'] m IH]; simpl; [intros H; inversion H|].
  destruct (String.eqb_spec k' k) as [->|Hne]; [reflexivity|].
  intros H. apply elem_of_cons in H as [H|H]; [congruence|].
  simpl. f_equal. now apply IH.
Qed.

Lemma mapSet_new_key k (v : V) m :
  k ∉ m.*1 -> LocalStorageDriver.mapSet k v m = m ++ [(k, v)].
Proof.
  induction m as [|[k' v'] m IH]; simpl; [reflexivity|].
  intros H. apply not_elem_of_cons in H as [Hne H].
  destruct (String.eqb_spec k' k) as [->|_]; [congruence|].
  now rewrite IH.
Qed.

Lemma mapSet_keys_cases k (v : V) m :
  (LocalStorageDriver.mapSet k v m).*1 = m.*1
  \/ ((k ∉ m.*1) /\ (LocalStorageDriver.mapSet k v m).*1 = (m.*1) ++ [k]).
Proof.
  destruct (decide (k ∈ m.*1)) as [H|H].
  - left. now apply mapSet_in_keys.
  - right. split; [exact H|]. rewrite mapSet_new_key by exact H.
    now rewrite fmap_app.
Qed.

Lemma mapSet_NoDup k (v : V) m :
  NoDup m.*1 -> NoDup (LocalStorageDriver.mapSet k v m).*1.
Proof.
  intros H. destruct (mapSet_keys_cases k v m) as [-> | [Hk ->]]; [exact H|].
  apply NoDup_app. repeat split; [exact H| |apply NoDup_singleton].
  intros x Hx Hx'. apply list_elem_of_singleton in Hx'. congruence.
Qed.

Lemma mapSet_key_present k (v : V) m : k ∈ (LocalStorageDriver.mapSet k v m).*1.
Proof.
  destruct (decide (k ∈ m.*1)) as [H|H].
  - now rewrite mapSet_in_keys.
  - rewrite mapSet_new_key by exact H. rewrite fmap_app, elem_of_app.
    right. simpl. apply list_elem_of_singleton. reflexivity.
Qed.

Lemma mapSet_keys_kept k (v : V) m k' :
  k' ∈ m.*1 -> k' ∈ (LocalStorageDriver.mapSet k v m).*1.
Proof.
  intros H. destruct (mapSet_keys_cases k v m) as [-> | [_ ->]]; [exact H|].
  apply elem_of_app. now left.
Qed.

Lemma mapGet_mapSet k (v : V) m k' :
  mapGet k' (LocalStorageDriver.mapSet k v m)
  = if String.eqb k k' then Some v else mapGet k' m.
Proof.
  unfold mapGet. induction m as [|[k1 v1] m IH]; simpl.
  - destruct (String.eqb k k'); reflexivity.
  - destruct (String.eqb_spec k1 k) as [->|Hne]; simpl.
    + destruct (String.eqb k k'); reflexivity.
    + destruct (String.eqb_spec k1 k') as [->|Hne'].
      * destruct (String.eqb_spec k k'); [congruence | reflexivity].
      * exact IH.
Qed.

Lemma mapGet_elem k (v : V) m : mapGet k m = Some v -> (k, v) ∈ m.
Proof.
  unfold mapGet. induction m as [|[k1 v1] m IH]; simpl; [discriminate|].
  destruct (String.eqb_spec k1 k) as [->|Hne]; simpl.
  - intros [= ->]. left.
  - intros H. right. now apply IH.
Qed.

Lemma mapGet_None k (m : list (string * V)) : k ∉ m.*1 -> mapGet k m = None.
Proof.
  unfold mapGet. induction m as [|[k1 v1] m IH]; simpl; [reflexivity|].
  intros H. apply not_elem_of_cons in H as [Hne H].
  destruct (String.eqb_spec k1 k) as [->|_]; [congruence|]. now apply IH.
Qed.

(** Two maps with the same keys in the same order, each once, and the
    same value under every key are the same map. *)
Lemma map_ext (m1 m2 : list (string * V)) :
  NoDup m1.*1 -> m1.*1 = m2.*1 ->
  (forall k, mapGet k m1 = mapGet k m2) -> m1 = m2.
Proof.
  revert m2; induction m1 as [|[k v] m1 IH]; intros [|[k2 v2] m2]; simpl;
    try discriminate; [reflexivity|].
  intros Hnd [= <- Hk] Hget. apply NoDup_cons in Hnd as [Hk1 Hnd].
  assert (v = v2) as <-.
  { specialize (Hget k). unfold mapGet in Hget. simpl in Hget.
    rewrite String.eqb_refl in Hget. simpl in Hget. congruence. }
  f_equal. apply IH; [exact Hnd | exact Hk|].
  intros k'. destruct (String.eqb_spec k k') as [<-|Hne].
  - change (m1.*1 = m2.*1) in Hk.
    rewrite (mapGet_None k m1 Hk1), (mapGet_None k m2); [reflexivity|].
    now rewrite <- Hk.
  - specialize (Hget k'). unfold mapGet in *. simpl in Hget.
    destruct (String.eqb_spec k k'); [congruence | exact Hget].
Qed.

Lemma mapSet_wellKeyed (v : V) m :
  wellKeyed key m -> wellKeyed key (LocalStorageDriver.mapSet (key v) v m).
Proof.
  unfold wellKeyed. induction m as [|[k' v'] m IH]; simpl.
  - intros _. repeat constructor.
  - intros H. apply Forall_cons in H as [H1 H].
    destruct (String.eqb_spec k' (key v)) as [->|_]; constructor; auto.
Qed.

Lemma mapFrom_invariant l m :
  NoDup m.*1 -> wellKeyed key m ->
  NoDup (mapFrom key l m).*1 /\ wellKeyed key (mapFrom key l m).
Proof.
  revert m; induction l as [|v l IH]; intros m Hnd Hwk; simpl; [auto|].
  apply IH; [now apply mapSet_NoDup | now apply mapSet_wellKeyed].
Qed.

Lemma mapFrom_keys l m k :
  k ∈ m.*1 \/ k ∈ map key l -> k ∈ (mapFrom key l m).*1.
Proof.
  revert m; induction l as [|v l IH]; intros m; simpl.
  - intros [H|H]; [exact H | inversion H].
  - intros [H|H]; apply IH.
    + left. now apply mapSet_keys_kept.
    + apply elem_of_cons in H as [-> | H]; [left; apply mapSet_key_present | now right].
Qed.

Lemma mapFrom_keys_fixed l m :
  Forall (fun v => key v ∈ m.*1) l -> (mapFrom key l m).*1 = m.*1.
Proof.
  revert m; induction l as [|v l IH]; intros m H; simpl; [reflexivity|].
  apply Forall_cons in H as [Hv H].
  rewrite IH; [now apply mapSet_in_keys|].
  eapply Forall_impl; [exact H|]. intros x Hx. simpl in Hx.
  now rewrite mapSet_in_keys.
Qed.

(** Under a key, the map holds the last value of the list with that key,
    or what it held before when there is none. *)
Lemma mapGet_mapFrom l m k :
  mapGet k (mapFrom key l m)
  = match last (List.filter (fun v => String.eqb (key v) k) l) with
    | Some v => Some v
    | None => mapGet k m
    end.
Proof.
  revert m; induction l as [|v l IH]; intros m; simpl; [reflexivity|].
  rewrite IH, mapGet_mapSet.
  destruct (String.eqb (key v) k); simpl; [|reflexivity].
  destruct (List.filter _ l) as [|x xs]; simpl; [reflexivity|].
  destruct (last (x :: xs)) eqn:E; [reflexivity|].
  apply last_None in E. discriminate.
Qed.

Lemma mapFrom_values l m (v : V) :
  v ∈ (mapFrom key l m).*2 -> v ∈ m.*2 \/ v ∈ l.
Proof.
  revert m; induction l as [|x l IH]; intros m; simpl; [auto|].
  intros H. apply IH in H as [H|H]; [|right; now right].
  assert (G : forall m', v ∈ (LocalStorageDriver.mapSet (key x) x m').*2 ->
                         v ∈ m'.*2 \/ v = x).
  { clear. induction m' as [|[k' v'] m' IH']; simpl.
    - rewrite list_elem_of_singleton. auto.
    - destruct (String.eqb k' (key x)); simpl; rewrite !elem_of_cons.
      + intros [->|H]; auto.
      + intros [->|H]; [auto|]. apply IH' in H as [H|H]; auto. }
  apply G in H as [H| ->]; [now left | right; left].
Qed.

(** Building a map from the values of a well-keyed map gives it back. *)
Lemma mapFrom_values_id m1 m2 :
  NoDup (m1 ++ m2).*1 -> wellKeyed key m2 -> mapFrom key m2.*2 m1 = m1 ++ m2.
Proof.
  revert m1; induction m2 as [|[k v] m2 IH]; intros m1 Hnd Hwk; simpl.
  - now rewrite app_nil_r.
  - apply Forall_cons in Hwk as [Hk Hwk]. simpl in Hk. subst k.
    rewrite mapSet_new_key.
    + rewrite IH; [now rewrite <- app_assoc | | exact Hwk].
      now rewrite <- app_assoc.
    + rewrite fmap_app in Hnd. apply NoDup_app in Hnd as (_ & Hd & _).
      intros Hin. apply (Hd _ Hin). left.
Qed.

Lemma uniqueBy_mapFrom l : LocalStorageDriver.uniqueBy key l = (mapFrom key l []).*2.
Proof. reflexivity. Qed.

Lemma uniqueBy_keys l :
  map key (LocalStorageDriver.uniqueBy key l) = (mapFrom key l []).*1.
Proof.
  rewrite uniqueBy_mapFrom.
  destruct (mapFrom_invariant l []) as [_ Hwk]; [constructor | constructor |].
  induction Hwk as [|[k v] m Hk Hm IH]; simpl; [reflexivity|].
  simpl in Hk. f_equal; [now symmetry | exact IH].
Qed.

(** Merging a list a second time into the result of the merge changes
    nothing. *)
Lemma uniqueBy_again e d :
  LocalStorageDriver.uniqueBy key (LocalStorageDriver.uniqueBy key (e ++ d) ++ d)
  = LocalStorageDriver.uniqueBy key (e ++ d).
Proof.
  rewrite !uniqueBy_mapFrom. f_equal.
  set (U := mapFrom key (e ++ d) []).
  destruct (mapFrom_invariant (e ++ d) []) as [Hnd Hwk]; [constructor | constructor |].
  fold U in Hnd, Hwk.
  unfold mapFrom at 1. rewrite fold_left_app.
  change (mapFrom key d (mapFrom key U.*2 []) = U).
  rewrite (mapFrom_values_id [] U) by assumption. simpl.
  assert (Hkeys : (mapFrom key d U).*1 = U.*1).
  { apply mapFrom_keys_fixed, Forall_forall. intros v Hv.
    apply mapFrom_keys. right. apply list_elem_of_fmap. exists v. split; [reflexivity|].
    apply elem_of_app. now right. }
  apply map_ext; [now rewrite Hkeys | exact Hkeys |].
  intros k. rewrite mapGet_mapFrom. unfold U at 1 2. rewrite mapGet_mapFrom.
  rewrite List.filter_app.
  destruct (List.filter (fun v => String.eqb (key v) k) d) as [|x xs] eqn:Ed.
  - rewrite app_nil_r. reflexivity.
  - rewrite last_app. destruct (last (x :: xs)) eqn:El; [reflexivity|].
    now apply last_None in El.
Qed.

End MapSet.

Lemma uniqueBy_NoDup {V} (key : V -> string) (l : list V) :
  NoDup (map key (LocalStorageDriver.uniqueBy key l)).
Proof.
  rewrite uniqueBy_keys.
  destruct (mapFrom_invariant key l []) as [H _]; [constructor | constructor | exact H].
Qed.

Lemma uniqueBy_covers {V} (key : V -> string) (l : list V) v :
  v ∈ l -> exists v', v' ∈ LocalStorageDriver.uniqueBy key l /\ key v' = key v.
Proof.
  intros Hv.
  assert (Hk : key v ∈ map key (LocalStorageDriver.uniqueBy key l)).
  { rewrite uniqueBy_keys. apply mapFrom_keys. right.
    apply list_elem_of_fmap. eauto. }
  apply list_elem_of_fmap in Hk as (v' & E & Hin). eauto.
Qed.

Lemma uniqueBy_elem {V} (key : V -> string) (l : list V) v :
  v ∈ LocalStorageDriver.uniqueBy key l -> v ∈ l.
Proof.
  rewrite uniqueBy_mapFrom. intros H.
  apply mapFrom_values in H as [H|H]; [inversion H | exact H].
Qed.

(** The last entry of a list under its key is in the merge. *)
Lemma uniqueBy_last {V} (key : V -> string) (l : list V) v :
  last (List.filter (fun x => String.eqb (key x) (key v)) l) = Some v ->
  v ∈ LocalStorageDriver.uniqueBy key l.
Proof.
  intros H. rewrite uniqueBy_mapFrom.
  assert (G : mapGet (key v) (mapFrom key l []) = Some v)
    by (rewrite mapGet_mapFrom; now rewrite H).
  apply mapGet_elem in G. apply list_elem_of_fmap. exists (key v, v). auto.
Qed.

Lemma save_run data st before :
  LocalStorageDriver.load st = (Ok before, st) ->
  LocalStorageDriver.writable st = true ->
  LocalStorageDriver.save data st
  = (Ok tt,
     {| LocalStorageDriver.present := LocalStorageDriver.present st;
        LocalStorageDriver.writable := LocalStorageDriver.writable st;
        LocalStorageDriver.item :=
          LocalStorageDriver.Blob
            {| p_students :=
                 Some (LocalStorageDriver.uniqueBy Student.studentId
                         (students before ++ default [] (p_students data)));
               p_attendanceRecords :=
                 Some (LocalStorageDriver.uniqueBy LocalStorageDriver.attendanceKey
                         (attendanceRecords before
                          ++ default [] (p_attendanceRecords data)));
               p_documents := Some (default (documents before) (p_documents data));
               p_lastSync :=
                 LocalStorageDriver.orElse (p_lastSync data) (lastSync before);
               p_fullSyncCompleted := None |} |}).
Proof.
  intros Hl Hw. unfold LocalStorageDriver.save, bind. rewrite Hl, Hw. reflexivity.
Qed.

(** X6: what a successful [save] of the flat driver leaves in the store.
    No two attendance entries share a composite key (studentId, ISO
    timestamp, type) and no two students a studentId, whatever the store
    held; every entry stored before or supplied is represented by an
    entry of the same key; and every entry stored afterwards was stored
    before or supplied. *)
Theorem localStorage_save_merges (data : PartialData)
    (st : LocalStorageDriver.Store) (before : OfflineData) :
  LocalStorageDriver.load st = (Ok before, st) ->
  LocalStorageDriver.writable st = true ->
  exists st' after,
    LocalStorageDriver.save data st = (Ok tt, st')
    /\ LocalStorageDriver.load st' = (Ok after, st')
    /\ NoDup (map LocalStorageDriver.attendanceKey (attendanceRecords after))
    /\ NoDup (map Student.studentId (students after))
    /\ Forall (fun r => exists r', r' ∈ attendanceRecords after
                                   /\ LocalStorageDriver.attendanceKey r'
                                      = LocalStorageDriver.attendanceKey r)
         (attendanceRecords before ++ default [] (p_attendanceRecords data))
    /\ Forall (fun s => exists s', s' ∈ students after
                                   /\ Student.studentId s' = Student.studentId s)
         (students before ++ default [] (p_students data))
    /\ Forall (fun r => r ∈ attendanceRecords before
                             ++ default [] (p_attendanceRecords data))
         (attendanceRecords after)
    /\ Forall (fun s => s ∈ students before ++ default [] (p_students data))
         (students after).
Proof.
  intros Hl Hw. do 2 eexists. split; [exact (save_run data st before Hl Hw)|].
  split; [reflexivity|]. simpl.
  split; [apply uniqueBy_NoDup|]. split; [apply uniqueBy_NoDup|].
  repeat split; apply Forall_forall; intros x Hx.
  - now apply uniqueBy_covers.
  - now apply uniqueBy_covers.
  - eapply uniqueBy_elem; exact Hx.
  - eapply uniqueBy_elem; exact Hx.
Qed.

Lemma localStorage_save_merges_witness :
  exists st' after,
    LocalStorageDriver.save (onlyAttendance [scanPlaceholder; scanPlaceholder])
      bootstrappedStore = (Ok tt, st')
    /\ LocalStorageDriver.load st' = (Ok after, st')
    /\ NoDup (map LocalStorageDriver.attendanceKey (attendanceRecords after)).
Proof.
  destruct (localStorage_save_merges
              (onlyAttendance [scanPlaceholder; scanPlaceholder])
              bootstrappedStore _ eq_refl eq_refl)
    as (st' & after & Hs & Hl & Hnd & _).
  exists st', after. auto.
Defined.

Lemma filter_unique_key {V} (key : V -> string) (l : list V) r :
  NoDup (map key l) -> r ∈ l ->
  List.filter (fun x => String.eqb (key x) (key r)) l = [r].
Proof.
  induction l as [|x l IH]; intros Hnd Hr; [inversion Hr|].
  simpl in Hnd. apply NoDup_cons in Hnd as [Hx Hnd]. simpl.
  apply elem_of_cons in Hr as [<-|Hr].
  - rewrite String.eqb_refl. f_equal.
    clear IH Hnd. induction l as [|y l IH]; [reflexivity|]. simpl in *.
    apply not_elem_of_cons in Hx as [Hne Hx].
    destruct (String.eqb_spec (key y) (key r)); [congruence | now apply IH].
  - destruct (String.eqb_spec (key x) (key r)) as [E|_]; [|now apply IH].
    exfalso. apply Hx. rewrite E. apply list_elem_of_fmap. eauto.
Qed.

(** X7: when the entries supplied to [save] have pairwise distinct
    composite keys, each of them is stored as supplied, replacing a
    stored entry of the same key: the supplied copy wins. *)
Theorem localStorage_save_supplied_wins (data : PartialData)
    (st : LocalStorageDriver.Store) (before : OfflineData)
    (supplied : list AttendanceEntry) :
  LocalStorageDriver.load st = (Ok before, st) ->
  LocalStorageDriver.writable st = true ->
  p_attendanceRecords data = Some supplied ->
  NoDup (map LocalStorageDriver.attendanceKey supplied) ->
  exists st' after,
    LocalStorageDriver.save data st = (Ok tt, st')
    /\ LocalStorageDriver.load st' = (Ok after, st')
    /\ Forall (fun r => r ∈ attendanceRecords after) supplied.
Proof.
  intros Hl Hw Hd Hnd. do 2 eexists. split; [exact (save_run data st before Hl Hw)|].
  split; [reflexivity|]. simpl. rewrite Hd. simpl.
  apply Forall_forall. intros r Hr. apply uniqueBy_last.
  rewrite List.filter_app.
  rewrite (filter_unique_key _ _ _ Hnd Hr).
  rewrite last_snoc. reflexivity.
Qed.

Lemma localStorage_save_supplied_wins_witness :
  exists st' after,
    LocalStorageDriver.save (onlyAttendance [scanRemoteWithYear]) bootstrappedStore
    = (Ok tt, st')
    /\ LocalStorageDriver.load st' = (Ok after, st')
    /\ scanRemoteWithYear ∈ attendanceRecords after.
Proof.
  destruct (localStorage_save_supplied_wins (onlyAttendance [scanRemoteWithYear])
              bootstrappedStore _ [scanRemoteWithYear] eq_refl eq_refl eq_refl)
    as (st' & after & Hs & Hl & Hall).
  - apply NoDup_singleton.
  - exists st', after. split; [exact Hs|]. split; [exact Hl|].
    now apply Forall_cons in Hall as [H _].
Defined.

Example localStorage_save_replaces_same_key :
  (LocalStorageDriver.item
     (LocalStorageDriver.save (onlyAttendance [scanRemoteWithYear]) bootstrappedStore).2)
  = LocalStorageDriver.Blob
      {| p_students := Some []; p_attendanceRecords := Some [scanRemoteWithYear];
         p_documents := Some []; p_lastSync := Some 1730505660000;
         p_fullSyncCompleted := None |}.
Proof. vm_compute. reflexivity. Qed.

(** X8: saving the same data a second time changes nothing: after a
    successful [save data], another [save data] succeeds and leaves the
    store exactly as the first one left it. *)
Theorem localStorage_save_idempotent (data : PartialData)
    (st st' : LocalStorageDriver.Store) :
  LocalStorageDriver.save data st = (Ok tt, st') ->
  LocalStorageDriver.save data st' = (Ok tt, st').
Proof.
  intros H.
  destruct (LocalStorageDriver_load_pure st) as [before Hl].
  destruct (LocalStorageDriver.writable st) eqn:Hw.
  - rewrite (save_run data st before Hl Hw) in H. injection H as <-.
    erewrite save_run; [| reflexivity | exact Hw]. simpl.
    rewrite !uniqueBy_again.
    destruct (p_documents data), (p_lastSync data); reflexivity.
  - unfold LocalStorageDriver.save, bind in H. rewrite Hl, Hw in H. discriminate.
Qed.

Lemma localStorage_save_idempotent_witness :
  exists st',
    LocalStorageDriver.save (onlyAttendance [scanPlaceholder]) bootstrappedStore
    = (Ok tt, st')
    /\ LocalStorageDriver.save (onlyAttendance [scanPlaceholder]) st' = (Ok tt, st').
Proof.
  pose (r := LocalStorageDriver.save (onlyAttendance [scanPlaceholder]) bootstrappedStore).
  assert (E : r = (Ok tt, r.2)) by (vm_compute; reflexivity).
  exists r.2. split; [exact E|].
  apply (localStorage_save_idempotent _ bootstrappedStore). exact E.
Defined.

(** ** Storage manager: fall-back and migration *)

Section ManagerWalk.
Context {W : Type} `{!Host W} (drivers : list (Driver.t W)).

Lemma onDriver_manager {A} (op : Comp W A) (s : Sys W) :
  manager (StorageManager.onDriver op s).2 = manager s.
Proof. unfold StorageManager.onDriver. now destruct (op (world s)). Qed.

(** The walk either ends on a driver at or after its starting position,
    or throws the error it was given and leaves the manager alone. *)
Lemma fallback_result {A} (op : Driver.t W -> Comp W A) error ds i (s : Sys W) :
  match StorageManager.fallback op error i ds s with
  | (Ok _, s') =>
      exists j, currentDriver (manager s') = Some j /\ (i <= j < i + length ds)%nat
  | (Throw e, s') => e = error /\ manager s' = manager s
  end.
Proof.
  revert i s; induction ds as [|d ds IH]; intros i s; simpl; [auto|].
  destruct (Driver.isAvailable d (world s)).
  - pose proof (onDriver_manager (op d) s) as Hm.
    destruct (StorageManager.onDriver (op d) s) as [[a|e] s1]; simpl in *.
    + exists i. split; [reflexivity | lia].
    + specialize (IH (S i) s1).
      destruct (StorageManager.fallback op error (S i) ds s1) as [[a|e'] s2].
      * destruct IH as (j & Hj & Hr). exists j. split; [exact Hj | lia].
      * destruct IH as [-> Hm2]. split; [reflexivity | congruence].
  - specialize (IH (S i) s).
    destruct (StorageManager.fallback op error (S i) ds s) as [[a|e'] s2].
    + destruct IH as (j & Hj & Hr). exists j. split; [exact Hj | lia].
    + exact IH.
Qed.

Lemma activeDriver_set (s : Sys W) i :
  currentDriver (manager s) = Some i ->
  StorageManager.activeDriver drivers s
  = match drivers !! i with
    | Some d => (Ok (i, d), s)
    | None => (Throw "No storage driver initialized", s)
    end.
Proof.
  intros H. unfold StorageManager.activeDriver, bind. rewrite H. simpl. now rewrite H.
Qed.

Lemma withFallback_monotone {A} (op : Driver.t W -> Comp W A) (s : Sys W) i :
  currentDriver (manager s) = Some i ->
  exists j,
    currentDriver
      (manager
         ((cur <- StorageManager.activeDriver drivers ;;
           let '(currentIndex, d) := cur in
           tryCatch (StorageManager.onDriver (op d))
             (fun error =>
                StorageManager.fallback op error (S currentIndex)
                  (drop (S currentIndex) drivers))) s).2) = Some j
    /\ (i <= j)%nat.
Proof.
  intros H. unfold bind. rewrite (activeDriver_set s i H).
  destruct (drivers !! i) as [d|]; [|exists i; split; [exact H | lia]].
  unfold tryCatch.
  pose proof (onDriver_manager (op d) s) as Hm.
  destruct (StorageManager.onDriver (op d) s) as [[a|e] s1]; simpl in *.
  - exists i. split; [congruence | lia].
  - pose proof (fallback_result op e (drop (S i) drivers) (S i) s1) as F.
    destruct (StorageManager.fallback op e (S i) (drop (S i) drivers) s1) as [[a|e'] s2].
    + destruct F as (j & Hj & Hr). exists j. split; [exact Hj | lia].
    + destruct F as [_ Hm2]. exists i. split; [simpl; congruence | lia].
Qed.

End ManagerWalk.

(** X9: the manager never moves back to a driver of higher preference:
    once a driver is active, after any [load], [save] or [clear],
    succeeded or failed, the active driver is the same one or one
    further down the list. *)
Theorem manager_never_moves_up {W : Type} `{!Host W} (drivers : list (Driver.t W))
    (data : PartialData) (s : Sys W) (i : nat) :
  currentDriver (manager s) = Some i ->
  (exists j, currentDriver (manager (StorageManager.load drivers s).2) = Some j
             /\ (i <= j)%nat)
  /\ (exists j, currentDriver (manager (StorageManager.save drivers data s).2) = Some j
                /\ (i <= j)%nat)
  /\ currentDriver (manager (StorageManager.clear drivers s).2) = Some i.
Proof.
  intros H. split; [|split].
  - apply (withFallback_monotone drivers Driver.load s i H).
  - apply (withFallback_monotone drivers (fun d => Driver.save d data) s i H).
  - now apply clear_keeps_driver.
Qed.

Lemma manager_never_moves_up_witness :
  currentDriver
    (manager (StorageManager.save twoDrivers (onlyAttendance [scanPlaceholder])
                brokenFirstSys).2) = Some 1%nat.
Proof.
  destruct (manager_never_moves_up twoDrivers (onlyAttendance [scanPlaceholder])
              brokenFirstSys 0 eq_refl) as (_ & (j & Hj & _) & _).
  rewrite Hj. vm_compute in Hj. symmetry. exact Hj.
Defined.

(** X10: when the [save] of the active driver throws, the manager's
    [save] has one of two outcomes: a driver strictly further down the
    list has taken over and the call succeeds, or the call throws the
    error of the active driver (not that of the last driver tried) and
    the active driver stays. *)
Theorem manager_save_after_failure {W : Type} `{!Host W} (drivers : list (Driver.t W))
    (data : PartialData) (s : Sys W) (i : nat) (d : Driver.t W)
    (e : string) (w1 : W) :
  currentDriver (manager s) = Some i ->
  drivers !! i = Some d ->
  Driver.save d data (world s) = (Throw e, w1) ->
  match StorageManager.save drivers data s with
  | (Ok _, s') => exists j, currentDriver (manager s') = Some j /\ (i < j)%nat
  | (Throw e', s') => e' = e /\ currentDriver (manager s') = Some i
  end.
Proof.
  intros Hc Hd Hs. unfold StorageManager.save, bind.
  rewrite (activeDriver_set drivers s i Hc), Hd. unfold tryCatch.
  unfold StorageManager.onDriver at 1. rewrite Hs.
  pose proof (fallback_result (fun fd => Driver.save fd data) e
                (drop (S i) drivers) (S i) (withWorld w1 s)) as F.
  destruct (StorageManager.fallback _ e (S i) (drop (S i) drivers) (withWorld w1 s))
    as [[a|e'] s'].
  - destruct F as (j & Hj & Hr). exists j. split; [exact Hj | lia].
  - destruct F as [-> Hm]. split; [reflexivity|]. rewrite Hm. exact Hc.
Qed.

Lemma manager_save_after_failure_witness :
  exists s',
    StorageManager.save twoDrivers (onlyAttendance [scanPlaceholder]) brokenBothSys
    = (Throw "QuotaExceededError", s').
Proof.
  pose proof (manager_save_after_failure twoDrivers (onlyAttendance [scanPlaceholder])
                brokenBothSys 0 (cellDriver fst (fun st w => (st, snd w)))
                "QuotaExceededError" brokenBoth eq_refl eq_refl eq_refl) as H.
  destruct (StorageManager.save twoDrivers (onlyAttendance [scanPlaceholder])
              brokenBothSys) as [[a|e'] s'] eqn:E.
  - vm_compute in E. discriminate.
  - destruct H as [-> _]. now exists s'.
Defined.

Section ManagerAdopt.
Context {W : Type} `{!Host W} (drivers : list (Driver.t W)).

Lemma fallback_adopts {A} (op : Driver.t W -> Comp W A) error pre d post i
    (s : Sys W) a w2 :
  Forall (fun fd => Driver.isAvailable fd (world s) = false) pre ->
  Driver.isAvailable d (world s) = true ->
  op d (world s) = (Ok a, w2) ->
  StorageManager.fallback op error i (pre ++ d :: post) s
  = (Ok a, withManager {| currentDriver := Some (i + length pre)%nat;
                          initialized := initialized (manager s) |}
             (withWorld w2 s)).
Proof.
  intros Hpre Ha Hop; revert i; induction Hpre as [|fd pre Hfd Hpre IH]; intros i; simpl.
  - rewrite Ha. unfold StorageManager.onDriver. rewrite Hop. simpl.
    now rewrite Nat.add_0_r.
  - rewrite Hfd, IH. replace (S i + length pre)%nat with (i + S (length pre))%nat by lia.
    reflexivity.
Qed.

End ManagerAdopt.

(** X11: fall-back of [save].  The active driver's [save] throws; the
    drivers between it and driver [j] report unavailable; driver [j] is
    available and its [save] succeeds.  Then the manager's [save]
    succeeds, the data is in driver [j]'s store, and driver [j] is the
    active driver from then on. *)
Theorem manager_save_falls_back {W : Type} `{!Host W} (drivers : list (Driver.t W))
    (data : PartialData) (s : Sys W) (i j : nat) (d fd : Driver.t W)
    (e : string) (w1 w2 : W) :
  currentDriver (manager s) = Some i ->
  drivers !! i = Some d ->
  Driver.save d data (world s) = (Throw e, w1) ->
  (i < j)%nat ->
  drivers !! j = Some fd ->
  (forall k skipped, (i < k < j)%nat -> drivers !! k = Some skipped ->
                     Driver.isAvailable skipped w1 = false) ->
  Driver.isAvailable fd w1 = true ->
  Driver.save fd data w1 = (Ok tt, w2) ->
  exists s',
    StorageManager.save drivers data s = (Ok tt, s')
    /\ world s' = w2
    /\ currentDriver (manager s') = Some j
    /\ StorageManager.getCurrentDriverName drivers s' = Some (Driver.name fd).
Proof.
  intros Hc Hd Hs Hij Hj Hskip Ha Hsave. unfold StorageManager.save, bind.
  rewrite (activeDriver_set drivers s i Hc), Hd. unfold tryCatch.
  unfold StorageManager.onDriver at 1. rewrite Hs.
  assert (Hlook : drop (S i) drivers !! (j - S i)%nat = Some fd).
  { rewrite lookup_drop. replace (S i + (j - S i))%nat with j by lia. exact Hj. }
  rewrite <- (take_drop_middle _ _ _ Hlook).
  rewrite (fallback_adopts (fun x => Driver.save x data) e _ fd _ (S i)
             (withWorld w1 s) tt w2).
  - eexists. split; [reflexivity|]. simpl. split; [reflexivity|].
    assert (Hlen : (S (i + length (take (j - S i) (drop (S i) drivers))))%nat = j).
    { rewrite length_take, length_drop.
      apply lookup_lt_Some in Hj. lia. }
    rewrite Hlen. split; [reflexivity|].
    unfold StorageManager.getCurrentDriverName. simpl.
    now rewrite Hj.
  - apply Forall_forall. intros x Hx. apply list_elem_of_lookup in Hx as [k Hk].
    apply lookup_take_Some in Hk as [Hk Hlt]. rewrite lookup_drop in Hk.
    simpl. eapply (Hskip (S i + k)%nat); [lia | exact Hk].
  - exact Ha.
  - exact Hsave.
Qed.

Lemma manager_save_falls_back_witness :
  exists s',
    StorageManager.save twoDrivers (onlyAttendance [scanPlaceholder]) brokenFirstSys
    = (Ok tt, s')
    /\ StorageManager.getCurrentDriverName twoDrivers s' = Some LocalStorageName.
Proof.
  pose (r := LocalStorageDriver.save (onlyAttendance [scanPlaceholder]) (snd brokenFirst)).
  assert (Hbetween : forall (k : nat) (skipped : Driver.t TwoStores),
             (0 < k < 1)%nat -> twoDrivers !! k = Some skipped ->
             Driver.isAvailable skipped brokenFirst = false)
    by (intros k skipped Hk; lia).
  destruct (manager_save_falls_back twoDrivers (onlyAttendance [scanPlaceholder])
              brokenFirstSys 0 1 (cellDriver fst (fun st w => (st, snd w)))
              (localStorageDriver snd (fun st w => (fst w, st)))
              "QuotaExceededError" brokenFirst (fst brokenFirst, r.2)
              eq_refl eq_refl eq_refl (Nat.lt_0_succ 0) eq_refl Hbetween eq_refl eq_refl)
    as (s' & H1 & _ & _ & H2).
  exists s'. split; [exact H1 | exact H2].
Defined.

Lemma DriverName_eqb_eq x y : StorageManager.DriverName_eqb x y = true -> x = y.
Proof. destruct x, y; simpl; congruence. Qed.

(** X12: a migration that succeeds ends on the driver asked for:
    afterwards [getCurrentDriverName] is the name passed to [migrate]. *)
Theorem migrate_switches_to_target {W : Type} `{!Host W} (drivers : list (Driver.t W))
    (toDriverName : DriverName) (s s' : Sys W) :
  StorageManager.migrate drivers toDriverName s = (Ok tt, s') ->
  StorageManager.getCurrentDriverName drivers s' = Some toDriverName.
Proof.
  unfold StorageManager.migrate, bind.
  destruct (match currentDriver (manager s) with
            | Some _ => (Ok tt, s)
            | None => StorageManager.init drivers s
            end) as [[[]|e] s1]; [|discriminate].
  destruct (findIndex _ drivers) as [target|] eqn:Hf; [|discriminate].
  destruct (findIndex_Some _ _ _ Hf) as (td & Htd & Hname & _).
  apply DriverName_eqb_eq in Hname. rewrite Htd.
  destruct (Driver.isAvailable td (world s1)); [|discriminate].
  destruct (StorageManager.load drivers s1) as [[data|e] s2]; [|discriminate].
  destruct (StorageManager.onDriver _ s2) as [[[]|e] s3]; [|discriminate].
  intros [= <-]. unfold StorageManager.getCurrentDriverName. simpl.
  rewrite Htd. simpl. now rewrite Hname.
Qed.

Lemma migrate_switches_to_target_witness :
  StorageManager.getCurrentDriverName twoDrivers healthyBothSys = Some IndexedDb
  /\ StorageManager.getCurrentDriverName twoDrivers
       (StorageManager.migrate twoDrivers LocalStorageName healthyBothSys).2
     = Some LocalStorageName.
Proof.
  split; [reflexivity|].
  apply (migrate_switches_to_target twoDrivers LocalStorageName healthyBothSys).
  vm_compute. reflexivity.
Defined.

(** X13: [init] on a manager already initialised does nothing.
    Otherwise it tries the drivers in order.  When it returns, a driver
    of the list is adopted, the [initialized] mark is set and the note
    of the engine name did not throw.  When it throws, the error is "No
    storage driver available", and either the manager is as it was, or
    it is left initialised on a driver of the list: that happens when
    noting the engine name threw after that driver was adopted and no
    later driver could be adopted cleanly, and only then; a later
    [init] then returns at once. *)
Theorem init_adopts_or_throws {W : Type} `{!Host W} (drivers : list (Driver.t W)) (s : Sys W) :
  match StorageManager.init drivers s with
  | (Ok _, s') =>
      (initialized (manager s) = true /\ s' = s)
      \/ (initialized (manager s) = false
          /\ initialized (manager s') = true
          /\ (exists i d, currentDriver (manager s') = Some i /\ drivers !! i = Some d)
          /\ forall e, engineKeyAccess (world s') <> SetItemThrows e)
  | (Throw e, s') =>
      e = "No storage driver available"
      /\ initialized (manager s) = false
      /\ (manager s' = manager s
          \/ (initialized (manager s') = true
              /\ (exists i d, currentDriver (manager s') = Some i /\ drivers !! i = Some d)
              /\ StorageManager.init drivers s' = (Ok tt, s')))
      /\ ((forall w e', engineKeyAccess w <> SetItemThrows e') -> manager s' = manager s)
  end.
Proof.
  unfold StorageManager.init.
  destruct (initialized (manager s)) eqn:Hi; [left; auto|].
  assert (G : forall ds pre (x : Sys W), drivers = pre ++ ds ->
            match StorageManager.initLoop (length pre) ds x with
            | (Ok _, s') =>
                initialized (manager s') = true
                /\ (exists i d, currentDriver (manager s') = Some i
                                /\ drivers !! i = Some d)
                /\ forall e, engineKeyAccess (world s') <> SetItemThrows e
            | (Throw e, s') =>
                e = "No storage driver available"
                /\ (manager s' = manager x
                    \/ (initialized (manager s') = true
                        /\ exists i d, currentDriver (manager s') = Some i
                                       /\ drivers !! i = Some d))
                /\ ((forall w e', engineKeyAccess w <> SetItemThrows e') ->
                    manager s' = manager x)
            end).
  { induction ds as [|d ds IH]; intros pre x Hd; simpl; [auto|].
    assert (Hnext : drivers = (pre ++ [d]) ++ ds) by (now rewrite <- app_assoc).
    assert (Hlen : length (pre ++ [d]) = S (length pre))
      by (rewrite length_app; simpl; lia).
    assert (Hlook : drivers !! length pre = Some d)
      by (rewrite Hd; now apply list_lookup_middle).
    destruct (Driver.isAvailable d (world x)).
    - pose proof (onDriver_manager (Driver.load d) x) as Hm.
      destruct (StorageManager.onDriver (Driver.load d) x) as [[env|e] x1]; simpl in *.
      + destruct (engineKeyAccess (world x1)) as [|e0|] eqn:Hk; simpl.
        * split; [reflexivity|]. split; [eauto|]. simpl. intros e. rewrite Hk. discriminate.
        * specialize (IH (pre ++ [d])
                        (withManager {| currentDriver := Some (length pre);
                                        initialized := true |} x1) Hnext).
          rewrite Hlen in IH.
          destruct (StorageManager.initLoop _ ds _) as [[u|e'] x2]; [exact IH|].
          destruct IH as (-> & IH & _). split; [reflexivity|]. split.
          -- right. destruct IH as [IH | IH]; [|exact IH].
             rewrite IH. simpl. eauto.
          -- intros Hno. destruct (Hno (world x1) e0 Hk).
        * split; [reflexivity|]. split; [eauto|]. simpl. intros e. rewrite Hk. discriminate.
      + specialize (IH (pre ++ [d]) x1 Hnext). rewrite Hlen in IH.
        destruct (StorageManager.initLoop _ ds x1) as [[u|e'] x2]; [exact IH|].
        destruct IH as (-> & IH & Hno). split; [reflexivity|]. split.
        * destruct IH as [IH | IH]; [left; congruence | right; exact IH].
        * intros H0. rewrite (Hno H0). exact Hm.
    - specialize (IH (pre ++ [d]) x Hnext). rewrite Hlen in IH. exact IH. }
  specialize (G drivers [] s eq_refl). simpl in G.
  destruct (StorageManager.initLoop 0 drivers s) as [[u|e] s'].
  - right. destruct G as (G1 & G2 & G3). auto.
  - destruct G as (-> & G & Hno). split; [reflexivity|]. split; [reflexivity|].
    split; [|exact Hno].
    destruct G as [G | (G1 & G2)]; [left; exact G | right].
    split; [exact G1|]. split; [exact G2|]. now rewrite G1.
Qed.

(** A browser whose [localStorage] is readable but refuses writes: the
    first [init] adopts the flat driver and throws all the same, so the
    first load through [getFromLocalStorage] answers with the empty
    envelope although the store holds one; the second load finds it. *)
Example init_throws_after_adopting :
  let readOnly :=
    {| LocalStorageDriver.present := true; LocalStorageDriver.writable := false;
       LocalStorageDriver.item := LocalStorageDriver.Blob bootstrappedBlob |} in
  let first := StorageManager.init flatOnly (freshSys readOnly) in
  first.1 = Throw "No storage driver available"
  /\ manager first.2 = {| currentDriver := Some 0%nat; initialized := true |}
  /\ (getFromLocalStorage flatOnly (freshSys readOnly)).1 = Ok emptyEnvelope
  /\ attendanceRecords
       <$> (getFromLocalStorage flatOnly
              (getFromLocalStorage flatOnly (freshSys readOnly)).2).1
     = Ok [scanRemote].
Proof. repeat split; reflexivity. Qed.

(** ** Realtime ingestor: the other notifications, and batching *)

Lemma findIndex_ext {A} (p q : A -> bool) l :
  (forall x, p x = q x) -> findIndex p l = findIndex q l.
Proof.
  intros H. induction l as [|a l IH]; simpl; [reflexivity|].
  now rewrite H, IH.
Qed.

Lemma findIndex_found {A} (p : A -> bool) l x :
  x ∈ l -> p x = true -> exists i, findIndex p l = Some i.
Proof.
  induction l as [|a l IH]; [intros H; inversion H|].
  intros Hx Px. simpl. destruct (p a) eqn:Pa; [eauto|].
  apply elem_of_cons in Hx as [->|Hx]; [congruence|].
  destruct (IH Hx Px) as [i ->]. eauto.
Qed.

(** X14: a student INSERT never overwrites: it puts the student at the
    head of the list when the identifier is new and does nothing when it
    is known; either way the identifier is present afterwards, and
    applying the same INSERT again reports no change. *)
Theorem student_insert_is_absorbed (newStudent : Student.t)
    (studentList : list Student.t) :
  let '(changed, after) := processStudentChange (StudentINSERT newStudent) studentList in
  (if changed then after = newStudent :: studentList
                   /\ Forall (fun s => Student.id s <> Student.id newStudent) studentList
   else after = studentList)
  /\ Student.id newStudent ∈ map Student.id after
  /\ processStudentChange (StudentINSERT newStudent) after = (false, after).
Proof.
  simpl.
  destruct (findIndex _ studentList) as [i|] eqn:Hi.
  - destruct (findIndex_Some _ _ _ Hi) as (x & Hx & Px & _). simpl in Px.
    apply String.eqb_eq in Px.
    split; [reflexivity|]. split.
    + rewrite <- Px. apply list_elem_of_fmap. exists x. split; [reflexivity|].
      eapply list_elem_of_lookup_2; exact Hx.
    + simpl. now rewrite Hi.
  - split; [|split].
    + split; [reflexivity|].
      eapply Forall_impl; [apply findIndex_None, Hi|].
      intros s Hs. simpl in Hs. now apply String.eqb_neq.
    + simpl. left.
    + simpl. now rewrite String.eqb_refl.
Qed.

(** X15: an attendance DELETE removes one entry that carries the
    identifier and nothing else: the entries left are the others, in
    their order.  When no entry carries the identifier the list is left
    alone and no change is reported.  When identifiers are unique, no
    entry with the identifier is left. *)
Theorem realtime_delete_removes_one (deletedId : string)
    (records : list AttendanceEntry) :
  let '(changed, after) := processAttendanceChange (DELETE deletedId) records in
  (if changed
   then after `sublist_of` records
        /\ exists removed, id removed = deletedId /\ records ≡ₚ removed :: after
   else after = records /\ Forall (fun r => id r <> deletedId) records)
  /\ (NoDup (map id records) -> Forall (fun r => id r <> deletedId) after).
Proof.
  simpl. destruct (findIndex _ records) as [i|] eqn:Hi.
  - destruct (findIndex_Some _ _ _ Hi) as (x & Hx & Px & _). simpl in Px.
    apply String.eqb_eq in Px. split.
    + split; [apply sublist_delete|]. exists x. split; [exact Px|].
      now apply delete_Permutation.
    + intros Hnd. apply Forall_forall. intros r Hr Hid.
      apply list_elem_of_lookup in Hr as [j Hj].
      assert (G : exists j', j' <> i /\ records !! j' = Some r).
      { destruct (decide (j < i)%nat).
        - exists j. split; [lia|]. now rewrite list_lookup_delete_lt in Hj.
        - exists (S j). split; [lia|]. rewrite list_lookup_delete_ge in Hj by lia. exact Hj. }
      destruct G as (j' & Hne & Hj'). apply Hne.
      eapply (NoDup_lookup (map id records) j' i deletedId); [exact Hnd | |].
      * rewrite list_lookup_fmap, Hj'. simpl. now rewrite Hid.
      * rewrite list_lookup_fmap, Hx. simpl. now rewrite Px.
  - assert (F : Forall (fun r => id r <> deletedId) records).
    { eapply Forall_impl; [apply findIndex_None, Hi|].
      intros r Hr. simpl in Hr. now apply String.eqb_neq. }
    split; [split; [reflexivity | exact F] | intros _; exact F].
Qed.

(** X16: an attendance UPDATE never inserts.  For an identifier the list
    does not hold it changes nothing and reports no change; for one it
    holds, the list does not grow and every entry left is the updated
    record or was in the list. *)
Theorem realtime_update_never_inserts (updatedRecord : AttendanceEntry)
    (records : list AttendanceEntry) :
  let '(changed, after) := processAttendanceChange (UPDATE updatedRecord) records in
  (if changed
   then (exists r, r ∈ records /\ id r = id updatedRecord)
   else after = records /\ Forall (fun r => id r <> id updatedRecord) records)
  /\ (length after <= length records)%nat
  /\ Forall (fun r => r = updatedRecord \/ r ∈ records) after.
Proof.
  simpl. unfold sameId. destruct (findIndex _ records) as [i|] eqn:Hi.
  - destruct (findIndex_Some _ _ _ Hi) as (x & Hx & Px & _). simpl in Px.
    apply String.eqb_eq in Px. split; [|split].
    + exists x. split; [eapply list_elem_of_lookup_2; exact Hx | exact Px].
    + etransitivity; [apply dedupeList_length|]. now rewrite length_insert.
    + apply Forall_forall. intros r Hr. unfold dedupeList in Hr.
      apply dedupe_fold_elem in Hr as [Hr|Hr]; [inversion Hr|].
      apply list_elem_of_lookup in Hr as [j Hj].
      destruct (decide (i = j)) as [<-|Hne].
      * rewrite list_lookup_insert_eq in Hj by (eapply lookup_lt_Some; exact Hx).
        left. congruence.
      * rewrite list_lookup_insert_ne in Hj by exact Hne.
        right. eapply list_elem_of_lookup_2; exact Hj.
  - split; [|split].
    + split; [reflexivity|].
      eapply Forall_impl; [apply findIndex_None, Hi|].
      intros r Hr. simpl in Hr. now apply String.eqb_neq.
    + reflexivity.
    + apply Forall_forall. intros r Hr. now right.
Qed.

Lemma mapSet_twice {V} k (v1 v2 : V) m :
  LocalStorageDriver.mapSet k v2 (LocalStorageDriver.mapSet k v1 m)
  = LocalStorageDriver.mapSet k v2 m.
Proof.
  induction m as [|[k' v'] m IH]; simpl.
  - now rewrite String.eqb_refl.
  - destruct (String.eqb k' k) eqn:E; simpl; rewrite E; [reflexivity | now rewrite IH].
Qed.

(** X17: notifications are coalesced by row: queueing a second
    attendance notification for the identifier of one already pending
    replaces it (at its place in the queue), so only the later one is
    ever applied; likewise for students. *)
Theorem queue_keeps_latest_per_id (p1 p2 : Payload) (q1 q2 : StudentPayload)
    (rt : RealtimeService) :
  (payloadId p1 = payloadId p2 ->
   queueAttendanceChange p2 (queueAttendanceChange p1 rt) = queueAttendanceChange p2 rt)
  /\ (studentPayloadId q1 = studentPayloadId q2 ->
      queueStudentChange q2 (queueStudentChange q1 rt) = queueStudentChange q2 rt).
Proof.
  split; intros E; unfold queueAttendanceChange, queueStudentChange, scheduleFlush;
    destruct (flushTimeout rt); simpl; rewrite E, mapSet_twice; reflexivity.
Qed.

(** X18: a row inserted and then updated within one batch never reaches
    the local list: the UPDATE replaces the pending INSERT, and an
    UPDATE for an identifier the list does not hold does nothing. *)
Theorem insert_then_update_is_dropped (newRecord updatedRecord : AttendanceEntry)
    (rt : RealtimeService) (records : list AttendanceEntry) :
  id updatedRecord = id newRecord ->
  pendingAttendanceUpdates rt = [] ->
  Forall (fun r => id r <> id newRecord) records ->
  applyAttendanceChanges
    (pendingAttendanceUpdates
       (queueAttendanceChange (UPDATE updatedRecord)
          (queueAttendanceChange (INSERT newRecord) rt)))
    records
  = (false, records).
Proof.
  intros E Hp Hall.
  assert (Q : pendingAttendanceUpdates
                (queueAttendanceChange (UPDATE updatedRecord)
                   (queueAttendanceChange (INSERT newRecord) rt))
              = [(id newRecord, UPDATE updatedRecord)]).
  { unfold queueAttendanceChange, scheduleFlush.
    destruct (flushTimeout rt); simpl; rewrite Hp, E; simpl;
      now rewrite String.eqb_refl. }
  rewrite Q. unfold applyAttendanceChanges. simpl.
  assert (N : findIndex (sameId updatedRecord) records = None).
  { clear - E Hall. induction Hall as [|r l Hr Hl IH]; simpl; [reflexivity|].
    unfold sameId at 1. rewrite E.
    destruct (String.eqb_spec (id r) (id newRecord)); [contradiction|].
    now rewrite IH. }
  now rewrite N.
Qed.

Lemma insert_then_update_is_dropped_witness :
  applyAttendanceChanges
    (pendingAttendanceUpdates
       (queueAttendanceChange (UPDATE scanRemoteWithYear)
          (queueAttendanceChange (INSERT scanRemote) idleService)))
    [scanPlaceholder]
  = (false, [scanPlaceholder]).
Proof.
  apply (insert_then_update_is_dropped scanRemote scanRemoteWithYear idleService
           [scanPlaceholder]); try reflexivity.
  repeat constructor. discriminate.
Defined.

Section FlushBatch.
Context {W : Type} `{!Host W} (drivers : list (Driver.t W)).

Lemma inSys_run {A} (m : Comp (Sys W) A) (x : RealtimeService * Sys W) :
  inSys m x = ((m x.2).1, (x.1, (m x.2).2)).
Proof. unfold inSys, liftComp. destruct x as [rt s]. simpl. now destruct (m s). Qed.

Lemma notifyDataUpdate_run (x : RealtimeService * Sys W) :
  exists x', notAwaited (notifyDataUpdate drivers) x = (Ok tt, x')
             /\ pendingStudentUpdates x'.1 = pendingStudentUpdates x.1
             /\ pendingAttendanceUpdates x'.1 = pendingAttendanceUpdates x.1
             /\ flushTimeout x'.1 = flushTimeout x.1
             /\ trace x'.2 = trace x.2.
Proof.
  unfold notAwaited, notifyDataUpdate, bind. rewrite inSys_run.
  destruct (getFromLocalStorage_returns drivers x.2) as (env & s' & -> & Ft & _).
  simpl. eexists. split; [reflexivity|]. simpl. auto.
Qed.

(** What one flush does. *)
Lemma flushUpdates_run (x : RealtimeService * Sys W) :
  exists r x',
    flushUpdates drivers x = (r, x')
    /\ pendingStudentUpdates x'.1 = []
    /\ pendingAttendanceUpdates x'.1 = []
    /\ flushTimeout x'.1 = flushTimeout x.1
    /\ ((trace x'.2 = trace x.2 /\ r = Ok tt)
        \/ exists data, trace x'.2 = trace x.2 ++ [EvSave data])
    /\ (pendingStudentUpdates x.1 = [] -> pendingAttendanceUpdates x.1 = [] ->
        x' = x /\ r = Ok tt).
Proof.
  unfold flushUpdates.
  assert (Busy : exists r x',
             (localData <- inSys (getFromLocalStorage drivers) ;;
              rt <- gets fst ;;
              let '(changedStudents, newStudents) :=
                applyStudentChanges (pendingStudentUpdates rt) (students localData) in
              let '(changedAttendance, newRecords) :=
                applyAttendanceChanges (pendingAttendanceUpdates rt)
                  (attendanceRecords localData) in
              modify (fun y => (clearPending y.1, y.2)) ;;;
              if changedStudents || changedAttendance then
                inSys (saveToLocalStorage drivers
                         {| p_students := Some newStudents;
                            p_attendanceRecords := Some newRecords;
                            p_documents := Some (documents localData);
                            p_lastSync := lastSync localData;
                            p_fullSyncCompleted := fullSyncCompleted localData |}) ;;;
                notAwaited (notifyDataUpdate drivers)
              else ret tt) x = (r, x')
             /\ pendingStudentUpdates x'.1 = []
             /\ pendingAttendanceUpdates x'.1 = []
             /\ flushTimeout x'.1 = flushTimeout x.1
             /\ ((trace x'.2 = trace x.2 /\ r = Ok tt)
                 \/ exists data, trace x'.2 = trace x.2 ++ [EvSave data])).
  { unfold bind at 1. rewrite inSys_run.
    destruct (getFromLocalStorage_returns drivers x.2) as (env & s0 & -> & Ft & _).
    simpl. unfold bind at 1, gets. simpl.
    destruct (applyStudentChanges _ _) as [cs ns].
    destruct (applyAttendanceChanges _ _) as [ca na].
    unfold bind at 1, modify. simpl.
    destruct (cs || ca).
    - unfold bind. rewrite inSys_run. simpl.
      match goal with |- context [saveToLocalStorage drivers ?p s0] =>
        destruct (saveToLocalStorage_run drivers p s0) as (r & s1 & -> & Ht & _) end.
      simpl. destruct r as [[]|e].
      + destruct (notifyDataUpdate_run (clearPending x.1, s1))
          as (x' & -> & H1 & H2 & H3 & H4).
        do 2 eexists. split; [reflexivity|]. simpl in *.
        repeat split; try assumption.
        right. eexists. rewrite H4, Ht, Ft. reflexivity.
      + do 2 eexists. split; [reflexivity|]. simpl.
        repeat split. right. eexists. rewrite Ht, Ft. reflexivity.
    - do 2 eexists. split; [reflexivity|]. simpl. repeat split. left. auto. }
  destruct (pendingStudentUpdates x.1) as [|ps pss] eqn:Hs;
    [destruct (pendingAttendanceUpdates x.1) as [|pa pas] eqn:Ha|].
  - do 2 eexists. split; [reflexivity|]. repeat split; auto.
  - destruct Busy as (r & x' & -> & B). exists r, x'. split; [reflexivity|].
    destruct B as (B1 & B2 & B3 & B4). repeat split; try assumption; discriminate.
  - destruct Busy as (r & x' & E & B). exists r, x'.
    split; [destruct (pendingAttendanceUpdates x.1); exact E|].
    destruct B as (B1 & B2 & B3 & B4). repeat split; try assumption; discriminate.
Qed.

End FlushBatch.

(** X19: one flush, one save at most.  After [flushUpdates] both pending
    maps are empty; the flush has called [saveToLocalStorage] once or
    not at all, and it can only throw if it did; with nothing pending it
    changes nothing, not even by a load. *)
Theorem flushUpdates_saves_once {W : Type} `{!Host W} (drivers : list (Driver.t W))
    (x : RealtimeService * Sys W) :
  let '(r, x') := flushUpdates drivers x in
  pendingStudentUpdates x'.1 = []
  /\ pendingAttendanceUpdates x'.1 = []
  /\ ((List.filter isSave (trace x'.2) = List.filter isSave (trace x.2) /\ r = Ok tt)
      \/ exists data, List.filter isSave (trace x'.2)
                      = List.filter isSave (trace x.2) ++ [EvSave data])
  /\ (pendingStudentUpdates x.1 = [] -> pendingAttendanceUpdates x.1 = [] ->
      x' = x /\ r = Ok tt).
Proof.
  destruct (flushUpdates_run drivers x) as (r & x' & -> & H1 & H2 & _ & H4 & H5).
  split; [exact H1|]. split; [exact H2|]. split; [|exact H5].
  destruct H4 as [[Ht Hr] | [data Ht]].
  - left. now rewrite Ht.
  - right. exists data. rewrite Ht, List.filter_app. reflexivity.
Qed.

(** ** Sync orchestrator: a whole cycle, and what a pull pass saves *)

(** X20: a sync cycle never throws, whatever its push pass does; and
    when the push pass throws, the cycle ends there: the pull pass is
    not run. *)
Theorem performSync_never_throws {W : Type} `{!Host W} (drivers : list (Driver.t W))
    (tz utc : Z -> Z) (syncLocalToSupabase : Z -> Comp (Sys W) unit)
    (remote : PullRemote) (now : Z) (force : bool) (s : Sys W) :
  (exists s', performSync drivers tz utc syncLocalToSupabase remote now force s = (Ok tt, s'))
  /\ (exists s', forceSync drivers tz utc syncLocalToSupabase remote now s = (Ok tt, s'))
  /\ forall localData s0 e s2,
      negb force && (now - lastSyncTime s <? MIN_SYNC_INTERVAL) = false ->
      getFromLocalStorage drivers (withLastSyncTime now s) = (Ok localData, s0) ->
      syncLocalToSupabase now s0 = (Throw e, s2) ->
      performSync drivers tz utc syncLocalToSupabase remote now force s = (Ok tt, s2).
Proof.
  assert (G : forall f, exists s',
             performSync drivers tz utc syncLocalToSupabase remote now f s = (Ok tt, s')).
  { intros f. unfold performSync.
    destruct (negb f && _); [eauto|].
    unfold tryCatch. destruct (bind _ _ _) as [[[]|e] s']; eauto. }
  split; [apply G|]. split; [apply (G false)|].
  intros localData s0 e s2 Hgo Hload Hpush. unfold performSync. rewrite Hgo.
  unfold tryCatch, bind. rewrite Hload, Hpush. reflexivity.
Qed.

Lemma performSync_never_throws_witness :
  exists s',
    performSync flatOnly manila manilaUTC failingPush reachable 1730505700000 true
      (freshSys pendingStore) = (Ok tt, s')
    /\ trace s' = [].
Proof.
  destruct (performSync_never_throws flatOnly manila manilaUTC failingPush reachable
              1730505700000 true (freshSys pendingStore)) as (_ & _ & H).
  eexists. split; [eapply H; reflexivity | reflexivity].
Defined.

Section PullPayload.
Context {W : Type} `{!Host W} (drivers : list (Driver.t W)) (tz utc : Z -> Z).

(** The save of a pull pass whose two queries succeeded. *)
Lemma syncSupabaseToLocal_success remote now (s s0 : Sys W) localData sd ad :
  getFromLocalStorage drivers s = (Ok localData, s0) ->
  selectStudents remote = Resolved None sd ->
  selectAttendance remote (attendanceWindow tz utc now localData) = Resolved None ad ->
  let localOnlyStudents :=
    List.filter (fun st => startsWithLocal (Student.id st)) (students localData) in
  let localOnlyRecords :=
    List.filter (fun r => isLocalCandidate (id r) && (daysAgo tz utc 30 now <=? timestamp r))
      (attendanceRecords localData) in
  let fetchedStudents := default [] (map studentOfRow <$> sd) in
  let fetchedAttendance := default [] (map entryOfRow <$> ad) in
  let dirtyStudents :=
    List.filter (fun st => negb (startsWithLocal (Student.id st)) && Student.dirty st)
      (students localData) in
  exists s',
    syncSupabaseToLocal drivers tz utc remote now s = (Ok tt, s')
    /\ trace s'
       = trace s0
         ++ [EvSelectStudents; EvSelectAttendance (attendanceWindow tz utc now localData);
             EvSave
               {| p_students :=
                    Some (match fetchedStudents with
                          | [] => localOnlyStudents
                          | _ => map (overlay dirtyStudents) fetchedStudents
                                 ++ localOnlyStudents
                          end);
                  p_attendanceRecords :=
                    Some (match fetchedAttendance with
                          | [] => localOnlyRecords
                          | _ => dedupeList (fetchedAttendance ++ localOnlyRecords)
                          end);
                  p_documents := None;
                  p_lastSync := Some now;
                  p_fullSyncCompleted := Some true |}].
Proof.
  intros H Hs Ha. simpl. unfold attendanceWindow in *.
  unfold syncSupabaseToLocal, tryCatch, bind at 1. rewrite H.
  unfold bind at 1. rewrite record_run. unfold bind at 1. rewrite record_run. simpl.
  rewrite <- app_assoc. simpl. rewrite Hs.
  destruct (default false (fullSyncCompleted localData)); simpl in *; rewrite Ha;
    unfold bind, promiseAll; simpl;
    match goal with |- context [saveToLocalStorage drivers ?p ?x] =>
      destruct (saveToLocalStorage_run drivers p x) as ([[]|e] & s' & -> & Ht & _) end;
    simpl in *; eexists; (split; [reflexivity|]);
    rewrite Ht, <- app_assoc; reflexivity.
Qed.

End PullPayload.





(** X22: what a successful pull pass saves as the attendance list.
    Every entry of it is a fetched row or a local-only entry of the
    loaded envelope (identifier not a UUID, or starting with [local_])
    dated within the last 30 days; nothing else is kept.  And every such
    local-only entry is represented in it by an entry of the same
    student and direction. *)
Theorem pull_pass_saved_attendance {W : Type} `{!Host W} (drivers : list (Driver.t W))
    (tz utc : Z -> Z) (remote : PullRemote) (now : Z) (s s0 : Sys W)
    (localData : OfflineData) (sd : option (list StudentRow))
    (ad : option (list AttendanceRow)) :
  getFromLocalStorage drivers s = (Ok localData, s0) ->
  selectStudents remote = Resolved None sd ->
  selectAttendance remote (attendanceWindow tz utc now localData) = Resolved None ad ->
  exists s' p saved,
    syncSupabaseToLocal drivers tz utc remote now s = (Ok tt, s')
    /\ last (trace s') = Some (EvSave p)
    /\ p_attendanceRecords p = Some saved
    /\ Forall (fun r =>
                 (exists row, row ∈ default [] ad /\ r = entryOfRow row)
                 \/ (r ∈ attendanceRecords localData
                     /\ isLocalCandidate (id r) = true
                     /\ daysAgo tz utc 30 now <= timestamp r))
         saved
    /\ Forall (fun r =>
                 isLocalCandidate (id r) = true -> daysAgo tz utc 30 now <= timestamp r ->
                 exists r', r' ∈ saved /\ studentId r' = studentId r /\ type r' = type r)
         (attendanceRecords localData).
Proof.
  intros H Hs Ha.
  destruct (syncSupabaseToLocal_success drivers tz utc remote now s s0 localData sd ad H Hs Ha)
    as (s' & Hrun & Ht).
  do 3 eexists. split; [exact Hrun|]. split; [rewrite Ht, last_app; reflexivity|].
  split; [reflexivity|].
  set (localOnly := List.filter _ (attendanceRecords localData)).
  set (fetched := default [] (map entryOfRow <$> ad)).
  assert (Hlocal : forall r, r ∈ localOnly <->
                     r ∈ attendanceRecords localData
                     /\ isLocalCandidate (id r) = true
                     /\ daysAgo tz utc 30 now <= timestamp r).
  { intros r. unfold localOnly. rewrite list_elem_of_In, List.filter_In, <- list_elem_of_In.
    rewrite andb_true_iff, Z.leb_le. tauto. }
  assert (Hfetched : forall r, r ∈ fetched ->
                       exists row, row ∈ default [] ad /\ r = entryOfRow row).
  { intros r Hr. unfold fetched in Hr. destruct ad as [rows|]; simpl in *.
    - apply list_elem_of_fmap in Hr as (row & -> & Hrow). eauto.
    - inversion Hr. }
  split.
  - apply Forall_forall. intros r Hr.
    destruct fetched as [|f0 fs] eqn:Ef.
    + right. now apply Hlocal.
    + unfold dedupeList in Hr. apply dedupe_fold_elem in Hr as [Hr|Hr]; [inversion Hr|].
      apply elem_of_app in Hr as [Hr|Hr]; [left; now apply Hfetched | right; now apply Hlocal].
  - apply Forall_forall. intros r Hr Hc Hw.
    assert (Hin : r ∈ localOnly) by (apply Hlocal; auto).
    destruct fetched as [|f0 fs] eqn:Ef.
    + exists r. auto.
    + assert (Hk : eventKey r ∈ map eventKey (dedupeList ((f0 :: fs) ++ localOnly))).
      { apply dedupe_fold_keys. right. apply list_elem_of_fmap. exists r.
        split; [reflexivity|]. apply elem_of_app. now right. }
      apply list_elem_of_fmap in Hk as (r' & Hk & Hr'). exists r'.
      split; [exact Hr'|]. unfold eventKey in Hk. injection Hk as E1 E2. auto.
Qed.

Lemma pull_pass_saved_attendance_witness :
  exists s' p saved,
    syncSupabaseToLocal flatOnly manila manilaUTC reachable 1730505700000 (freshSys pendingStore)
    = (Ok tt, s')
    /\ last (trace s') = Some (EvSave p)
    /\ p_attendanceRecords p = Some saved
    /\ exists r', r' ∈ saved /\ studentId r' = "S123" /\ type r' = CheckIn.
Proof.
  destruct (@pull_pass_saved_attendance _ Store_Host flatOnly manila manilaUTC reachable 1730505700000
              (freshSys pendingStore) _ _ _ (Some [remoteRow])
              eq_refl eq_refl eq_refl)
    as (s' & p & saved & H1 & H2 & H3 & _ & H5).
  exists s', p, saved. split; [exact H1|]. split; [exact H2|]. split; [exact H3|].
  apply Forall_cons in H5 as [H5 _]. apply H5; [reflexivity | vm_compute; discriminate].
Defined.

(** ** Attendance service: reading *)

(** X23: on a browser client, where every identifier is a backend UUID
    or a [local_] placeholder, the two merge policies of the code
    agree: [pickBetter] of the sync paths and the UUID-based one of
    [getAttendanceRecords] keep the same entry. *)
Theorem pickBetter_policies_agree (a b : AttendanceEntry) :
  webId (id a) = true -> webId (id b) = true ->
  pickBetterByUUID a b = pickBetter a b.
Proof.
  unfold webId, pickBetterByUUID, pickBetter. intros Ha Hb.
  destruct (truthy (course a) && negb (truthy (course b))); [reflexivity|].
  destruct (truthy (course b) && negb (truthy (course a))); [reflexivity|].
  destruct (isUUID (id a)) eqn:Ua, (isUUID (id b)) eqn:Ub; simpl in *;
    try rewrite (isUUID_not_local _ Ua); try rewrite (isUUID_not_local _ Ub);
    try rewrite Ha; try rewrite Hb; reflexivity.
Qed.

Lemma pickBetter_policies_agree_witness :
  pickBetterByUUID scanPlaceholder scanRemote = pickBetter scanPlaceholder scanRemote.
Proof. apply pickBetter_policies_agree; reflexivity. Defined.

Lemma head_insertStamped x l :
  head (insertStamped x l)
  = Some (match head l with
          | Some y => if y.1 <=? x.1 then x else y
          | None => x
          end).
Proof. destruct l as [|y l]; simpl; [reflexivity|]. now destruct (y.1 <=? x.1). Qed.

Lemma sortStamped_nil l : sortStamped l = [] <-> l = [].
Proof.
  split; [|now intros ->].
  destruct l as [|x l]; [reflexivity|]. simpl. intros H.
  pose proof (head_insertStamped x (sortStamped l)) as E. rewrite H in E. discriminate.
Qed.

(** The head of the sorted list is an element that no other element is
    newer than. *)
Lemma head_sortStamped l m :
  head (sortStamped l) = Some m -> m ∈ l /\ Forall (fun y => y.1 <= m.1) l.
Proof.
  revert m; induction l as [|x l IH]; intros m; simpl; [discriminate|].
  rewrite head_insertStamped. intros [= <-].
  destruct (head (sortStamped l)) as [y|] eqn:Hy.
  - destruct (IH y eq_refl) as [Hin Hall].
    destruct (Z.leb_spec y.1 x.1).
    + split; [left|]. constructor; [lia|].
      eapply Forall_impl; [exact Hall|]. intros z Hz. simpl in Hz. lia.
    + split; [now right|]. constructor; [lia | exact Hall].
  - assert (Hnil : sortStamped l = [])
      by (destruct (sortStamped l); [reflexivity | discriminate]).
    apply (proj1 (sortStamped_nil l)) in Hnil. subst l. split; [left|].
    repeat constructor. lia.
Qed.

(** X24: [getStudentCurrentStatus] never throws.  It answers [Unknown]
    exactly when it has no record of the student, neither locally nor
    from the backend; otherwise its answer is the type of a record that
    none is newer than, so a record strictly newer than all the others
    decides. *)
Theorem getStudentCurrentStatus_latest {W : Type} `{!Host W} (drivers : list (Driver.t W))
    (online : bool) (answer : Response (list AttendanceRow))
    (studentIdentifier : string) (s : Sys W) :
  exists localData s0 status s',
    getFromLocalStorage drivers s = (Ok localData, s0)
    /\ getStudentCurrentStatus drivers online answer studentIdentifier s = (Ok status, s')
    /\ let records := statusRecords online answer studentIdentifier localData in
       (status = Unknown <-> records = [])
       /\ (records <> [] ->
           exists latest, latest ∈ records
                          /\ Forall (fun r => r.1 <= latest.1) records
                          /\ status = statusOf latest.2)
       /\ Forall (fun r =>
                    Forall (fun r' => r' = r \/ r'.1 < r.1) records ->
                    status = statusOf r.2)
            records.
Proof.
  destruct (getFromLocalStorage_returns drivers s) as (localData & s0 & H & _).
  exists localData, s0.
  unfold getStudentCurrentStatus, bind at 1. rewrite H.
  set (localStamped := map _ (List.filter _ (attendanceRecords localData))).
  assert (E : exists s1,
             tryCatch
               (if online then
                  match answer with
                  | Rejected e => throw e
                  | Resolved None (Some data) =>
                      ret (map (fun row => (att_timestamp row, att_type row)) data
                           ++ localStamped)
                  | Resolved _ _ => ret localStamped
                  end
                else ret localStamped)
               (fun _ => ret localStamped) s0
             = (Ok (statusRecords online answer studentIdentifier localData), s1)).
  { unfold statusRecords, tryCatch, ret, throw. fold localStamped.
    destruct online; [|eauto].
    destruct answer as [e|[e|] [data|]]; simpl; eauto. }
  destruct E as (s1 & E). unfold bind. rewrite E.
  set (records := statusRecords online answer studentIdentifier localData).
  destruct (sortStamped records) as [|m rest] eqn:Hsort.
  - apply (proj1 (sortStamped_nil records)) in Hsort. do 2 eexists. split; [reflexivity|].
    split; [reflexivity|].
    simpl. rewrite Hsort. repeat split; auto; try congruence.
  - assert (Hm : head (sortStamped records) = Some m) by now rewrite Hsort.
    apply head_sortStamped in Hm as [Hin Hall].
    assert (Hne : records <> []).
    { intros Hnil. rewrite Hnil in Hsort. discriminate. }
    do 2 eexists. split; [reflexivity|]. split; [reflexivity|]. simpl.
    fold (statusOf m.2). split; [|split].
    + split; [|contradiction]. unfold statusOf. destruct m.2 as [[]|]; discriminate.
    + intros _. exists m. auto.
    + apply Forall_forall. intros r Hr Hstrict.
      rewrite Forall_forall in Hstrict, Hall.
      destruct (Hstrict m Hin) as [->|Hlt]; [reflexivity|].
      specialize (Hall r Hr). lia.
Qed.

Section DedupeWith.
Variable pick : AttendanceEntry -> AttendanceEntry -> AttendanceEntry.
Hypothesis pick_cases : forall a b, pick a b = a \/ pick a b = b.

Lemma dedupeStepWith_elem out rec x :
  x ∈ dedupeStepWith pick out rec -> x ∈ out \/ x = rec.
Proof.
  unfold dedupeStepWith. destruct (findIndex _ out) as [idx|] eqn:Hi.
  - destruct (out !! idx) as [existing|] eqn:He; [|auto].
    intros Hx. apply list_elem_of_lookup in Hx as [j Hj].
    destruct (decide (idx = j)) as [<-|Hne].
    + rewrite list_lookup_insert_eq in Hj by (eapply lookup_lt_Some; exact He).
      injection Hj as <-.
      destruct (pick_cases existing rec) as [-> | ->]; [left | now right].
      eapply list_elem_of_lookup_2; exact He.
    + rewrite list_lookup_insert_ne in Hj by exact Hne.
      left. eapply list_elem_of_lookup_2; exact Hj.
  - rewrite elem_of_app, list_elem_of_singleton. tauto.
Qed.

Lemma dedupeWith_fold_elem l out x :
  x ∈ fold_left (dedupeStepWith pick) l out -> x ∈ out \/ x ∈ l.
Proof.
  revert out; induction l as [|r l IH]; intros out; simpl; [auto|].
  intros Hx. apply IH in Hx as [Hx|Hx].
  - apply dedupeStepWith_elem in Hx as [Hx| ->]; [now left | right; left].
  - right. now right.
Qed.

Lemma dedupeListWith_elem l x : x ∈ dedupeListWith pick l -> x ∈ l.
Proof.
  intros H. apply dedupeWith_fold_elem in H as [H|H]; [inversion H | exact H].
Qed.

End DedupeWith.

Lemma pickBetterByUUID_cases a b : pickBetterByUUID a b = a \/ pickBetterByUUID a b = b.
Proof.
  unfold pickBetterByUUID.
  repeat match goal with |- context [if ?c then _ else _] => destruct c end; auto.
Qed.

(** X25: [getAttendanceRecords] never throws.  Offline, or when the
    query is rejected, answers with an error or with no data, it returns
    the local list as loaded and saves nothing.  Otherwise it hands the
    merge of the fetched rows with the local list to the manager's
    [save], once, and returns that merge when the save succeeds and the
    local list when the save throws.  Every entry it returns is a local
    entry or a fetched row. *)
Theorem getAttendanceRecords_falls_back {W : Type} `{!Host W} (drivers : list (Driver.t W))
    (online : bool) (answer : Response (list AttendanceRow)) (s : Sys W) :
  exists localData s0 result s',
    getFromLocalStorage drivers s = (Ok localData, s0)
    /\ getAttendanceRecords drivers online answer s = (Ok result, s')
    /\ match online, answer with
       | true, Resolved None (Some data) =>
           let merged :=
             dedupeListWith pickBetterByUUID
               (map entryOfRow data ++ attendanceRecords localData) in
           let saved :=
             StorageManager.save drivers (onlyAttendance merged)
               (record (EvSave (onlyAttendance merged))
                  (record (EvSelectAttendance None) s0).2).2 in
           s' = saved.2
           /\ result = match saved.1 with
                       | Ok _ => merged
                       | Throw _ => attendanceRecords localData
                       end
           /\ List.filter isSave (trace s')
              = List.filter isSave (trace s) ++ [EvSave (onlyAttendance merged)]
           /\ Forall (fun r => r ∈ attendanceRecords localData
                               \/ exists row, row ∈ data /\ r = entryOfRow row) result
       | _, _ =>
           result = attendanceRecords localData
           /\ List.filter isSave (trace s') = List.filter isSave (trace s)
       end.
Proof.
  destruct (getFromLocalStorage_returns drivers s) as (localData & s0 & H & Ft & _).
  exists localData, s0.
  unfold getAttendanceRecords, bind at 1. rewrite H.
  unfold bind at 1, tryCatch.
  destruct online.
  - unfold bind at 1. rewrite record_run.
    destruct answer as [e|[e|] [data|]];
      try (unfold throw, ret, bind; simpl;
           do 2 eexists; split; [reflexivity|]; split; [reflexivity|];
           split; [reflexivity|]; simpl; rewrite List.filter_app, Ft; simpl;
           apply app_nil_r).
    unfold saveToLocalStorage, bind, ret, tryCatch, throw, record.
    fold (onlyAttendance (dedupeListWith pickBetterByUUID
                            (map entryOfRow data ++ attendanceRecords localData))).
    cbn [snd fst manager world engineKey lastSyncTime trace].
    match goal with |- context [StorageManager.save drivers ?p ?x] =>
      pose proof (save_frame drivers p x) as [Ftr _];
      destruct (StorageManager.save drivers p x) as [[[]|e] s1] end;
      simpl in Ftr |- *; do 2 eexists; (split; [reflexivity|]);
      (split; [reflexivity|]); (split; [reflexivity|]); (split; [reflexivity|]);
      (split; [rewrite Ftr, !List.filter_app, Ft; simpl; now rewrite app_nil_r|]).
    + apply Forall_forall. intros x Hx.
      apply (dedupeListWith_elem _ pickBetterByUUID_cases) in Hx.
      apply elem_of_app in Hx as [Hx|Hx]; [right | now left].
      apply list_elem_of_fmap in Hx as (row & -> & Hrow). eauto.
    + apply Forall_forall. intros x Hx. now left.
  - unfold ret, bind. simpl. do 2 eexists. split; [reflexivity|].
    split; [reflexivity|]. split; [reflexivity | now rewrite Ft].
Qed.

(** Online, with a store that refuses writes, the merge is computed and
    handed to [save], and the caller gets the local list. *)
Example getAttendanceRecords_save_refused :
  let run :=
    getAttendanceRecords twoDrivers true (Resolved None (Some [remoteRow]))
      {| manager := {| currentDriver := Some 1%nat; initialized := true |};
         world := (bootstrappedStore,
                   {| LocalStorageDriver.present := true;
                      LocalStorageDriver.writable := false;
                      LocalStorageDriver.item :=
                        LocalStorageDriver.Blob
                          (onlyAttendance [scanPlaceholder]) |});
         engineKey := None; lastSyncTime := 0; trace := [] |} in
  run.1 = Ok [scanPlaceholder]
  /\ trace run.2 = [EvSelectAttendance None; EvSave (onlyAttendance [scanRemote])].
Proof. split; reflexivity. Qed.

(** ** Sync orchestrator: the push pass *)

Lemma fold_left_invariant {A B} (I : A -> Prop) (P : B -> Prop) (f : A -> B -> A) l a :
  (forall a b, I a -> P b -> I (f a b)) -> Forall P l -> I a -> I (fold_left f l a).
Proof.
  intros Hf Hl. revert a.
  induction Hl as [|b l Hb Hl IH]; intros a Ha; simpl; [exact Ha|].
  apply IH, Hf; [exact Ha | exact Hb].
Qed.

Lemma guarded_snoc remote ready log x :
  guarded remote ready log -> (forall r, x <> ReqInsertAttendance r) ->
  guarded remote ready (log ++ [x]).
Proof.
  intros G Hx i r Hi.
  destruct (decide (i < length log)%nat) as [Hlt|Hge].
  - rewrite lookup_app_l in Hi by exact Hlt.
    destruct (G i r Hi) as (Hr & j & -> & Hj & Hf).
    split; [exact Hr|]. exists j. split; [reflexivity|].
    split; [rewrite lookup_app_l by lia; exact Hj|].
    rewrite take_app_le by lia. exact Hf.
  - rewrite lookup_app_r in Hi by lia.
    destruct (i - length log)%nat; simpl in Hi; [|discriminate].
    injection Hi as ->. now destruct (Hx r).
Qed.

Lemma guarded_query_insert remote (ready : AttendanceEntry -> Prop) log r :
  guarded remote ready log -> ready r ->
  foundRow (answerFindDuplicate remote (log ++ [duplicateQuery r])) = false ->
  guarded remote ready ((log ++ [duplicateQuery r]) ++ [ReqInsertAttendance r]).
Proof.
  intros G Hr Hf i r' Hi.
  assert (G1 : guarded remote ready (log ++ [duplicateQuery r])).
  { apply guarded_snoc; [exact G | intros x; unfold duplicateQuery; discriminate]. }
  destruct (decide (i < length (log ++ [duplicateQuery r]))%nat) as [Hlt|Hge].
  - rewrite lookup_app_l in Hi by exact Hlt.
    destruct (G1 i r' Hi) as (Hr' & j & -> & Hj & Hf').
    split; [exact Hr'|]. exists j. split; [reflexivity|].
    split; [rewrite lookup_app_l by lia; exact Hj|].
    rewrite take_app_le by lia. exact Hf'.
  - rewrite lookup_app_r in Hi by lia.
    destruct (i - length (log ++ [duplicateQuery r]))%nat eqn:E; simpl in Hi;
      [|discriminate].
    injection Hi as <-.
    rewrite length_app in *. simpl in *.
    assert (i = S (length log)) as -> by lia.
    split; [exact Hr|]. exists (length log). split; [reflexivity|].
    split.
    + rewrite lookup_app_l by (rewrite length_app; simpl; lia).
      rewrite lookup_app_r by lia. now rewrite Nat.sub_diag.
    + rewrite take_app_le by (rewrite length_app; simpl; lia).
      rewrite take_ge by (rewrite length_app; simpl; lia). exact Hf.
Qed.

Section PushFacts.
Context (tz utc : Z -> Z) (isElectron : bool).
Context (studentFromInsert : StudentRow -> Student.t).
Context (entryFromRow : AttendanceRow -> AttendanceEntry).
Context (remote : PushRemote).

Lemma pushStudent_guarded ready st student :
  guarded remote ready (requests st) ->
  guarded remote ready (requests (pushStudent studentFromInsert remote st student)).
Proof.
  intros G. unfold pushStudent.
  assert (G1 : guarded remote ready (requests st ++ [ReqInsertStudent student]))
    by (apply guarded_snoc; [exact G | discriminate]).
  destruct (answerInsertStudent remote _) as [e|[e|] [data|]]; exact G1.
Qed.

Lemma pushDirtyStudent_guarded ready st s :
  guarded remote ready (requests st) ->
  guarded remote ready (requests (pushDirtyStudent remote st s)).
Proof.
  intros G. unfold pushDirtyStudent.
  assert (G1 : guarded remote ready (requests st ++ [ReqUpdateStudent s]))
    by (apply guarded_snoc; [exact G | discriminate]).
  destruct (answerUpdateStudent remote _) as [e|[e|] [data|]]; exact G1.
Qed.

Lemma pushRecord_guarded (ready : AttendanceEntry -> Prop) st record :
  guarded remote ready (requests st) -> ready record ->
  guarded remote ready (requests (pushRecord entryFromRow remote st record)).
Proof.
  intros G Hr. unfold pushRecord.
  assert (G1 : guarded remote ready (requests st ++ [duplicateQuery record])).
  { apply guarded_snoc; [exact G | intros x; unfold duplicateQuery; discriminate]. }
  pose proof (guarded_query_insert remote ready (requests st) record G Hr) as G2.
  destruct (answerFindDuplicate remote _) as [e|[e|] [[|server rows]|]]; simpl in *;
    try exact G1;
    destruct (answerInsertAttendance remote _) as [e'|[e'|] [data|]]; simpl;
    apply G2; reflexivity.
Qed.

Lemma pushAll_guarded now localData :
  guarded remote
    (fun r => r ∈ attendanceRecords localData
              /\ readyToPush tz utc isElectron now r = true)
    (requests (pushAll tz utc isElectron studentFromInsert entryFromRow remote now localData)).
Proof.
  unfold pushAll.
  set (ready := fun r => r ∈ attendanceRecords localData
                         /\ readyToPush tz utc isElectron now r = true).
  apply (fold_left_invariant (fun st => guarded remote ready (requests st))
           (fun _ => True)).
  - intros st s G _. apply pushDirtyStudent_guarded, G.
  - apply Forall_forall. intros; exact I.
  - apply (fold_left_invariant (fun st => guarded remote ready (requests st)) ready).
    + intros st r G Hr. apply pushRecord_guarded; assumption.
    + apply Forall_forall. intros r Hr. apply list_elem_of_In, filter_In in Hr.
      destruct Hr as [Hin Hr]. split; [apply list_elem_of_In, Hin | exact Hr].
    + apply (fold_left_invariant (fun st => guarded remote ready (requests st))
               (fun _ => True)).
      * intros st s G _. apply pushStudent_guarded, G.
      * apply Forall_forall. intros; exact I.
      * simpl. intros i r Hi. discriminate.
Qed.

End PushFacts.

(** X26: the push pass never inserts an attendance record blindly.
    Every insert request it makes is for a loaded record that is ready
    to be pushed, and comes right after the duplicate query of that same
    record, which found no row. *)
Theorem push_pass_inserts_are_guarded (tz utc : Z -> Z) (isElectron : bool)
    (studentFromInsert : StudentRow -> Student.t)
    (entryFromRow : AttendanceRow -> AttendanceEntry)
    (remote : PushRemote) (now : Z) (localData : OfflineData) (i : nat)
    (r : AttendanceEntry) :
  let log := requests (pushAll tz utc isElectron studentFromInsert entryFromRow remote now
                         localData) in
  log !! i = Some (ReqInsertAttendance r) ->
  (r ∈ attendanceRecords localData /\ readyToPush tz utc isElectron now r = true)
  /\ exists j, i = S j /\ log !! j = Some (duplicateQuery r)
               /\ foundRow (answerFindDuplicate remote (take i log)) = false.
Proof.
  intros log Hi.
  exact (pushAll_guarded tz utc isElectron studentFromInsert entryFromRow remote now
           localData i r Hi).
Qed.

Lemma push_pass_inserts_are_guarded_witness :
  let log := requests (pushAll manila manilaUTC false studentOfRow entryOfRow pushReachable
                         1730505700000 pendingData) in
  log = [ReqInsertStudent offlineStudent; duplicateQuery scanPlaceholder;
         ReqInsertAttendance scanPlaceholder]
  /\ readyToPush manila manilaUTC false 1730505700000 scanPlaceholder = true.
Proof.
  split; [reflexivity|].
  exact (proj2 (proj1 (push_pass_inserts_are_guarded manila manilaUTC false studentOfRow entryOfRow
                         pushReachable 1730505700000 pendingData 2 scanPlaceholder
                         eq_refl))).
Defined.


Section PushSteps.
Context (tz utc : Z -> Z) (isElectron : bool).
Context (studentFromInsert : StudentRow -> Student.t).
Context (entryFromRow : AttendanceRow -> AttendanceEntry).
Context (remote : PushRemote).






Hypothesis refuses : refusesAll remote.

Lemma pushStudent_refused st0 st student :
  untouched st0 st -> untouched st0 (pushStudent studentFromInsert remote st student).
Proof.
  intros H. unfold pushStudent.
  destruct (refuses (requests st ++ [ReqInsertStudent student])) as (R & _).
  destruct (answerInsertStudent remote _) as [e|[e|] [data|]];
    try discriminate; exact H.
Qed.

Lemma pushDirtyStudent_refused st0 st s :
  untouched st0 st -> untouched st0 (pushDirtyStudent remote st s).
Proof.
  intros H. unfold pushDirtyStudent.
  destruct (refuses (requests st ++ [ReqUpdateStudent s])) as (_ & _ & _ & R).
  destruct (answerUpdateStudent remote _) as [e|[e|] [data|]];
    try discriminate; exact H.
Qed.

Lemma pushRecord_refused st0 st record :
  untouched st0 st -> untouched st0 (pushRecord entryFromRow remote st record).
Proof.
  intros H. unfold pushRecord.
  destruct (refuses (requests st ++ [duplicateQuery record])) as (_ & R & _).
  destruct (refuses ((requests st ++ [duplicateQuery record])
                     ++ [ReqInsertAttendance record])) as (_ & _ & R' & _).
  destruct (answerFindDuplicate remote _) as [e|[e|] [[|server rows]|]];
    try discriminate; simpl; try exact H;
    destruct (answerInsertAttendance remote _) as [e'|[e'|] [data|]];
    try discriminate; exact H.
Qed.

Lemma pushAll_refused now localData :
  let st := pushAll tz utc isElectron studentFromInsert entryFromRow remote now localData in
  syncCount st = 0%nat /\ replacedAny st = false.
Proof.
  set (st0 := {| ps_students := students localData;
                 ps_attendanceRecords := attendanceRecords localData;
                 syncCount := 0; replacedAny := false; requests := [] |}).
  assert (U : untouched st0
                (pushAll tz utc isElectron studentFromInsert entryFromRow remote now
                   localData)).
  { unfold pushAll. fold st0.
    apply (fold_left_invariant (untouched st0) (fun _ => True)).
    - intros st s G _. apply pushDirtyStudent_refused, G.
    - apply Forall_forall. intros; exact I.
    - apply (fold_left_invariant (untouched st0) (fun _ => True)).
      + intros st r G _. apply pushRecord_refused, G.
      + apply Forall_forall. intros; exact I.
      + apply (fold_left_invariant (untouched st0) (fun _ => True)).
        * intros st s G _. apply pushStudent_refused, G.
        * apply Forall_forall. intros; exact I.
        * repeat split. }
  destruct U as (_ & _ & U1 & U2). split; [exact U1 | exact U2].
Qed.

End PushSteps.

Lemma filter_none {A} (p : A -> bool) l :
  Forall (fun x => p x = false) l -> List.filter p l = [].
Proof. induction 1 as [|x l Hx _ IH]; simpl; [reflexivity | now rewrite Hx]. Qed.

Section PushRun.
Context {W : Type} `{!Host W} (drivers : list (Driver.t W)).
Context (tz utc : Z -> Z) (isElectron : bool).
Context (studentFromInsert : StudentRow -> Student.t).
Context (entryFromRow : AttendanceRow -> AttendanceEntry).
Context (remote : PushRemote).

(** The pass, from the envelope it loads: the three loops, then at most
    one save, whose error is the only one that leaves the pass. *)
Lemma syncLocalToSupabaseLogged_run now (s : Sys W) localData s0 :
  getFromLocalStorage drivers s = (Ok localData, s0) ->
  let st := pushAll tz utc isElectron studentFromInsert entryFromRow remote now localData in
  syncLocalToSupabaseLogged drivers tz utc isElectron studentFromInsert entryFromRow remote
    now s
  = if (0 <? syncCount st)%nat || replacedAny st
    then
      let saved :=
        saveToLocalStorage drivers
          (pushed (ps_students st) (ps_attendanceRecords st) now) s0 in
      (match saved.1 with Ok _ => Ok (requests st) | Throw e => Throw e end, saved.2)
    else (Ok (requests st), s0).
Proof.
  intros H st. unfold syncLocalToSupabaseLogged, bind. rewrite H. fold st.
  destruct ((0 <? syncCount st)%nat || replacedAny st); [|reflexivity].
  unfold pushed. destruct (saveToLocalStorage drivers _ s0) as [[[]|e] s']; reflexivity.
Qed.

Lemma syncLocalToSupabase_lastSyncTime now (s : Sys W) :
  lastSyncTime
    (syncLocalToSupabase drivers tz utc isElectron studentFromInsert entryFromRow remote
       now s).2
  = lastSyncTime s.
Proof.
  destruct (getFromLocalStorage_returns drivers s) as (localData & s0 & Hload & _ & Hl).
  unfold syncLocalToSupabase, bind.
  rewrite (syncLocalToSupabaseLogged_run now s localData s0 Hload).
  destruct (_ || _); simpl; [|exact Hl].
  match goal with |- context [saveToLocalStorage drivers ?p s0] =>
    destruct (saveToLocalStorage_run drivers p s0) as (r & s' & -> & _ & Hs) end.
  simpl. destruct r as [[]|e]; simpl; congruence.
Qed.

End PushRun.


(** X28: a backend that lets nothing through leaves the local data
    alone.  When every request of the pass is rejected, answered with an
    error or answered without a row, the pass returns normally and saves
    nothing: it ends in the state its first load left. *)
Theorem push_pass_backend_refuses {W : Type} `{!Host W} (drivers : list (Driver.t W))
    (tz utc : Z -> Z) (isElectron : bool)
    (studentFromInsert : StudentRow -> Student.t)
    (entryFromRow : AttendanceRow -> AttendanceEntry)
    (remote : PushRemote) (now : Z) (s : Sys W) :
  refusesAll remote ->
  exists localData s0 log,
    getFromLocalStorage drivers s = (Ok localData, s0)
    /\ syncLocalToSupabaseLogged drivers tz utc isElectron studentFromInsert entryFromRow
         remote now s = (Ok log, s0)
    /\ trace s0 = trace s.
Proof.
  intros R.
  destruct (getFromLocalStorage_returns drivers s) as (localData & s0 & Hload & Ht & Hl).
  exists localData, s0. eexists. split; [exact Hload|].
  rewrite (syncLocalToSupabaseLogged_run drivers tz utc isElectron
             studentFromInsert entryFromRow remote now s localData s0 Hload).
  destruct (pushAll_refused tz utc isElectron studentFromInsert entryFromRow remote R now
              localData) as [-> ->].
  simpl. split; [reflexivity | exact Ht].
Qed.

Lemma push_pass_backend_refuses_witness :
  exists s0 log,
    syncLocalToSupabaseLogged flatOnly manila manilaUTC false studentOfRow entryOfRow
      pushUnreachable 1730505700000 (freshSys pendingStore) = (Ok log, s0)
    /\ trace s0 = [].
Proof.
  destruct (push_pass_backend_refuses flatOnly manila manilaUTC false studentOfRow entryOfRow
              pushUnreachable 1730505700000 (freshSys pendingStore))
    as (localData & s0 & log & _ & H & Ht).
  - intros asked. repeat split.
  - exists s0, log. split; [exact H | exact Ht].
Defined.

(** X29: with nothing pending the push pass is silent.  When the loaded
    envelope holds no student created offline, no attendance record
    ready to be pushed and no student edited offline, the pass makes no
    request and saves nothing. *)
Theorem push_pass_idle {W : Type} `{!Host W} (drivers : list (Driver.t W))
    (tz utc : Z -> Z) (isElectron : bool)
    (studentFromInsert : StudentRow -> Student.t)
    (entryFromRow : AttendanceRow -> AttendanceEntry)
    (remote : PushRemote) (now : Z) (s : Sys W) (localData : OfflineData) (s0 : Sys W) :
  getFromLocalStorage drivers s = (Ok localData, s0) ->
  Forall (fun x => startsWithLocal (Student.id x) = false /\ Student.dirty x = false)
    (students localData) ->
  Forall (fun r => readyToPush tz utc isElectron now r = false) (attendanceRecords localData) ->
  syncLocalToSupabaseLogged drivers tz utc isElectron studentFromInsert entryFromRow remote
    now s = (Ok [], s0).
Proof.
  intros Hload Hs Hr.
  rewrite (syncLocalToSupabaseLogged_run drivers tz utc isElectron
             studentFromInsert entryFromRow remote now s localData s0 Hload).
  assert (E1 : List.filter (fun x => startsWithLocal (Student.id x)) (students localData)
               = []).
  { apply filter_none. eapply Forall_impl; [exact Hs|]. now intros x [Hx _]. }
  assert (E2 : List.filter (readyToPush tz utc isElectron now) (attendanceRecords localData)
               = []) by (apply filter_none, Hr).
  assert (E3 : List.filter
                 (fun x => negb (startsWithLocal (Student.id x)) && Student.dirty x)
                 (students localData) = []).
  { apply filter_none. eapply Forall_impl; [exact Hs|].
    intros x [Hx Hd]. simpl. now rewrite Hx, Hd. }
  unfold pushAll. rewrite E1, E2. simpl. rewrite E3. reflexivity.
Qed.

Lemma push_pass_idle_witness :
  syncLocalToSupabaseLogged flatOnly manila manilaUTC false studentOfRow entryOfRow pushReachable
    1730505700000 tenSecondsAfter
  = (Ok [], tenSecondsAfter).
Proof.
  eapply (push_pass_idle flatOnly manila manilaUTC false studentOfRow entryOfRow pushReachable
            1730505700000 tenSecondsAfter).
  - reflexivity.
  - constructor.
  - repeat constructor.
Defined.

(** X30: a cycle that ran throttles the next one, whether it succeeded
    or not.  After a cycle that was forced or due at time [now], with
    the push pass and the pull pass of the source, the time of the last
    cycle is [now], whatever the backend answered and whatever the
    stores did; a trigger without the force flag less than thirty
    seconds later does nothing. *)
Theorem cycle_throttles_next {W : Type} `{!Host W} (drivers : list (Driver.t W))
    (tz utc : Z -> Z) (isElectron : bool)
    (studentFromInsert : StudentRow -> Student.t)
    (entryFromRow : AttendanceRow -> AttendanceEntry)
    (push : PushRemote) (pull : PullRemote) (now now' : Z) (force : bool) (s : Sys W) :
  force = true \/ MIN_SYNC_INTERVAL <= now - lastSyncTime s ->
  now' - now < MIN_SYNC_INTERVAL ->
  let cycle :=
    performSync drivers tz utc
      (syncLocalToSupabase drivers tz utc isElectron studentFromInsert entryFromRow push)
      pull in
  let s1 := (cycle now force s).2 in
  lastSyncTime s1 = now /\ cycle now' false s1 = (Ok tt, s1).
Proof.
  intros Hgo Hsoon cycle s1.
  assert (L : lastSyncTime s1 = now).
  { unfold s1, cycle. rewrite performSync_runs by exact Hgo. simpl.
    unfold tryCatch, bind.
    destruct (getFromLocalStorage_returns drivers (withLastSyncTime now s))
      as (localData & s0 & -> & _ & Hl).
    pose proof (syncLocalToSupabase_lastSyncTime drivers tz utc isElectron studentFromInsert
                  entryFromRow push now s0) as Hp.
    destruct (syncLocalToSupabase drivers tz utc isElectron studentFromInsert entryFromRow
                push now s0) as [[[]|e] s2]; simpl in *; [|congruence].
    destruct (getFromLocalStorage_returns drivers s2) as (localData' & s3 & Hload & _ & Hl').
    destruct (syncSupabaseToLocal_run drivers tz utc pull now s2 localData' s3 Hload)
      as (s' & -> & Hs' & _).
    simpl. congruence. }
  split; [exact L|].
  unfold cycle. apply performSync_throttled. rewrite L. exact Hsoon.
Qed.

Lemma cycle_throttles_next_witness :
  let cycle :=
    performSync flatOnly manila manilaUTC
      (syncLocalToSupabase flatOnly manila manilaUTC false studentOfRow entryOfRow pushUnreachable)
      unreachable in
  let s1 := (cycle 1730505700000 true (freshSys pendingStore)).2 in
  lastSyncTime s1 = 1730505700000 /\ cycle 1730505710000 false s1 = (Ok tt, s1).
Proof.
  apply (cycle_throttles_next flatOnly manila manilaUTC false studentOfRow entryOfRow
           pushUnreachable unreachable 1730505700000 1730505710000 true
           (freshSys pendingStore)).
  - left. reflexivity.
  - reflexivity.
Defined.
